(* ===== verification/_CoqProject ===== *)
-Q . S2P
Prelude.v
PyStr.v
Json.v
Startup.v
CheckStructure.v
Regex.v
Cs2Preset.v
Cs2Locate.v
PresetManager.v
Factory.v
World.v
Interaction.v
Benchmark.v
Cs2Benchmark.v
Cli.v
