(* ===== verification/Prelude.v ===== *)
(** * Katana: a verification development of the game benchmark framework

    Katana ([src/katana]) drives a PC game through its GUI to run an
    in-game benchmark: [main.py] reads the command line or prompts the
    user, [PresetManager] ([core/presets.py]) applies a graphics preset
    through a game's [PresetAdapter] (for CS2 the [CS2PresetAdapter] of
    [games/cs2/presets.py], which patches the game's [video.txt] with
    [re.search] / [re.sub] and keeps a timestamped backup), and a
    [GameBenchmark] ([core/benchmark.py], for CS2 the [CS2Benchmark] of
    [games/cs2/benchmark.py]) runs a dry run to measure the benchmark's
    duration and then [run_count] measured runs, each one launching the
    game, clicking through its menus with the [GameInteractor] of
    [core/interaction.py] (which finds buttons with the [ImageDetector]
    of [core/detection.py]) and saving a [BenchmarkResult].  Beside the
    package, [check_structure.py] prints the directory tree.

    ** Files

    - [Prelude] (this file): Python text as [list ascii], Python
      exceptions, the exception monad [pyres], the state-and-exception
      monad [stm] with Hoare triples [hoare] and their rules, the hint
      databases and tactics shared by the development.
    - [PyStr]: [str.isspace], [strip], [lower], [upper], [title],
      [replace] (with a one-character needle, and in general),
      [count], [posixpath.basename], [int()] and [str()] of integers,
      the scalar JSON values of a preset.
    - [Json], Module [Json]: [json.dumps(obj, indent=2)] as
      [BenchmarkResult.to_json] calls it (string escapes, the indented
      layout, the reprs of [int] and of a duration), and a decoder for
      the JSON grammar of RFC 8259 as the reference it is proved
      against.
    - [CheckStructure], Module [CheckStructure]: [check_structure.py]:
      the tree at [startpath] ([dtree]), [os.walk] top-down with
      [posixpath.join] ([walk]), the lines [print_directory_structure]
      prints.
    - [Regex]: the pattern [rf'Q{key}Q\s+Q[^Q]*Q'] (Q for a double
      quote) of [CS2PresetAdapter.apply_preset] as a regular expression with its
      language ([rmatch]), the scanner [match_setting] proved to decide
      it, leftmost [search], global substitution [sub_all] and Python's
      replacement-template syntax ([parse_template], [expand]); [re_sub]
      is [re.sub].
    - [Cs2Preset], Module [CS2PresetAdapter]: [apply_preset] (lines
      115-203), its [try] block [patch_config] and [except] branch
      [on_error], [backup_config], [restore_backup] over a filesystem
      [gmap pystr pystr] and a disk whose writes can fail ([faults]:
      [open(path, "w")] refused, or the file truncated and the write
      cut short for lack of space), with [write_file] and [copy2]
      ([shutil.copy2]) failing that way; the preset data is what
      [json.load] returned ([loaded]), with Python's truth value and
      [in]; the loop body is [update_one].
    - [Cs2Locate], Module [CS2Locate]: [CS2PresetAdapter.__init__],
      [_find_config_path] and [_find_steam_path] over a host record
      (operating system, registry value, home directory, existing paths,
      directory entries in [iterdir] order); [get_preset_manager] builds
      the CS2 adapter through it.
    - [PresetManager]: the abstract class [PresetAdapter] as a typeclass
      with the law [PresetAdapterLaws] the manager relies on, the CS2
      instance, and Module [PresetManager] (generic in the adapter) for
      [register_adapter], [get_available_presets], [get_preset_data],
      [apply_preset], and [get_preset_manager] of [main.py].
    - [World]: the machine: clock, screen, windows, whether the GUI and
      the disk accept calls, and the trace of events; [sleep], the
      polling loop [poll_loop], the detector (modelled from the
      specification: [detection.py] is not in the repository), and the
      two invariants [tame] (the machine only moves forward) and [safe]
      (no exception with a working GUI).
    - [Interaction], Module [GameInteractor]: every method of the
      interactor.
    - [Benchmark], Module [Benchmark]: [BenchmarkResult], the object
      [game_bench], and [GameBenchmark] generic in its six abstract
      steps (the typeclass [GameSteps], with the laws [GameStepsLaws]):
      [launch], [execute_benchmark_run], [run_benchmark_series]; and
      Section [ResultTyping]: what [collect_results] returns types what
      a series stores.  [save] writes [to_json()], the JSON text of
      the result's dictionary.
    - [Cs2Benchmark], Module [Cs2Benchmark]: [config.py] and the six
      CS2 steps, the [GameSteps] instance and its laws.
    - [Factory], Module [GameFactory]: [factory.py].  The games package
      is data (directory entries, and each importable module's namespace
      in insertion order); [get_available_games], [create_benchmark]
      down to the attribute it instantiates (with [str.upper] and
      [str.title] of [PyStr]), and the factory's own preset functions.
    - [Cli], Module [Main]: [main.py].  Standard input is a list of
      lines; the four prompt loops share [prompt_until], a structural
      recursion on that list; [main] goes from the parsed arguments
      through the stages [main_apply] (the preset) and [main_run] (the
      [try] block: [create_benchmark], runs and cooldown,
      [run_benchmark_series] of the class built), and returns the exit
      status or the exception that escapes it.
    - [Startup], Module [Startup]: the module-level statements of the
      package ([logging.basicConfig] in [main.py] and
      [core/benchmark.py], [colorama.init], the [pyautogui] settings)
      and the imports between its modules: [sys.modules], the root
      logger's handlers and the flags as an interpreter state
      ([interp]), an import as [import_module].

    ** Theorems

    - The preset adapter: after the loop body handles a present setting,
      the first match of its pattern is exactly the preset's line
      ([update_one_in_effect]); with a backup, a call that does not
      answer [True] leaves the config as it was, a failed write included,
      because the [except] branch copies the backup back (the law the
      manager rests on); the backup holds the original whenever the
      config changed; no file but the config and its backup is written;
      success and the written content; backup then restore gives the
      original back.  Without a backup a failed write leaves the config
      truncated; an array naming the resolution keys leaves a backup
      file and fails.  The errors and surprises of [re.sub] templates and
      [str.replace] are theorems too (a Windows path in a preset raises,
      a missing setting is inserted before every closing brace, or not
      at all).
    - The manager, proved against the adapter interface only: an
      [apply_preset] with a backup that does not answer [True] leaves the
      config as it was; with truthy preset data it returns exactly the
      adapter's answer; with no adapter, no file, or data that does not
      load or is falsy it refuses without calling the adapter; the
      listing is exactly the index entries whose file exists;
      [get_preset_manager] only serves the literal id [cs2].  The config
      search only returns an existing [730/local/cfg] file of a Steam
      user directory, and gives up on a stale registry entry.
    - The benchmark, proved for every [GameSteps] instance that satisfies
      the laws: a run never raises and adds at most its own result; the
      series appends results in run order, returns early when the dry run
      measured nothing, and launches the game [run_count + 1] times.  For
      CS2: the recorded times are never in the future and the measured
      duration never negative, in every reachable state; every stored
      result is one of game [730] with a duration that is set and not
      negative (an instance of the generic [series_results_typed]); a
      measured run records a result whatever the screen shows.
    - The result file: what [save] writes decodes, as JSON, to the
      dictionary of [to_json()] (a parse/print roundtrip of
      [json.dumps(indent=2)], proved for every value whose numbers are
      JSON numbers, which those of a result are).
    - Start-up: run as [python -m katana.main], the program logs with
      [main.py]'s set-up (standard output, a UTF-8 file) whatever game
      it then imports; the [basicConfig] of [core/benchmark.py] does
      nothing then, and wins only when that module is imported first.
    - The interactor: the retry loop succeeds exactly when some attempt
      does, sleeps [max_retries] seconds when none does; waiting for a
      template to disappear never changes the result.  The polling loop
      returns before [timeout + interval] ms and says [False] only after
      the whole timeout (bounds); [wait_for_template] sees a template
      that is on screen at one of its probe times (liveness).
    - The factory: [create_benchmark] finds [CS2Benchmark] whatever the
      case of the id; for a game module whose class is not named
      [<ID>Benchmark] or [<Id>Benchmark] the fallback instantiates the
      imported abstract [GameBenchmark] and raises; the factory's
      [apply_preset] can never succeed in the shipped package.
    - The command line: [prompt_for_game] returns the game of the first
      line that is a number in range, and [prompt_for_preset] the
      [i]-th listed preset for the first line [i] in range ([None] for
      [0]); a refused preset ends [main] with 1 before any launch; with
      the flags given, [main] is [run_benchmark_series] of the flag
      values, unchecked (a negative cooldown raises after the dry run);
      an exception of the config search or of the preset step (a preset
      file holding a number) escapes [main].
    - The listing script: for a start path without [/] (the script's
      [.]), what it prints is the indented tree, the level computed from
      the path text being the depth; with [src/] or a start path that
      recurs deeper, the levels are wrong.
    - [int(str(z)) = z].

    ** Fuel

    Every loop of the program is modelled by structural recursion; the
    prompt loops recur on the input lines, one per turn.
    [str_of_N] uses the binary length of the number as fuel, which bounds
    its decimal length.  The scanner and the template parser of [Regex]
    take the length of their input plus one, and [sub_scan_fuel] and
    [parse_tmpl] show that more fuel changes nothing.  The polling loop
    [while time.time() - start < timeout] takes [timeout / interval + 1]
    turns of fuel, and [poll_fuel_enough] shows the loop ends on its own
    condition before the fuel runs out.  An import takes the number of
    the package's modules as fuel ([module_fuel]): each nested import
    enters one more module in [sys.modules] first.

    ** Not modelled

    Reading JSON ([json.load]): presets and indexes are given as parsed
    values; of an array only its string elements, of a number only
    whether it is zero, matter to the program.  Reading a file never
    fails; a write fails as [faults] says, the same way at every call.  The float [time.time()] differences in [to_json] carry more
    digits than the model's milliseconds.  The time the GUI calls
    themselves take.
    The log messages, the banner and its colours, and everything [main]
    prints (the logging set-up itself is modelled in [Startup]).
    [argparse] itself (the model starts from the parsed arguments, and
    keeps its [choices] check).  [importlib]: whether a module imports
    is a parameter of the package, so [core/detection.py], missing from
    the repository, is taken as importable.  A configured runs or
    cooldown value that is not an [int] is outside the model ([main]
    gives [None]).  [pathlib] normalisation: paths are joined as text
    (a trailing separator or an empty registry value is kept as it is).  In [check_structure.py], the order [os.scandir]
    lists a directory in (the tree's lists are that order), symbolic
    links, and directories [os.walk] cannot read; [os.sep] is [/]. *)

From stdpp Require Export base list gmap strings.
From Stdlib Require Export Ascii ZArith Lia.

(** ** Python text

    A Python [str] is modelled as the list of its characters.  The
    configuration files and preset keys the program handles are ASCII
    (or Latin-1) text, so a character is an [ascii] (a code point below
    256).  [lit] turns a Rocq string literal into such a list. *)

Abbreviation pystr := (list ascii).

Definition lit (s : string) : pystr := String.list_ascii_of_string s.

(** Characters that have no literal of their own here. *)
Definition ch_dquote : ascii := Ascii.ascii_of_nat 34.
Definition ch_nl : ascii := Ascii.ascii_of_nat 10.
Definition ch_tab : ascii := Ascii.ascii_of_nat 9.
Definition ch_bslash : ascii := Ascii.ascii_of_nat 92.

Declare Scope katana_scope.
Delimit Scope katana_scope with katana.
Open Scope katana_scope.

(** ** Python exceptions

    The exceptions the modelled code raises, by class.  Each component
    only raises the ones its source can raise; handlers that catch
    [Exception] catch all of them. *)

Inductive pyexc : Type :=
  | ReError            (** [re.error] / [IndexError] from a replacement template *)
  | TypeError          (** arithmetic on [None] *)
  | NotImplementedError
  | ValueError
  | EOFError           (** [input()] at end of input *)
  | ImportError
  | OSError            (** a failed [open] / [shutil.copy2] *)
  | AttributeError     (** a method the object does not have *)
  | RecursionError     (** imports nested deeper than the modules there are *).

#[export] Instance pyexc_eq_dec : EqDecision pyexc.
Proof. solve_decision. Qed.

(** ** The exception monad

    [pyres A] is the outcome of a Python computation that either returns
    an [A] or raises.  It is an instance of stdpp's monad classes so that
    code reads with stdpp's [x ← c; k] notation. *)

Inductive pyres (A : Type) : Type :=
  | POk (a : A)
  | PErr (e : pyexc).
Arguments POk {A} a.
Arguments PErr {A} e.

#[export] Instance pyres_eq_dec {A} `{EqDecision A} : EqDecision (pyres A).
Proof. solve_decision. Defined.

#[export] Instance pyres_ret : MRet pyres := @POk.
#[export] Instance pyres_bind : MBind pyres :=
  fun A B f r => match r with POk a => f a | PErr e => PErr e end.
#[export] Instance pyres_fmap : FMap pyres :=
  fun A B f r => match r with POk a => POk (f a) | PErr e => PErr e end.

(** [raise e] *)
Definition raise {A} (e : pyexc) : pyres A := PErr e.

(** [try c except Exception: h] *)
Definition try_except {A} (c : pyres A) (h : pyexc -> A) : A :=
  match c with POk a => a | PErr e => h e end.

Lemma bind_POk {A B} (a : A) (f : A -> pyres B) : (POk a ≫= f) = f a.
Proof. reflexivity. Qed.

Lemma bind_PErr {A B} (e : pyexc) (f : A -> pyres B) : (PErr e ≫= f) = PErr e.
Proof. reflexivity. Qed.

Lemma bind_eq_POk {A B} (c : A -> pyres B) (r : pyres A) (b : B) :
  (r ≫= c) = POk b -> exists a, r = POk a /\ c a = POk b.
Proof. destruct r; simpl; [eauto | discriminate]. Qed.

(** ** The state and exception monad

    Code that changes the state of an object or of the machine and may
    raise runs in [stm S]: from a state it gives the outcome and the
    state reached.  An exception keeps the state reached when it was
    raised, as Python does: nothing is rolled back. *)

Definition stm (S A : Type) : Type := S -> pyres A * S.

#[export] Instance stm_ret {S} : MRet (stm S) := fun A a s => (POk a, s).
#[export] Instance stm_bind {S} : MBind (stm S) := fun A B f m s =>
  match m s with
  | (POk a, s') => f a s'
  | (PErr e, s') => (PErr e, s')
  end.

Definition get_st {S} : stm S S := fun s => (POk s, s).
Definition modify_st {S} (f : S -> S) : stm S unit := fun s => (POk tt, f s).
Definition throw {S A} (e : pyexc) : stm S A := fun s => (PErr e, s).

(** [try: m except Exception: h] *)
Definition catch {S A} (m : stm S A) (h : pyexc -> stm S A) : stm S A := fun s =>
  match m s with
  | (PErr e, s') => h e s'
  | r => r
  end.

Lemma stm_bind_run {S A B} (m : stm S A) (f : A -> stm S B) s :
  (m ≫= f) s = match m s with (POk a, s') => f a s' | (PErr e, s') => (PErr e, s') end.
Proof. reflexivity. Qed.

Lemma stm_ret_run {S A} (a : A) (s : S) : (mret a : stm S A) s = (POk a, s).
Proof. reflexivity. Qed.

(** ** Hoare triples over [stm]

    [hoare P m Q E]: from a state satisfying [P], [m] either returns [a]
    in a state satisfying [Q a], or raises [e] in a state satisfying
    [E e].  The rules below compose them along the code. *)

Definition hoare {S A} (P : S -> Prop) (m : stm S A) (Q : A -> S -> Prop)
    (E : pyexc -> S -> Prop) : Prop :=
  forall s, P s -> match m s with (POk a, s') => Q a s' | (PErr e, s') => E e s' end.

Lemma hoare_ret {S A} (P : S -> Prop) (a : A) (Q : A -> S -> Prop) E :
  (forall s, P s -> Q a s) -> hoare P (mret a) Q E.
Proof. intros H s Hs. by apply H. Qed.

Lemma hoare_bind {S A B} P (m : stm S A) (f : A -> stm S B) Q R E :
  hoare P m Q E -> (forall a, hoare (Q a) (f a) R E) -> hoare P (m ≫= f) R E.
Proof.
  intros Hm Hf s Hs. rewrite stm_bind_run. specialize (Hm s Hs).
  destruct (m s) as [[a|e] s']; [by apply Hf | done].
Qed.

Lemma hoare_catch {S A} P (m : stm S A) (h : pyexc -> stm S A) Q E E' :
  hoare P m Q E -> (forall e, hoare (E e) (h e) Q E') -> hoare P (catch m h) Q E'.
Proof.
  intros Hm Hh s Hs. unfold catch. specialize (Hm s Hs).
  destruct (m s) as [[a|e] s']; [done | by apply Hh].
Qed.

Lemma hoare_throw {S A} (P : S -> Prop) e (Q : A -> S -> Prop) (E : pyexc -> S -> Prop) :
  (forall s, P s -> E e s) -> hoare P (throw e) Q E.
Proof. intros H s Hs. by apply H. Qed.

Lemma hoare_if {S A} P (b : bool) (m1 m2 : stm S A) Q E :
  hoare P m1 Q E -> hoare P m2 Q E -> hoare P (if b then m1 else m2) Q E.
Proof. by destruct b. Qed.

Lemma hoare_conseq {S A} P P' (m : stm S A) Q Q' E E' :
  hoare P' m Q' E' -> (forall s, P s -> P' s) -> (forall a s, Q' a s -> Q a s) ->
  (forall e s, E' e s -> E e s) -> hoare P m Q E.
Proof.
  intros Hm HP HQ HE s Hs. specialize (Hm s (HP s Hs)).
  destruct (m s) as [[a|e] s']; auto.
Qed.

(** Strengthening the precondition. *)
Lemma hoare_pre {S A} P P' (m : stm S A) Q E :
  hoare P' m Q E -> (forall s, P s -> P' s) -> hoare P m Q E.
Proof. intros Hm HP s Hs. by apply Hm, HP. Qed.

Lemma hoare_pre_intro_r {S A} (P : S -> Prop) (R : Prop) (m : stm S A) Q E :
  (R -> hoare P m Q E) -> hoare (fun s => P s /\ R) m Q E.
Proof. intros H s [Hs HR]. by apply H. Qed.

Lemma hoare_any {S A} (P : S -> Prop) (m : stm S A) : hoare P m (fun _ _ => True) (fun _ _ => True).
Proof. intros s _. by destruct (m s) as [[]]. Qed.

(** Case analysis on the precondition: a fact true before can be kept. *)
Lemma hoare_pre_intro {S A} (P : S -> Prop) (R : Prop) (m : stm S A) Q E :
  (R -> hoare P m Q E) -> hoare (fun s => R /\ P s) m Q E.
Proof. intros H s [HR Hs]. by apply H. Qed.

(** ** Automation *)

Create HintDb katana discriminated.
Create Rewrite HintDb katana_rw.

#[export] Hint Rewrite @bind_POk @bind_PErr : katana_rw.

(** [invc H]: invert and clean up. *)
Ltac invc H := inversion H; clear H; subst.

(** [simp_res]: rewrite the monad laws and split the binds (of [pyres]
    and of [option]) that are known to succeed. *)
Ltac simp_res :=
  repeat match goal with
    | H : (_ ≫= _) = POk _ |- _ =>
        let a := fresh "a" in let Ha := fresh "Ha" in
        apply bind_eq_POk in H as (a & Ha & H)
    | H : (_ ≫= _) = Some _ |- _ =>
        let a := fresh "a" in let Ha := fresh "Ha" in
        apply bind_Some in H as (a & Ha & H)
    | H : POk _ = POk _ |- _ => injection H as H
    | H : Some _ = Some _ |- _ => injection H as H
    | H : POk _ = PErr _ |- _ => discriminate H
    | H : PErr _ = POk _ |- _ => discriminate H
    end;
  autorewrite with katana_rw in *.

(** [decide_true]: prove a decidable proposition about closed terms by
    evaluating its decision procedure. *)
Ltac decide_true :=
  match goal with |- ?P => apply (bool_decide_unpack P); vm_compute; exact I end.

(** [list_norm]: right-associate appends and push conses outwards. *)
Ltac list_norm :=
  repeat (progress (rewrite <- ?app_assoc, <- ?app_comm_cons)); simpl; try reflexivity.

(** [len_norm]: compute lengths of conses and appends. *)
Ltac len_norm := repeat (progress (cbn [length]; rewrite ?length_app)).

(** ** Generic list lemmas shared by the text components *)

Lemma take_app_exact {A} (l1 l2 : list A) : take (length l1) (l1 ++ l2) = l1.
Proof. rewrite take_app, Nat.sub_diag, take_0, app_nil_r. apply take_ge. lia. Qed.

Lemma drop_app_exact {A} (l1 l2 : list A) : drop (length l1) (l1 ++ l2) = l2.
Proof. rewrite drop_app, Nat.sub_diag, drop_0, drop_ge; [done | lia]. Qed.

#[export] Hint Rewrite @take_app_exact @drop_app_exact : katana_rw.
