(* ===== verification/PyStr.v ===== *)
(** * PyStr: the Python string primitives the program relies on

    [str.isspace], [str.strip()], [str.replace] with a one-character
    needle (the only form [CS2PresetAdapter.apply_preset] uses),
    [int(s)] on a decimal string (the CLI prompts of [katana/main.py])
    and [str(n)] on an integer (the preset value conversion of
    [katana/games/cs2/presets.py]).  Also the scalar values [json.load]
    produces and their [str()]. *)

From S2P Require Import Prelude.

(** ** Whitespace

    [str.isspace] (and the [\s] class of [re] on [str] patterns) on a
    code point below 256: the ASCII controls 9-13, the separators 28-31,
    space, NEL (133) and NBSP (160). *)

Definition py_isspace (c : ascii) : bool :=
  let n := Ascii.nat_of_ascii c in
  ((9 <=? n) && (n <=? 13)) || ((28 <=? n) && (n <=? 32))
  || (n =? 133) || (n =? 160).

Fixpoint py_lstrip (s : pystr) : pystr :=
  match s with
  | [] => []
  | c :: r => if py_isspace c then py_lstrip r else s
  end.

(** [s.strip()]: both ends. *)
Definition py_strip (s : pystr) : pystr := rev (py_lstrip (rev (py_lstrip s))).

(** [s.replace(old, new)] for a one-character [old]: every occurrence is
    replaced, left to right. *)
Fixpoint str_replace1 (old : ascii) (new : pystr) (s : pystr) : pystr :=
  match s with
  | [] => []
  | c :: r => (if decide (c = old) then new else [c]) ++ str_replace1 old new r
  end.

(** [str.lower()] on a code point below 256: the ASCII capitals and the
    Latin-1 capitals 192-222 (except the multiplication sign 215) map
    to the letter 32 places above. *)
Definition lower_char (c : ascii) : ascii :=
  let n := Ascii.nat_of_ascii c in
  if ((65 <=? n) && (n <=? 90)) || ((192 <=? n) && (n <=? 222) && negb (n =? 215))
  then Ascii.ascii_of_nat (n + 32) else c.

Definition py_lower (s : pystr) : pystr := map lower_char s.

(** [str.upper()] on a code point below 256: the ASCII and Latin-1 small
    letters (except the division sign 247) map 32 places below, the
    sharp s to [SS].  The micro sign (181) and y with diaeresis (255)
    have capitals outside Latin-1: [None] marks a string whose result
    leaves the code points the model represents. *)
Definition upper_char (c : ascii) : option pystr :=
  let n := Ascii.nat_of_ascii c in
  if ((97 <=? n) && (n <=? 122)) || ((224 <=? n) && (n <=? 254) && negb (n =? 247))
  then Some [Ascii.ascii_of_nat (n - 32)]
  else if n =? 223 then Some (lit "SS")
  else if (n =? 181) || (n =? 255) then None
  else Some [c].

Fixpoint py_upper (s : pystr) : option pystr :=
  match s with
  | [] => Some []
  | c :: r => u ← upper_char c; t ← py_upper r; Some (u ++ t)
  end.

(** The cased characters below 256 (Unicode property Cased): the
    letters, the ordinal indicators 170 and 186 and the micro sign. *)
Definition is_cased (c : ascii) : bool :=
  let n := Ascii.nat_of_ascii c in
  ((65 <=? n) && (n <=? 90)) || ((97 <=? n) && (n <=? 122)) || (n =? 170) || (n =? 181)
  || (n =? 186) || ((192 <=? n) && (n <=? 255) && negb (n =? 215) && negb (n =? 247)).

(** The title case of a character: its capital, except [Ss] for the
    sharp s. *)
Definition title_char (c : ascii) : option pystr :=
  if Ascii.nat_of_ascii c =? 223 then Some (lit "Ss") else upper_char c.

(** [str.title()]: a character after a cased one is lowered, any other is
    title-cased. *)
Fixpoint title_from (previous_is_cased : bool) (s : pystr) : option pystr :=
  match s with
  | [] => Some []
  | c :: r =>
      u ← (if previous_is_cased then Some [lower_char c] else title_char c);
      t ← title_from (is_cased c) r;
      Some (u ++ t)
  end.

Definition py_title (s : pystr) : option pystr := title_from false s.

(** [needle in hay] on strings. *)
Fixpoint str_contains (needle hay : pystr) : bool :=
  bool_decide (needle `prefix_of` hay) ||
  match hay with [] => false | _ :: r => str_contains needle r end.

(** [s.replace(old, new)] for any [old] (the scan of
    [Objects/unicodeobject.c]): occurrences are found left to right and
    do not overlap; [skip] counts the characters of the occurrence just
    replaced.  An empty [old] puts [new] before every character and at
    the end. *)
Fixpoint replace_scan (old new : pystr) (skip : nat) (s : pystr) : pystr :=
  match s with
  | [] => []
  | c :: r =>
      match skip with
      | S k => replace_scan old new k r
      | O => if bool_decide (old `prefix_of` c :: r) then new ++ replace_scan old new (length old - 1) r
             else c :: replace_scan old new 0 r
      end
  end.

Definition py_replace (old new s : pystr) : pystr :=
  match old with
  | [] => mjoin (map (fun c => new ++ [c]) s) ++ new
  | _ :: _ => replace_scan old new 0 s
  end.

(** [s.count(c)] for a one-character [c]. *)
Definition str_count (x : ascii) (s : pystr) : nat := length (filter (fun c => c = x) s).

(** [posixpath.basename(p)]: what follows the last [/]. *)
Fixpoint until_sep (s : pystr) : pystr :=
  match s with
  | [] => []
  | c :: r => if bool_decide (c = "/"%char) then [] else c :: until_sep r
  end.

Definition basename (p : pystr) : pystr := reverse (until_sep (reverse p)).

(** ** Decimal integers *)

Definition digit_val (c : ascii) : option N :=
  let n := Ascii.N_of_ascii c in
  if (48 <=? n)%N && (n <? 58)%N then Some (n - 48)%N else None.

Definition digit_char (d : N) : ascii := Ascii.ascii_of_N (48 + d).

(** The digit loop of [int(s, 10)]: after at least one digit, digits
    accumulate and a single underscore may separate two digits. *)
Fixpoint int_body (acc : N) (s : pystr) : option N :=
  match s with
  | [] => Some acc
  | c :: r =>
      match digit_val c with
      | Some d => int_body (10 * acc + d)%N r
      | None =>
          if decide (c = "_"%char) then
            match r with
            | c' :: r' =>
                match digit_val c' with
                | Some d => int_body (10 * acc + d)%N r'
                | None => None
                end
            | [] => None
            end
          else None
      end
  end.

Definition int_digits (s : pystr) : option N :=
  match s with
  | c :: r => d ← digit_val c; int_body d r
  | [] => None
  end.

(** [int(s)]: surrounding whitespace is ignored, an optional sign, then
    the digits.  [None] is the [ValueError] of Python. *)
Definition py_int (s : pystr) : option Z :=
  match py_strip s with
  | c :: r =>
      if decide (c = "-"%char) then (fun n => Z.opp (Z.of_N n)) <$> int_digits r
      else if decide (c = "+"%char) then Z.of_N <$> int_digits r
      else Z.of_N <$> int_digits (c :: r)
  | [] => None
  end.

(** [str(n)] for a natural number: most significant digit first.  The
    fuel is the binary length of [n], which bounds its decimal length
    ([n_digits_value] below). *)
Fixpoint n_digits (fuel : nat) (n : N) : pystr :=
  match fuel with
  | O => [digit_char n]
  | S f => if (n <? 10)%N then [digit_char n]
           else n_digits f (n / 10)%N ++ [digit_char (n mod 10)%N]
  end.

Definition str_of_N (n : N) : pystr := n_digits (N.to_nat (N.size n)) n.

(** [str(z)] for a Python [int]. *)
Definition str_of_Z (z : Z) : pystr :=
  match z with
  | Zneg p => "-"%char :: str_of_N (Npos p)
  | _ => str_of_N (Z.to_N z)
  end.

(** ** Scalar JSON values

    The values [json.load] gives for a preset entry that the model
    covers: booleans, integers, strings and [null].  (Floats, arrays and
    objects are not modelled; see the header of [Prelude].) *)

Inductive pyval : Type :=
  | VBool (b : bool)
  | VInt (z : Z)
  | VStr (s : pystr)
  | VNone.

#[export] Instance pyval_eq_dec : EqDecision pyval.
Proof. solve_decision. Defined.

(** Python's [str()] of such a value. *)
Definition py_str (v : pyval) : pystr :=
  match v with
  | VBool true => lit "True"
  | VBool false => lit "False"
  | VInt z => str_of_Z z
  | VStr s => s
  | VNone => lit "None"
  end.

(** ** Lemmas *)

Lemma digit_val_char (d : N) : (d < 10)%N -> digit_val (digit_char d) = Some d.
Proof.
  intros Hd. unfold digit_val, digit_char.
  rewrite Ascii.N_ascii_embedding by lia.
  replace ((48 <=? 48 + d)%N && (48 + d <? 58)%N) with true
    by (symmetry; apply andb_true_iff; split; [apply N.leb_le | apply N.ltb_lt]; lia).
  f_equal. lia.
Qed.

(** A decimal digit is one of ten concrete characters. *)
Lemma digit_cases (d : N) :
  (d < 10)%N -> d = 0%N \/ d = 1%N \/ d = 2%N \/ d = 3%N \/ d = 4%N \/
                d = 5%N \/ d = 6%N \/ d = 7%N \/ d = 8%N \/ d = 9%N.
Proof. lia. Qed.

Lemma digit_char_not_space (d : N) : (d < 10)%N -> py_isspace (digit_char d) = false.
Proof. intros Hd. apply digit_cases in Hd. by destruct_or!; subst. Qed.

Lemma digit_char_not_sign (d : N) :
  (d < 10)%N -> digit_char d <> "-"%char /\ digit_char d <> "+"%char.
Proof. intros Hd. apply digit_cases in Hd. by destruct_or!; subst. Qed.

(** Stripping a string that starts and ends with a non-space is the
    identity; in particular a string without spaces is already stripped. *)
Lemma py_lstrip_id (s : pystr) :
  Forall (fun c => py_isspace c = false) s -> py_lstrip s = s.
Proof. intros H. destruct H as [|c s Hc _]; simpl; [done | by rewrite Hc]. Qed.

Lemma py_strip_id (s : pystr) :
  Forall (fun c => py_isspace c = false) s -> py_strip s = s.
Proof.
  intros H. unfold py_strip. rewrite (py_lstrip_id s) by done.
  rewrite py_lstrip_id by (by apply Forall_rev). apply rev_involutive.
Qed.

(** The digits of [n] (enough fuel) are decimal digits. *)
Lemma n_digits_digits (f : nat) (n : N) :
  (n < 10 ^ N.of_nat f)%N ->
  Forall (fun c => exists d, (d < 10)%N /\ c = digit_char d) (n_digits f n).
Proof.
  revert n. induction f as [|f IH]; intros n Hn; simpl.
  - rewrite N.pow_0_r in Hn. repeat constructor. exists n. split; [lia | done].
  - destruct (N.ltb_spec n 10).
    + repeat constructor. eauto.
    + apply Forall_app. split.
      * apply IH. rewrite Nat2N.inj_succ, N.pow_succ_r' in Hn.
        apply N.Div0.div_lt_upper_bound. lia.
      * repeat constructor. exists (n mod 10)%N. split; [apply N.mod_lt; lia | done].
Qed.

Lemma n_digits_nonempty (f : nat) (n : N) : n_digits f n <> [].
Proof.
  revert n. induction f as [|f IH]; intros n; simpl; [done |].
  destruct (n <? 10)%N; [done |]. intros [_ ?]%app_nil. done.
Qed.

(** Reading the digits of [n] after [acc] gives [acc * 10^len + n]. *)
Lemma int_body_n_digits (f : nat) (n acc : N) (r : pystr) :
  (n < 10 ^ N.of_nat f)%N ->
  int_body acc (n_digits f n ++ r)
  = int_body (acc * 10 ^ N.of_nat (length (n_digits f n)) + n)%N r.
Proof.
  revert n acc r. induction f as [|f IH]; intros n acc r Hn; simpl.
  - rewrite N.pow_0_r in Hn. rewrite digit_val_char by lia. f_equal. lia.
  - destruct (N.ltb_spec n 10).
    + simpl. rewrite digit_val_char by lia. f_equal. lia.
    + rewrite Nat2N.inj_succ, N.pow_succ_r' in Hn.
      rewrite <- app_assoc, IH by (apply N.Div0.div_lt_upper_bound; lia).
      simpl. rewrite digit_val_char by (apply N.mod_lt; lia).
      rewrite length_app, Nat2N.inj_add, N.pow_add_r. simpl.
      f_equal. pose proof (N.div_mod n 10). nia.
Qed.

Lemma str_of_N_adequate (n : N) : (n < 10 ^ N.of_nat (N.to_nat (N.size n)))%N.
Proof.
  rewrite N2Nat.id. eapply N.lt_le_trans; [apply N.size_gt |].
  apply N.pow_le_mono_l. lia.
Qed.

Lemma str_of_N_digits (n : N) :
  Forall (fun c => exists d, (d < 10)%N /\ c = digit_char d) (str_of_N n).
Proof. apply n_digits_digits, str_of_N_adequate. Qed.

Lemma int_digits_str_of_N (n : N) : int_digits (str_of_N n) = Some n.
Proof.
  pose proof (str_of_N_digits n) as Hd.
  pose proof (int_body_n_digits _ n 0 [] (str_of_N_adequate n)) as H.
  fold (str_of_N n) in H. rewrite app_nil_r in H. simpl in H.
  destruct (str_of_N n) as [|c r] eqn:E; [by apply n_digits_nonempty in E |].
  inversion Hd as [|? ? (d & Hlt & ->)]; subst.
  simpl in *. rewrite digit_val_char in * by done. simpl.
  replace d with (10 * 0 + d)%N at 1 by lia. by rewrite H, N.mul_0_l, N.add_0_l.
Qed.

Lemma digits_not_space (s : pystr) :
  Forall (fun c => exists d, (d < 10)%N /\ c = digit_char d) s ->
  Forall (fun c => py_isspace c = false) s.
Proof.
  intros H. eapply Forall_impl; [exact H |]. intros c (d & Hd & ->). by apply digit_char_not_space.
Qed.

Lemma str_replace1_app o new a b :
  str_replace1 o new (a ++ b) = str_replace1 o new a ++ str_replace1 o new b.
Proof. induction a as [|c a IH]; simpl; [done |]. by rewrite IH, app_assoc. Qed.

Lemma str_replace1_absent o new s : o ∉ s -> str_replace1 o new s = s.
Proof.
  induction s as [|c s IH]; intros Hs; simpl; [done |].
  apply not_elem_of_cons in Hs as [Hc Hs]. rewrite decide_False by congruence.
  simpl. by rewrite IH.
Qed.

Lemma str_replace1_hit o new : str_replace1 o new [o] = new.
Proof. simpl. rewrite decide_True by done. apply app_nil_r. Qed.

Lemma str_count_app x a b : str_count x (a ++ b) = (str_count x a + str_count x b)%nat.
Proof. unfold str_count. by rewrite filter_app, length_app. Qed.

Lemma str_count_cons_eq x s : str_count x (x :: s) = S (str_count x s).
Proof. unfold str_count. by rewrite filter_cons_True. Qed.

Lemma str_count_cons_ne x c s : c <> x -> str_count x (c :: s) = str_count x s.
Proof. intros Hc. unfold str_count. by rewrite filter_cons_False. Qed.

Lemma str_count_absent x s : x ∉ s -> str_count x s = 0%nat.
Proof.
  induction s as [|c s IH]; intros Hx; [done |]. apply not_elem_of_cons in Hx as [Hc Hx].
  rewrite str_count_cons_ne by done. by apply IH.
Qed.

(** Removing occurrences of a string without [x] removes no [x]: the
    skipped characters lie in an occurrence of [old]. *)
Lemma replace_scan_count x old k s :
  old <> [] -> x ∉ old -> x ∉ take k s -> str_count x (replace_scan old [] k s) = str_count x s.
Proof.
  intros Hne Hx. revert k. induction s as [|c s IH]; intros [|k] Hk; cbn [replace_scan]; [done | done | |].
  - case_bool_decide as Hp.
    + destruct Hp as [t Ht]. destruct old as [|o old]; [done |]. cbn [app] in Ht.
      injection Ht as -> Hs. apply not_elem_of_cons in Hx as [Hc Hx].
      rewrite str_count_cons_ne by done. replace (length (o :: old) - 1)%nat with (length old) by (cbn; lia). apply IH.
      rewrite Hs, take_app_length. done.
    + destruct (decide (c = x)) as [->|Hc].
      * unfold str_count in IH |- *. rewrite !filter_cons_True by done. cbn. f_equal. by apply (IH 0).
      * rewrite !str_count_cons_ne by done. by apply (IH 0).
  - apply not_elem_of_cons in Hk as [Hc Hk]. rewrite str_count_cons_ne by done. by apply IH.
Qed.

Lemma py_replace_count x old s :
  old <> [] -> x ∉ old -> str_count x (py_replace old [] s) = str_count x s.
Proof. intros Hne Hx. destruct old; [done |]. apply replace_scan_count; [done | done | apply not_elem_of_nil]. Qed.

Lemma until_sep_app l r : "/"%char ∉ l -> until_sep (l ++ "/"%char :: r) = l.
Proof.
  induction l as [|c l IH]; intros Hl; cbn; [by rewrite ?bool_decide_true |].
  apply not_elem_of_cons in Hl as [Hc Hl]. rewrite bool_decide_false by done. by rewrite IH.
Qed.

Lemma until_sep_id l : "/"%char ∉ l -> until_sep l = l.
Proof.
  induction l as [|c l IH]; intros Hl; cbn; [done |].
  apply not_elem_of_cons in Hl as [Hc Hl]. rewrite bool_decide_false by done. by rewrite IH.
Qed.

Lemma basename_child p n : "/"%char ∉ n -> basename (p ++ "/"%char :: n) = n.
Proof.
  intros Hn. unfold basename. rewrite reverse_app, reverse_cons, <- app_assoc. cbn.
  rewrite until_sep_app, reverse_involutive; [done |]. by rewrite elem_of_reverse.
Qed.

Lemma basename_plain n : "/"%char ∉ n -> basename n = n.
Proof. intros Hn. unfold basename. rewrite until_sep_id, reverse_involutive; [done |]. by rewrite elem_of_reverse. Qed.

#[export] Hint Rewrite str_replace1_app str_replace1_hit : katana_rw.

(** ** Properties *)

(** [int(str(z)) == z] for every Python integer [z]: the
    decimal printing of integers is inverted by the parser of [int()]. *)
Theorem py_int_str_of_Z (z : Z) : py_int (str_of_Z z) = Some z.
Proof.
  pose proof (str_of_N_digits (Z.to_N z)) as Hd.
  destruct z as [|p|p]; unfold py_int, str_of_Z.
  - rewrite py_strip_id by (by apply digits_not_space). done.
  - rewrite py_strip_id by (by apply digits_not_space).
    pose proof (str_of_N_digits (Npos p)) as Hp.
    change (Z.to_N (Z.pos p)) with (N.pos p).
    pose proof (int_digits_str_of_N (Npos p)) as Hi.
    destruct (str_of_N (Npos p)) as [|c r] eqn:E; [by apply n_digits_nonempty in E |].
    inversion Hp as [|? ? (d & Hlt & ->)]; subst.
    destruct (digit_char_not_sign d Hlt).
    rewrite !decide_False by done. by rewrite Hi.
  - pose proof (str_of_N_digits (Npos p)) as Hp.
    rewrite py_strip_id by (constructor; [done | by apply digits_not_space]).
    cbn iota beta. rewrite decide_True by done. rewrite int_digits_str_of_N. done.
Qed.
