(* ===== verification/Json.v ===== *)
(** * Json: the JSON text [BenchmarkResult.to_json] produces

    [json.dumps(obj, indent=2)] of Python's [json] module with its
    defaults ([ensure_ascii=True], separators [','] and [': ']) on the
    values the program builds: [None], booleans, numbers (their text, as
    [int.__repr__] or [float.__repr__] gives it), strings and
    dictionaries with string keys, in insertion order.  Beside it, a
    decoder for the JSON grammar of RFC 8259 ([json_loads]), the
    reference against which the printer is proved: decoding what
    [json_dumps] prints gives the value back. *)

From S2P Require Import Prelude PyStr.

Module Json.

Local Set Warnings "-register-all".

Inductive jvalue : Type :=
  | JNull
  | JBool (b : bool)
  | JNum (text : pystr)
  | JStr (s : pystr)
  | JObj (members : list (pystr * jvalue)).

Definition ch (n : nat) : ascii := Ascii.ascii_of_nat n.

(** ** The encoder *)

(** [HEXDIGITS] in lower case, as ['\\u{0:04x}'] prints them. *)
Definition hex_digit (k : nat) : ascii := if k <? 10 then ch (48 + k) else ch (87 + k).

(** The two-character escapes of [ESCAPE_DCT]. *)
Definition escape_letter (c : ascii) : option ascii :=
  if decide (c = ch 34) then Some (ch 34)
  else if decide (c = ch 92) then Some (ch 92)
  else if decide (c = ch 10) then Some "n"%char
  else if decide (c = ch 13) then Some "r"%char
  else if decide (c = ch 9) then Some "t"%char
  else if decide (c = ch 8) then Some "b"%char
  else if decide (c = ch 12) then Some "f"%char
  else None.

(** [py_encode_basestring_ascii], one character: the escapes above,
    the printable ASCII range [' '..'~'] as is, anything else as
    [\u00XX]. *)
Definition encode_char (c : ascii) : pystr :=
  match escape_letter c with
  | Some e => [ch 92; e]
  | None =>
      let n := nat_of_ascii c in
      if (32 <=? n) && (n <=? 126) then [c]
      else [ch 92; "u"%char; "0"%char; "0"%char; hex_digit (n / 16); hex_digit (n mod 16)]
  end.

Definition encode_str (s : pystr) : pystr := ch 34 :: flat_map encode_char s ++ [ch 34].

(** ['\n' + ' ' * (indent * level)] with [indent=2]. *)
Definition newline_indent (lvl : nat) : pystr := ch 10 :: repeat " "%char (2 * lvl).

(** [_make_iterencode] with [indent=2] at nesting level [lvl]: a
    non-empty dictionary opens a new line one level deeper for each
    member, separates members with [','], and closes on a line of its
    own level; an empty one is [{}]. *)
Fixpoint dumps_at (lvl : nat) (v : jvalue) : pystr :=
  match v with
  | JNull => lit "null"
  | JBool b => if b then lit "true" else lit "false"
  | JNum t => t
  | JStr s => encode_str s
  | JObj [] => lit "{}"
  | JObj ((k, x) :: ms) =>
      "{"%char :: newline_indent (S lvl) ++ encode_str k ++ lit ": " ++ dumps_at (S lvl) x ++
      flat_map (fun '(k', x') =>
                  ","%char :: newline_indent (S lvl) ++ encode_str k' ++ lit ": " ++ dumps_at (S lvl) x') ms ++
      newline_indent lvl ++ ["}"%char]
  end.

(** [json.dumps(v, indent=2)] *)
Definition json_dumps (v : jvalue) : pystr := dumps_at 0 v.

(** A scalar configuration or [raw_data] value as [json.dumps] sees it. *)
Definition json_of_pyval (v : pyval) : jvalue :=
  match v with
  | VBool b => JBool b
  | VInt z => JNum (str_of_Z z)
  | VStr s => JStr s
  | VNone => JNull
  end.

(** [float.__repr__] of a time difference.  The clock of the model
    counts milliseconds, so a duration is [d / 1000] seconds; its
    shortest representation has the digits down to the last non-zero
    millisecond, and at least one after the point ([60.0], [1.5],
    [93.412]). *)
Definition frac_digits (m : Z) : pystr :=
  let a := digit_char (Z.to_N (m / 100)) in
  let b := ((m / 10) mod 10)%Z in
  let c := (m mod 10)%Z in
  if decide (c <> 0%Z) then [a; digit_char (Z.to_N b); digit_char (Z.to_N c)]
  else if decide (b <> 0%Z) then [a; digit_char (Z.to_N b)]
  else [a].

Definition float_repr_ms (d : Z) : pystr :=
  (if decide (d < 0)%Z then ["-"%char] else []) ++
  str_of_N (Z.to_N (Z.abs d / 1000)) ++ "."%char :: frac_digits (Z.abs d mod 1000)%Z.

(** ** The decoder (RFC 8259) *)

Definition is_ws (c : ascii) : bool := bool_decide (c ∈ [ch 32; ch 9; ch 10; ch 13]).

Fixpoint skip_ws (s : pystr) : pystr :=
  match s with
  | c :: r => if is_ws c then skip_ws r else s
  | [] => []
  end.

Definition hex_val (c : ascii) : option nat :=
  let n := nat_of_ascii c in
  if (48 <=? n) && (n <=? 57) then Some (n - 48)
  else if (97 <=? n) && (n <=? 102) then Some (n - 87)
  else if (65 <=? n) && (n <=? 70) then Some (n - 55)
  else None.

Definition unescape_letter (e : ascii) : option ascii :=
  if decide (e = ch 34) then Some (ch 34)
  else if decide (e = ch 92) then Some (ch 92)
  else if decide (e = "/"%char) then Some "/"%char
  else if decide (e = "b"%char) then Some (ch 8)
  else if decide (e = "f"%char) then Some (ch 12)
  else if decide (e = "n"%char) then Some (ch 10)
  else if decide (e = "r"%char) then Some (ch 13)
  else if decide (e = "t"%char) then Some (ch 9)
  else None.

(** The characters of a string after its opening quote, and what
    follows its closing quote.  A [\u] escape above [ÿ] has no
    character in the model ([None]). *)
Fixpoint parse_string (s : pystr) : option (pystr * pystr) :=
  match s with
  | [] => None
  | c :: r =>
      if decide (c = ch 34) then Some ([], r)
      else if decide (c = ch 92) then
        match r with
        | [] => None
        | e :: r' =>
            match unescape_letter e with
            | Some c' => prod_map (cons c') id <$> parse_string r'
            | None =>
                match r' with
                | h1 :: h2 :: h3 :: h4 :: r'' =>
                    if decide (e = "u"%char) then
                      match hex_val h1, hex_val h2, hex_val h3, hex_val h4 with
                      | Some a, Some b, Some c1, Some d =>
                          let n := 4096 * a + 256 * b + 16 * c1 + d in
                          if n <? 256 then prod_map (cons (ch n)) id <$> parse_string r'' else None
                      | _, _, _, _ => None
                      end
                    else None
                | _ => None
                end
            end
        end
      else if nat_of_ascii c <? 32 then None
      else prod_map (cons c) id <$> parse_string r
  end.

Definition is_digit (c : ascii) : bool := let n := nat_of_ascii c in (48 <=? n) && (n <=? 57).

Fixpoint drop_digits (s : pystr) : pystr :=
  match s with
  | c :: r => if is_digit c then drop_digits r else s
  | [] => []
  end.

(** [int = zero / ( digit1-9 *DIGIT )] *)
Definition int_part (s : pystr) : option pystr :=
  match s with
  | c :: r => if decide (c = "0"%char) then Some r else if is_digit c then Some (drop_digits r) else None
  | [] => None
  end.

(** [frac = decimal-point 1*DIGIT], optional *)
Definition frac_part (s : pystr) : option pystr :=
  match s with
  | c :: r =>
      if decide (c = "."%char) then
        match r with d :: r' => if is_digit d then Some (drop_digits r') else None | [] => None end
      else Some s
  | [] => Some []
  end.

(** [exp = e [ minus / plus ] 1*DIGIT], optional *)
Definition exp_part (s : pystr) : option pystr :=
  match s with
  | c :: r =>
      if decide (c = "e"%char \/ c = "E"%char) then
        let r1 := match r with
                  | x :: r' => if decide (x = "+"%char \/ x = "-"%char) then r' else r
                  | [] => []
                  end in
        match r1 with d :: r' => if is_digit d then Some (drop_digits r') else None | [] => None end
      else Some s
  | [] => Some []
  end.

(** [int [ frac ] [ exp ]], the whole text. *)
Definition number_ok_body (t : pystr) : bool :=
  match (int_part t ≫= frac_part) ≫= exp_part with Some [] => true | _ => false end.

(** [number = [ minus ] int [ frac ] [ exp ]] *)
Definition number_ok (t : pystr) : bool :=
  match t with
  | c :: r => if decide (c = "-"%char) then number_ok_body r else number_ok_body t
  | [] => false
  end.

Definition is_num_char (c : ascii) : bool :=
  is_digit c || bool_decide (c ∈ ["-"%char; "+"%char; "."%char; "e"%char; "E"%char]).

Fixpoint take_num (s : pystr) : pystr * pystr :=
  match s with
  | c :: r => if is_num_char c then prod_map (cons c) id (take_num r) else ([], s)
  | [] => ([], [])
  end.

(** A value and what follows it; [parse_members] reads the members of
    an object after its [{], [acc] holding those read.  Each value and
    each member takes one unit of fuel. *)
Fixpoint parse_value (fuel : nat) (s : pystr) : option (jvalue * pystr) :=
  match fuel with
  | O => None
  | S f =>
      match skip_ws s with
      | [] => None
      | c :: r =>
          if decide (c = ch 34) then prod_map JStr id <$> parse_string r
          else if decide (c = "{"%char) then
            match skip_ws r with
            | [] => None
            | c' :: r' => if decide (c' = "}"%char) then Some (JObj [], r') else parse_members f [] (c' :: r')
            end
          else if bool_decide (lit "null" `prefix_of` c :: r) then Some (JNull, drop 4 (c :: r))
          else if bool_decide (lit "true" `prefix_of` c :: r) then Some (JBool true, drop 4 (c :: r))
          else if bool_decide (lit "false" `prefix_of` c :: r) then Some (JBool false, drop 5 (c :: r))
          else let '(t, r') := take_num (c :: r) in if number_ok t then Some (JNum t, r') else None
      end
  end
with parse_members (fuel : nat) (acc : list (pystr * jvalue)) (s : pystr) : option (jvalue * pystr) :=
  match fuel with
  | O => None
  | S f =>
      match skip_ws s with
      | c :: r =>
          if decide (c = ch 34) then
            match parse_string r with
            | Some (k, r1) =>
                match skip_ws r1 with
                | c1 :: r2 =>
                    if decide (c1 = ":"%char) then
                      match parse_value f r2 with
                      | Some (v, r3) =>
                          match skip_ws r3 with
                          | c3 :: r4 =>
                              if decide (c3 = ","%char) then parse_members f (acc ++ [(k, v)]) r4
                              else if decide (c3 = "}"%char) then Some (JObj (acc ++ [(k, v)]), r4)
                              else None
                          | [] => None
                          end
                      | None => None
                      end
                    else None
                | [] => None
                end
            | None => None
            end
          else None
      | [] => None
      end
  end.

(** [json.loads(s)]: one value, then only whitespace. *)
Definition json_loads (s : pystr) : option jvalue :=
  match parse_value (S (length s)) s with
  | Some (v, r) => if bool_decide (skip_ws r = []) then Some v else None
  | None => None
  end.

(** Well-formed values: every number's text is a JSON number. *)
Fixpoint wf_json (v : jvalue) : bool :=
  match v with
  | JNum t => forallb is_num_char t && number_ok t
  | JObj ms => forallb (fun '(_, x) => wf_json x) ms
  | _ => true
  end.

(** The fuel [parse_value] needs for a value. *)
Fixpoint jsize (v : jvalue) : nat :=
  match v with
  | JObj ms => S (list_sum (map (fun '(_, x) => S (jsize x)) ms))
  | _ => 1
  end.

Fixpoint jvalue_ind' (P : jvalue -> Prop) (Hnull : P JNull) (Hbool : forall b, P (JBool b))
    (Hnum : forall t, P (JNum t)) (Hstr : forall s, P (JStr s))
    (Hobj : forall ms, Forall (fun m => P m.2) ms -> P (JObj ms)) (v : jvalue) : P v :=
  match v with
  | JNull => Hnull
  | JBool b => Hbool b
  | JNum t => Hnum t
  | JStr s => Hstr s
  | JObj ms =>
      Hobj ms ((fix go (l : list (pystr * jvalue)) : Forall (fun m => P m.2) l :=
                  match l with
                  | [] => @List.Forall_nil _ _
                  | (k, x) :: r => @List.Forall_cons _ (fun m => P m.2) (k, x) r
                                     (jvalue_ind' P Hnull Hbool Hnum Hstr Hobj x) (go r)
                  end) ms)
  end.

(** ** Lemmas: strings *)

(** Each of the 256 characters: its encoding decodes to it. *)
Lemma parse_encode_char c rest :
  parse_string (encode_char c ++ rest) = prod_map (cons c) id <$> parse_string rest.
Proof. revert rest. destruct c as [[] [] [] [] [] [] [] []]; reflexivity. Qed.

Lemma parse_encode_body s rest : parse_string (flat_map encode_char s ++ ch 34 :: rest) = Some (s, rest).
Proof.
  induction s as [|c s IH]; [done |]. cbn [flat_map]. rewrite <- app_assoc, parse_encode_char, IH. done.
Qed.

Lemma parse_encode_str s rest : parse_string (tail (encode_str s) ++ rest) = Some (s, rest).
Proof. cbn. rewrite <- app_assoc. apply parse_encode_body. Qed.

(** ** Lemmas: whitespace and numbers *)

Lemma skip_ws_idem s : skip_ws (skip_ws s) = skip_ws s.
Proof. induction s as [|c s IH]; cbn; [done |]. destruct (is_ws c) eqn:E; [done | by cbn; rewrite E]. Qed.

Lemma skip_ws_indent l s : skip_ws (newline_indent l ++ s) = skip_ws s.
Proof.
  unfold newline_indent. generalize (2 * l) as n. intros n.
  transitivity (skip_ws (repeat " "%char n ++ s)); [reflexivity |].
  induction n as [|n IH]; [reflexivity | exact IH].
Qed.

Lemma skip_ws_stop c s : is_ws c = false -> skip_ws (c :: s) = c :: s.
Proof. intros E. cbn. by rewrite E. Qed.

Lemma parse_value_skip f s : parse_value f (skip_ws s) = parse_value f s.
Proof. destruct f; cbn; [done |]. by rewrite skip_ws_idem. Qed.

Lemma parse_members_skip f acc s : parse_members f acc (skip_ws s) = parse_members f acc s.
Proof. destruct f; cbn; [done |]. by rewrite skip_ws_idem. Qed.

(** What may follow a number: nothing, or a character that cannot
    continue it. *)
Definition stops (rest : pystr) : Prop :=
  match rest with [] => True | c :: _ => is_num_char c = false end.

Lemma take_num_app t rest :
  forallb is_num_char t = true -> stops rest -> take_num (t ++ rest) = (t, rest).
Proof.
  intros Ht Hr. induction t as [|c t IH]; cbn in *.
  - destruct rest as [|c rest]; cbn in *; [done |]. by rewrite Hr.
  - apply andb_true_iff in Ht as [-> Ht]. by rewrite IH.
Qed.

(** What may follow the digits of an integer part. *)
Definition digits_end (rest : pystr) : Prop :=
  match rest with [] => True | c :: _ => is_digit c = false end.

Lemma stops_digits_end rest : stops rest -> digits_end rest.
Proof. destruct rest as [|c rest]; [done |]. cbn. unfold is_num_char. by intros [-> _]%orb_false_iff. Qed.

Lemma drop_digits_app ds rest :
  forallb is_digit ds = true -> digits_end rest -> drop_digits (ds ++ rest) = rest.
Proof.
  intros Hd Hr. induction ds as [|c ds IH]; cbn in *.
  - destruct rest as [|c rest]; cbn in *; [done |]. by rewrite Hr.
  - apply andb_true_iff in Hd as [-> Hd]. by apply IH.
Qed.

Lemma digit_char_is_digit d : (d < 10)%N -> is_digit (digit_char d) = true.
Proof.
  intros Hd. rewrite <- (N2Nat.id d). assert (Hk : (N.to_nat d < 10)%nat) by lia.
  revert Hk. generalize (N.to_nat d) as k. intros k Hk.
  do 10 (destruct k as [|k]; [reflexivity |]). lia.
Qed.

Lemma digit_char_num d : (d < 10)%N -> is_num_char (digit_char d) = true.
Proof. intros Hd. unfold is_num_char. by rewrite digit_char_is_digit. Qed.

Lemma is_digit_num c : is_digit c = true -> is_num_char c = true.
Proof. unfold is_num_char. by intros ->. Qed.

Lemma n_digits_head f n :
  (n < 10 ^ N.of_nat f)%N -> n <> 0%N ->
  exists d r, n_digits f n = digit_char d :: r /\ d <> 0%N /\ (d < 10)%N.
Proof.
  revert n. induction f as [|f IH]; intros n Hn Hnz; cbn.
  - rewrite N.pow_0_r in Hn. lia.
  - destruct (N.ltb_spec n 10); [by exists n, [] |].
    destruct (IH (n / 10)%N) as (d & r & -> & ?); [| | by exists d, (r ++ [digit_char (n mod 10)])].
    + rewrite Nat2N.inj_succ, N.pow_succ_r' in Hn. apply N.Div0.div_lt_upper_bound. lia.
    + intros Hz. apply N.div_small_iff in Hz; lia.
Qed.

Lemma str_of_N_digits_b n : forallb is_digit (str_of_N n) = true.
Proof.
  apply forallb_forall. intros c Hc%list_elem_of_In.
  pose proof (str_of_N_digits n) as Hd. rewrite Forall_forall in Hd.
  destruct (Hd c Hc) as (d & ? & ->). by apply digit_char_is_digit.
Qed.

(** The integer part of a number: [str(n)] has no leading zero. *)
Lemma int_part_str_of_N n rest : digits_end rest -> int_part (str_of_N n ++ rest) = Some rest.
Proof.
  intros Hr. destruct (decide (n = 0%N)) as [->|Hn]; [reflexivity |].
  pose proof (str_of_N_digits_b n) as Hb.
  destruct (n_digits_head _ n (str_of_N_adequate n) Hn) as (d & r & Hs & Hd0 & Hd).
  unfold str_of_N in *. rewrite Hs in Hb |- *. cbn [forallb] in Hb. apply andb_true_iff in Hb as [Hc Hb].
  rewrite <- app_comm_cons. unfold int_part.
  rewrite decide_False; [rewrite Hc, drop_digits_app; done |].
  intros Heq. apply Hd0. apply (f_equal digit_val) in Heq. rewrite digit_val_char in Heq by done.
  by injection Heq.
Qed.

Lemma str_of_N_head n : exists c r, str_of_N n = c :: r /\ is_digit c = true.
Proof.
  pose proof (str_of_N_digits_b n) as Hb. destruct (str_of_N n) as [|c r] eqn:E.
  - by apply n_digits_nonempty in E.
  - apply andb_true_iff in Hb as [? _]. by exists c, r.
Qed.

Lemma num_chars_str_of_N n : forallb is_num_char (str_of_N n) = true.
Proof.
  apply forallb_forall. intros c Hc. apply is_digit_num.
  pose proof (str_of_N_digits_b n) as Hb. rewrite forallb_forall in Hb. by apply Hb.
Qed.

Lemma int_part_str_of_N_end n : int_part (str_of_N n) = Some [].
Proof. pose proof (int_part_str_of_N n [] I) as Hi. by rewrite app_nil_r in Hi. Qed.

Lemma number_ok_str_of_N n : number_ok (str_of_N n) = true.
Proof.
  destruct (str_of_N_head n) as (c & r & E & Hc). unfold number_ok.
  rewrite E, decide_False by (by intros ->). rewrite <- E. unfold number_ok_body.
  by rewrite int_part_str_of_N_end.
Qed.

Lemma wf_str_of_Z z : forallb is_num_char (str_of_Z z) && number_ok (str_of_Z z) = true.
Proof.
  unfold str_of_Z. destruct z as [|p|p]; [| |].
  1, 2: by rewrite num_chars_str_of_N, number_ok_str_of_N.
  cbn [forallb]. rewrite num_chars_str_of_N. unfold number_ok. rewrite decide_True by done.
  unfold number_ok_body. by rewrite int_part_str_of_N_end.
Qed.

Lemma digit_of_Z x : (0 <= x < 10)%Z -> is_digit (digit_char (Z.to_N x)) = true.
Proof. intros Hx. apply digit_char_is_digit. lia. Qed.

Lemma frac_digits_ok m :
  (0 <= m < 1000)%Z -> exists a r, frac_digits m = a :: r /\ forallb is_digit (a :: r) = true.
Proof.
  intros Hm. unfold frac_digits.
  assert (Ha : is_digit (digit_char (Z.to_N (m / 100))) = true) by (apply digit_of_Z; split; [apply Z.div_pos | apply Z.div_lt_upper_bound]; lia).
  assert (Hb : is_digit (digit_char (Z.to_N ((m / 10) mod 10))) = true) by (apply digit_of_Z; apply Z.mod_pos_bound; lia).
  assert (Hc : is_digit (digit_char (Z.to_N (m mod 10))) = true) by (apply digit_of_Z; apply Z.mod_pos_bound; lia).
  repeat case_decide; eexists _, _; (split; [reflexivity |]); cbn; by rewrite ?Ha, ?Hb, ?Hc.
Qed.

Lemma digits_num_chars ds : forallb is_digit ds = true -> forallb is_num_char ds = true.
Proof.
  intros Hd. apply forallb_forall. intros c Hc. apply is_digit_num.
  rewrite forallb_forall in Hd. by apply Hd.
Qed.

Lemma wf_float_repr_ms d : forallb is_num_char (float_repr_ms d) && number_ok (float_repr_ms d) = true.
Proof.
  unfold float_repr_ms.
  destruct (frac_digits_ok (Z.abs d mod 1000)) as (a & r & Hf & Hd); [apply Z.mod_pos_bound; lia |].
  rewrite Hf. remember (str_of_N (Z.to_N (Z.abs d / 1000))) as q eqn:Eq.
  pose proof (digits_num_chars _ Hd) as Hdn.
  cbn [forallb] in Hd. apply andb_true_iff in Hd as [Ha Hr].
  assert (Hnum : forallb is_num_char (q ++ "."%char :: a :: r) = true).
  { rewrite forallb_app, Eq, num_chars_str_of_N. exact Hdn. }
  assert (Hint : number_ok_body (q ++ "."%char :: a :: r) = true).
  { unfold number_ok_body. rewrite Eq, int_part_str_of_N by done. cbn [mbind option_bind frac_part].
    rewrite decide_True, Ha by done. rewrite <- (app_nil_r r) at 1. by rewrite drop_digits_app. }
  destruct (decide (d < 0)%Z); cbn [app].
  - cbn [forallb]. rewrite Hnum. unfold number_ok. rewrite decide_True by done. exact Hint.
  - rewrite Hnum. destruct (str_of_N_head (Z.to_N (Z.abs d / 1000))) as (c & r' & E & Hc).
    unfold number_ok. rewrite <- Eq in E. rewrite E, <- app_comm_cons, decide_False by (by intros ->).
    rewrite app_comm_cons, <- E. exact Hint.
Qed.

(** ** Lemmas: values *)

(** Decoding what [dumps_at] prints, followed by anything that cannot
    continue a number, gives the value and the rest. *)
Definition parses (v : jvalue) : Prop :=
  forall l f rest, wf_json v = true -> jsize v <= f -> stops rest ->
    parse_value f (dumps_at l v ++ rest) = Some (v, rest).

Lemma parse_value_space f s : parse_value f (" "%char :: s) = parse_value f s.
Proof. by rewrite <- parse_value_skip, <- (parse_value_skip f s). Qed.

Lemma parse_members_indent f acc l s : parse_members f acc (newline_indent l ++ s) = parse_members f acc s.
Proof. by rewrite <- parse_members_skip, skip_ws_indent, parse_members_skip. Qed.

Lemma encode_str_app k s : encode_str k ++ s = ch 34 :: flat_map encode_char k ++ ch 34 :: s.
Proof. unfold encode_str. cbn. by rewrite <- app_assoc. Qed.

Lemma lit_colon s : lit ": " ++ s = ":"%char :: " "%char :: s.
Proof. reflexivity. Qed.

Lemma parse_members_dump l ms : forall acc k x f rest,
  Forall (fun m => parses m.2) ((k, x) :: ms) ->
  forallb (fun '(_, y) => wf_json y) ((k, x) :: ms) = true ->
  list_sum (map (fun '(_, y) => S (jsize y)) ((k, x) :: ms)) <= f ->
  parse_members f acc (encode_str k ++ lit ": " ++ dumps_at (S l) x ++
    flat_map (fun '(k', x') => ","%char :: newline_indent (S l) ++ encode_str k' ++ lit ": " ++ dumps_at (S l) x') ms ++
    newline_indent l ++ "}"%char :: rest) = Some (JObj (acc ++ (k, x) :: ms), rest).
Proof.
  induction ms as [|[k' x'] ms IH]; intros acc k x f rest Hp Hwf Hf;
    (destruct f as [|f]; [cbn in Hf; lia |]);
    apply Forall_cons in Hp as [Hx Hp]; cbn [snd] in Hx; unfold parses in Hx; cbn [forallb] in Hwf;
    apply andb_true_iff in Hwf as [Hwx Hwf]; cbn in Hf;
    rewrite encode_str_app; cbn [parse_members];
    (rewrite skip_ws_stop by reflexivity); (rewrite decide_True by done); rewrite parse_encode_body, lit_colon;
    (rewrite skip_ws_stop by reflexivity); (rewrite decide_True by done); rewrite parse_value_space.
  - cbn [flat_map app]. rewrite Hx by (first [done | reflexivity | lia]). cbv beta iota.
    rewrite skip_ws_indent, skip_ws_stop by reflexivity. rewrite decide_False, decide_True by done. done.
  - cbn [flat_map app]. rewrite <- !app_assoc. rewrite Hx by (first [done | reflexivity | lia]). cbv beta iota.
    rewrite skip_ws_stop by reflexivity. rewrite decide_True by done.
    rewrite parse_members_indent.
    replace (acc ++ (k, x) :: (k', x') :: ms) with ((acc ++ [(k, x)]) ++ (k', x') :: ms) by (by rewrite <- app_assoc).
    apply IH; [done | exact Hwf | cbn; lia].
Qed.

Lemma prefix_head (a : ascii) (l : pystr) c s : (a :: l) `prefix_of` c :: s -> a = c.
Proof. by intros ?%prefix_cons_inv_1. Qed.

Lemma dumps_parses v : parses v.
Proof.
  induction v as [| b | t | s | ms IH] using jvalue_ind'; intros l f rest Hwf Hf Hr;
    (destruct f as [|f]; [cbn in Hf; lia |]).
  - reflexivity.
  - destruct b; reflexivity.
  - cbn [wf_json] in Hwf. apply andb_true_iff in Hwf as [Hc Hn]. cbn [dumps_at].
    destruct t as [|c t]; [done |]. cbn [forallb] in Hc. apply andb_true_iff in Hc as [Hc Hc'].
    cbn [parse_value app]. rewrite skip_ws_stop by (by destruct c as [[] [] [] [] [] [] [] []]).
    rewrite decide_False by (by intros ->). rewrite decide_False by (by intros ->).
    repeat (case_bool_decide as Hb; [cbn [lit String.list_ascii_of_string] in Hb; apply prefix_head in Hb; subst c; vm_compute in Hc; discriminate | clear Hb]).
    rewrite app_comm_cons, take_num_app by (first [done | cbn [forallb]; by rewrite Hc, Hc']). cbv beta iota. by rewrite Hn.
  - cbn [dumps_at]. rewrite encode_str_app. cbn [parse_value]. rewrite skip_ws_stop by reflexivity.
    rewrite decide_True by done. by rewrite parse_encode_body.
  - destruct ms as [|[k x] ms]; [reflexivity |].
    cbn [dumps_at app]. rewrite <- ?app_assoc. cbn [parse_value]. rewrite skip_ws_stop by reflexivity.
    rewrite decide_False, decide_True by done. rewrite skip_ws_indent, encode_str_app, skip_ws_stop by reflexivity.
    rewrite decide_False by done. rewrite <- encode_str_app.
    apply (parse_members_dump l ms [] k x f rest IH Hwf). cbn in Hf |- *. lia.
Qed.

Lemma list_sum_cons x l : list_sum (x :: l) = (x + list_sum l)%nat.
Proof. reflexivity. Qed.

(** The fuel [json_loads] gives, one more than the length of the text,
    is enough. *)
Lemma jsize_le v : forall l, wf_json v = true -> jsize v <= length (dumps_at l v).
Proof.
  induction v as [| b | t | s | ms IH] using jvalue_ind'; intros l Hwf; cbn [jsize].
  - cbn. lia.
  - destruct b; cbn; lia.
  - destruct t; [done | cbn; lia].
  - cbn. lia.
  - destruct ms as [|[k x] ms]; [cbn; lia |].
    apply Forall_cons in IH as [IHx IH]. cbn [forallb] in Hwf. apply andb_true_iff in Hwf as [Hwx Hwf].
    cbn [snd] in IHx. specialize (IHx (S l) Hwx).
    assert (Hms : list_sum (map (fun '(_, y) => S (jsize y)) ms) <=
      length (flat_map (fun '(k', x') => ","%char :: newline_indent (S l) ++ encode_str k' ++ lit ": " ++
                          dumps_at (S l) x') ms)).
    { clear IHx Hwx. induction ms as [|[k' y] ms IHms]; [cbn; lia |].
      apply Forall_cons in IH as [IHy IH]. cbn [forallb] in Hwf. apply andb_true_iff in Hwf as [Hwy Hwf].
      cbn [snd] in IHy. specialize (IHy (S l) Hwy). specialize (IHms IH Hwf).
      cbn [flat_map map]. rewrite list_sum_cons. cbv beta iota. rewrite length_app. cbn [length]. rewrite !length_app. lia. }
    cbn [dumps_at map length]. rewrite list_sum_cons. cbv beta iota. rewrite !length_app. cbn [length]. lia.
Qed.

(** ** Properties *)

(** Decoding the text [json.dumps(v, indent=2)] gives [v] back, for
    every value whose numbers are JSON numbers. *)
Theorem json_loads_dumps v : wf_json v = true -> json_loads (json_dumps v) = Some v.
Proof.
  intros Hwf. unfold json_loads, json_dumps.
  pose proof (dumps_parses v 0 (S (length (dumps_at 0 v))) [] Hwf) as Hp. rewrite app_nil_r in Hp.
  rewrite Hp; [by rewrite bool_decide_true | pose proof (jsize_le v 0 Hwf); lia | done].
Qed.

End Json.
