(* ===== verification/Startup.v ===== *)
(** * Startup: what importing the program's modules does

    The module-level statements of the package: [logging.basicConfig] in
    [main.py] (lines 19-32) and in [core/benchmark.py] (lines 14-23),
    [colorama.init(autoreset=True)] in [main.py], the [pyautogui]
    settings of [core/interaction.py] (lines 16-18), and the imports
    between the package's modules.  An import runs a module's body once:
    the module is entered in [sys.modules] before its body runs, and a
    module found there is not run again.  [logging.basicConfig] does
    nothing when the root logger already has handlers.  Modules of the
    standard library and of third parties have no effect here; a module
    of the package that does not exist raises [ImportError]. *)

From S2P Require Import Prelude PyStr.

Module Startup.

Inductive log_stream : Type := StdErr | StdOut.

(** The handlers and format [logging.basicConfig] installs. *)
Record log_setup : Type := {
  log_level : Z;                   (** [logging.INFO] is 20 *)
  log_format : pystr;
  console : log_stream;            (** [StreamHandler()]: [sys.stderr] unless a stream is given *)
  log_file : pystr;                (** [FileHandler(filename)] *)
  file_encoding : option pystr     (** [None]: the locale's encoding *)
}.

(** The interpreter state the bodies change. *)
Record interp : Type := {
  sys_modules : list pystr;        (** [sys.modules], most recent first *)
  root_handlers : option log_setup;
  colorama_autoreset : bool;
  pyautogui_failsafe : bool;       (** [pyautogui.FAILSAFE], [True] by default *)
  pyautogui_pause : Z;             (** [pyautogui.PAUSE] in ms, 100 by default *)
  opened_logs : list pystr         (** files a [FileHandler] opened, most recent first *)
}.

Definition fresh_interp : interp :=
  {| sys_modules := []; root_handlers := None; colorama_autoreset := false;
     pyautogui_failsafe := true; pyautogui_pause := 100; opened_logs := [] |}.

Inductive stmt : Type :=
  | Import (m : pystr)
  | BasicConfig (c : log_setup)
  | ColoramaInit (autoreset : bool)
  | SetFailsafe (b : bool)
  | SetPause (ms : Z).

Definition log_format_line : pystr := lit "%(asctime)s - %(levelname)s - %(message)s".

(** [main.py], lines 23-30. *)
Definition main_logging : log_setup :=
  {| log_level := 20; log_format := log_format_line; console := StdOut;
     log_file := lit "katana_benchmark.log"; file_encoding := Some (lit "utf-8") |}.

(** [core/benchmark.py], lines 15-22. *)
Definition benchmark_logging : log_setup :=
  {| log_level := 20; log_format := log_format_line; console := StdErr;
     log_file := lit "katana_benchmark.log"; file_encoding := None |}.

(** The module-level statements of each module of the package, in
    order; [None] for a module that does not exist.  [core/detection.py]
    is imported but not in the repository: its body is taken as empty. *)
Definition module_body (m : pystr) : option (list stmt) :=
  if bool_decide (m = lit "katana.main") then
    Some [Import (lit "katana.factory"); Import (lit "katana.core.presets");
          Import (lit "katana.games.cs2.presets"); ColoramaInit true; BasicConfig main_logging]
  else if bool_decide (m = lit "katana.factory") then Some []
  else if bool_decide (m = lit "katana.core.presets") then Some []
  else if bool_decide (m = lit "katana.games.cs2.presets") then Some [Import (lit "katana.core.presets")]
  else if bool_decide (m = lit "katana.core.benchmark") then Some [BasicConfig benchmark_logging]
  else if bool_decide (m = lit "katana.core.detection") then Some []
  else if bool_decide (m = lit "katana.core.interaction") then
    Some [Import (lit "katana.core.detection"); SetFailsafe true; SetPause 100]
  else if bool_decide (m = lit "katana.games.cs2.config") then Some []
  else if bool_decide (m = lit "katana.games.cs2.benchmark") then
    Some [Import (lit "katana.core.benchmark"); Import (lit "katana.core.detection");
          Import (lit "katana.core.interaction"); Import (lit "katana.games.cs2.config")]
  else None.

(** [logging.basicConfig(handlers=[..., FileHandler(f)])]: the
    handlers are built first, so the log file is opened whatever
    happens; they are installed only when the root logger has none. *)
Definition basic_config (c : log_setup) (st : interp) : interp :=
  let opened := log_file c :: opened_logs st in
  match root_handlers st with
  | Some _ =>
      {| sys_modules := sys_modules st; root_handlers := root_handlers st; colorama_autoreset := colorama_autoreset st;
         pyautogui_failsafe := pyautogui_failsafe st; pyautogui_pause := pyautogui_pause st; opened_logs := opened |}
  | None =>
      {| sys_modules := sys_modules st; root_handlers := Some c; colorama_autoreset := colorama_autoreset st;
         pyautogui_failsafe := pyautogui_failsafe st; pyautogui_pause := pyautogui_pause st; opened_logs := opened |}
  end.

Definition enter_module (m : pystr) (st : interp) : interp :=
  {| sys_modules := m :: sys_modules st; root_handlers := root_handlers st;
     colorama_autoreset := colorama_autoreset st; pyautogui_failsafe := pyautogui_failsafe st;
     pyautogui_pause := pyautogui_pause st; opened_logs := opened_logs st |}.

Definition set_flags (autoreset failsafe : bool) (pause : Z) (st : interp) : interp :=
  {| sys_modules := sys_modules st; root_handlers := root_handlers st; colorama_autoreset := autoreset;
     pyautogui_failsafe := failsafe; pyautogui_pause := pause; opened_logs := opened_logs st |}.

(** [import m]: nothing when [m] is in [sys.modules]; otherwise [m] is
    entered and its body runs.  The fuel bounds the nesting of imports;
    each level enters a module, so the number of modules is enough. *)
Fixpoint import_module (fuel : nat) (m : pystr) (st : interp) : pyres interp :=
  match fuel with
  | O => PErr RecursionError
  | S f =>
      if bool_decide (m ∈ sys_modules st) then POk st else
      match module_body m with
      | None => PErr ImportError
      | Some body =>
          foldl (fun acc s =>
                   st' ← acc;
                   match s with
                   | Import m' => import_module f m' st'
                   | BasicConfig c => POk (basic_config c st')
                   | ColoramaInit a => POk (set_flags a (pyautogui_failsafe st') (pyautogui_pause st') st')
                   | SetFailsafe b => POk (set_flags (colorama_autoreset st') b (pyautogui_pause st') st')
                   | SetPause ms => POk (set_flags (colorama_autoreset st') (pyautogui_failsafe st') ms st')
                   end) (POk (enter_module m st)) body
      end
  end.

(** The modules of the package. *)
Definition module_fuel : nat := 9.

(** [python -m katana.main] up to [main()], then the import of
    [GameFactory.create_benchmark(game_id)] (line 49 of [factory.py]). *)
Definition run_main_then_create (game_id : pystr) : pyres interp :=
  st ← import_module module_fuel (lit "katana.main") fresh_interp;
  import_module module_fuel (lit "katana.games." ++ py_lower game_id ++ lit ".benchmark") st.

(** ** Lemmas *)

(** The statement step of an import, as a function of the state so far. *)
Definition stmt_step (f : nat) (acc : pyres interp) (s : stmt) : pyres interp :=
  st' ← acc;
  match s with
  | Import m' => import_module f m' st'
  | BasicConfig c => POk (basic_config c st')
  | ColoramaInit a => POk (set_flags a (pyautogui_failsafe st') (pyautogui_pause st') st')
  | SetFailsafe b => POk (set_flags (colorama_autoreset st') b (pyautogui_pause st') st')
  | SetPause ms => POk (set_flags (colorama_autoreset st') (pyautogui_failsafe st') ms st')
  end.

Lemma import_module_S f m st :
  import_module (S f) m st =
  if bool_decide (m ∈ sys_modules st) then POk st else
  match module_body m with
  | None => PErr ImportError
  | Some body => foldl (stmt_step f) (POk (enter_module m st)) body
  end.
Proof. reflexivity. Qed.

Section Handlers.
Variable h : log_setup.

(** Once the root logger has handlers, no import replaces them. *)
Lemma import_keeps_handlers f : forall m st st',
  root_handlers st = Some h -> import_module f m st = POk st' -> root_handlers st' = Some h.
Proof.
  induction f as [|f IH]; intros m st st' Hh; [done |]. rewrite import_module_S.
  case_bool_decide; [by intros [= <-] |]. destruct (module_body m) as [body|]; [| done].
  assert (Hfold : forall body acc, (forall st0, acc = POk st0 -> root_handlers st0 = Some h) ->
            forall st1, foldl (stmt_step f) acc body = POk st1 -> root_handlers st1 = Some h).
  { induction body0 as [|s body0 IHb]; intros acc Hacc st1; [apply Hacc |]. cbn [foldl].
    apply IHb. intros st0 Hs. destruct acc as [st2|e]; [| done]. cbn in Hs.
    specialize (Hacc st2 eq_refl).
    destruct s; cbn in Hs; [by eapply IH | | | |]; injection Hs as <-; [unfold basic_config; by rewrite Hacc | done ..]. }
  apply Hfold. by intros st0 [= <-].
Qed.

End Handlers.

(** [import katana.main] sets up [main.py]'s logging: standard output
    and a UTF-8 log file. *)
Lemma import_main_handlers :
  exists st, import_module module_fuel (lit "katana.main") fresh_interp = POk st /\
             root_handlers st = Some main_logging.
Proof. eexists. split; [vm_compute; reflexivity | reflexivity]. Qed.

(** ** Properties *)

(** C14: When the program runs as [python -m katana.main], the logging
    set up is [main.py]'s (standard output, a UTF-8 log file) whatever
    game [create_benchmark] then imports: the [logging.basicConfig] of
    [core/benchmark.py], which runs when the game's benchmark module
    imports it, finds the root logger configured and does nothing. *)
Theorem main_logging_wins g st' :
  run_main_then_create g = POk st' -> root_handlers st' = Some main_logging.
Proof.
  unfold run_main_then_create. destruct import_main_handlers as (st & -> & Hh). cbn [mbind pyres_bind].
  by apply import_keeps_handlers.
Qed.

(** Imported the other way round, as a script that uses
    [katana.core.benchmark] before [katana.main] does, the program logs
    to standard error and writes the log file in the locale's encoding:
    [main.py]'s [basicConfig] is then the one that does nothing. *)
Lemma benchmark_first_logging :
  (st ← import_module module_fuel (lit "katana.core.benchmark") fresh_interp;
   import_module module_fuel (lit "katana.main") st) ≫= (fun st => mret (root_handlers st))
  = POk (Some benchmark_logging).
Proof. vm_compute. reflexivity. Qed.

(** ** Examples *)

Lemma main_logging_wins_witness :
  root_handlers (match run_main_then_create (lit "CS2") with POk st => st | PErr _ => fresh_interp end)
  = Some main_logging /\
  (exists st, run_main_then_create (lit "CS2") = POk st /\ lit "katana.core.benchmark" ∈ sys_modules st /\
              pyautogui_failsafe st = true /\ pyautogui_pause st = 100%Z).
Proof.
  split.
  - apply (main_logging_wins (lit "CS2")). vm_compute. reflexivity.
  - eexists. split; [vm_compute; reflexivity |]. split_and!; [decide_true | reflexivity | reflexivity].
Defined.

End Startup.
