(* ===== verification/CheckStructure.v ===== *)
(** * CheckStructure: the directory listing script [check_structure.py]

    [print_directory_structure(startpath)] walks the tree under
    [startpath] with [os.walk] (top-down) and prints, for each directory,
    its base name followed by [/], indented by four spaces per level,
    then its files one level deeper.  The level is computed from the
    text of the path: the number of [os.sep] left after every occurrence
    of [startpath] is removed.  The filesystem is the tree found at
    [startpath], each directory listing its files and subdirectories in
    [scandir] order; [os.sep] is [/] (POSIX); the printed lines are the
    output, in order. *)

From S2P Require Import Prelude PyStr.

Module CheckStructure.

Local Set Warnings "-register-all".

(** A directory: its name, its files and its subdirectories. *)
Inductive dtree : Type :=
  | Dir (dname : pystr) (files : list pystr) (subdirs : list dtree).

Definition dir_name (t : dtree) : pystr := match t with Dir n _ _ => n end.

(** [posixpath.join(a, b)] *)
Definition path_join (a b : pystr) : pystr :=
  if bool_decide (head b = Some "/"%char) then b
  else if bool_decide (a = [] \/ last a = Some "/"%char) then a ++ b
  else a ++ "/"%char :: b.

(** [os.walk(top)], top-down: [(root, dirs, files)] for [root], then the
    walk of each subdirectory under [os.path.join(root, d)]. *)
Fixpoint walk (root : pystr) (t : dtree) : list (pystr * list pystr * list pystr) :=
  match t with
  | Dir _ files subdirs =>
      (root, map dir_name subdirs, files) :: flat_map (fun c => walk (path_join root (dir_name c)) c) subdirs
  end.

(** The body of the loop of [print_directory_structure] (lines 5-10)
    for one [(root, dirs, files)]. *)
Definition walk_entry_lines (startpath : pystr) (e : pystr * list pystr * list pystr) : list pystr :=
  let '(root, _, files) := e in
  let level := str_count "/"%char (py_replace startpath [] root) in
  let indent := repeat " "%char (4 * level) in
  let sub_indent := repeat " "%char (4 * (level + 1)) in
  (indent ++ basename root ++ lit "/") :: map (fun f => sub_indent ++ f) files.

(** [print_directory_structure(startpath)] (lines 3-10). *)
Definition print_directory_structure (startpath : pystr) (t : dtree) : list pystr :=
  flat_map (walk_entry_lines startpath) (walk startpath t).

(** The script (line 13): the tree of the current directory. *)
Definition check_structure (t : dtree) : list pystr := print_directory_structure (lit ".") t.

(** ** The listing it means to print

    Each directory at depth [d] as its name and [/] after [4 d] spaces,
    its files after [4 (d + 1)] spaces, then its subdirectories one
    level deeper. *)
Fixpoint tree_lines (depth : nat) (name : pystr) (t : dtree) : list pystr :=
  match t with
  | Dir _ files subdirs =>
      (repeat " "%char (4 * depth) ++ name ++ lit "/") ::
      map (fun f => repeat " "%char (4 * S depth) ++ f) files ++
      flat_map (fun c => tree_lines (S depth) (dir_name c) c) subdirs
  end.

(** A name of a directory entry: not empty, without [/]. *)
Definition entry_name (n : pystr) : bool := bool_decide (n <> [] /\ "/"%char ∉ n).

Fixpoint wf_tree (t : dtree) : bool :=
  match t with Dir _ _ subdirs => forallb (fun c => entry_name (dir_name c) && wf_tree c) subdirs end.

(** Induction on trees, with the hypothesis for every subdirectory. *)
Fixpoint dtree_ind' (P : dtree -> Prop)
    (H : forall n files subdirs, Forall P subdirs -> P (Dir n files subdirs)) (t : dtree) : P t :=
  match t with
  | Dir n files subdirs =>
      H n files subdirs
        ((fix go (l : list dtree) : Forall P l :=
            match l with [] => @List.Forall_nil _ P | c :: r => @List.Forall_cons _ P c r (dtree_ind' P H c) (go r) end) subdirs)
  end.

(** ** Lemmas *)

(** A path that does not end with [/]. *)
Definition path_ok (p : pystr) : Prop := exists y, last p = Some y /\ y <> "/"%char.

Lemma entry_name_spec n : entry_name n = true -> n <> [] /\ "/"%char ∉ n.
Proof. unfold entry_name. by rewrite bool_decide_eq_true. Qed.

Lemma entry_path_ok n : entry_name n = true -> path_ok n.
Proof.
  intros [Hne Hn]%entry_name_spec. destruct (last n) as [y|] eqn:Hy; [| by apply last_None in Hy].
  exists y. split; [done |]. intros ->. apply Hn. apply last_Some in Hy as [l' ->]. set_solver.
Qed.

Lemma path_ok_child p n : entry_name n = true -> path_ok (p ++ "/"%char :: n).
Proof.
  intros (y & Hy & Hne)%entry_path_ok. exists y. split; [| done].
  by rewrite last_app, last_cons, Hy.
Qed.

Lemma path_join_child p n : path_ok p -> entry_name n = true -> path_join p n = p ++ "/"%char :: n.
Proof.
  intros (y & Hy & Hne) [Hn Hs]%entry_name_spec. unfold path_join.
  rewrite bool_decide_false; [rewrite bool_decide_false; [done |] |].
  - intros [-> | Hl]; [done | congruence].
  - destruct n as [|c n]; [done |]. intros [= ->]. apply Hs. left.
Qed.

(** The level of a path under a [startpath] without [/] is the number
    of [/] of the path. *)
Lemma walk_entry_lines_eq sp p dirs files :
  entry_name sp = true ->
  walk_entry_lines sp (p, dirs, files) =
  (repeat " "%char (4 * str_count "/"%char p) ++ basename p ++ lit "/") ::
  map (fun f => repeat " "%char (4 * S (str_count "/"%char p)) ++ f) files.
Proof.
  intros [Hne Hs]%entry_name_spec. unfold walk_entry_lines.
  rewrite py_replace_count by done. by rewrite Nat.add_1_r.
Qed.

Section Listing.
Variable sp : pystr.
Hypothesis Hsp : entry_name sp = true.

Lemma walk_lines t : forall p, wf_tree t = true -> path_ok p ->
  flat_map (walk_entry_lines sp) (walk p t) = tree_lines (str_count "/"%char p) (basename p) t.
Proof.
  induction t as [n files subdirs IH] using dtree_ind'. intros p Hwf Hp.
  cbn [walk tree_lines flat_map]. rewrite walk_entry_lines_eq by done. cbn [app]. f_equal. f_equal.
  induction subdirs as [|c subdirs IHs]; [done |]. cbn [wf_tree forallb] in Hwf.
  apply andb_true_iff in Hwf as [[Hc Hwc]%andb_true_iff Hws]. apply Forall_cons in IH as [IHc IH].
  cbn [flat_map]. rewrite flat_map_app, IHs by done. f_equal.
  rewrite path_join_child by done. rewrite IHc by (done || by apply path_ok_child).
  apply entry_name_spec in Hc as [_ Hc].
  by rewrite str_count_app, str_count_cons_eq, (str_count_absent _ _ Hc), basename_child, Nat.add_1_r.
Qed.

End Listing.

(** ** Properties *)

(** C39: for a [startpath] that is a plain name (not empty, no [/]; the
    script's [.] is one) and a tree of well-formed entry names,
    [print_directory_structure(startpath)] prints the indented listing:
    each directory at depth [d] as its base name and [/] after [4 d]
    spaces, its files after [4 (d + 1)] spaces, then its subdirectories
    in walk order; the level computed from the path text is the depth. *)
Theorem print_directory_structure_spec sp t :
  entry_name sp = true -> wf_tree t = true ->
  print_directory_structure sp t = tree_lines 0 sp t.
Proof.
  intros Hsp Hwf. unfold print_directory_structure.
  pose proof (entry_name_spec sp Hsp) as [_ Hs].
  rewrite (walk_lines sp Hsp t sp Hwf (entry_path_ok sp Hsp)).
  by rewrite str_count_absent, basename_plain.
Qed.

(** The level is wrong for other start paths.  With a [startpath] that
    ends with [/] (as [src/]), every subdirectory's level comes out one
    too small, and the top directory's base name is empty: the first
    level is printed flush left under a bare [/].  With [a/b] and a
    directory [a/b/a/b], both occurrences are removed and [b] is printed
    at level 1 instead of 2. *)
Lemma print_directory_structure_wrong_level :
  print_directory_structure (lit "src/") (Dir (lit "src") [lit "main.py"] [Dir (lit "games") [lit "cs2.py"] []]) =
    [lit "/"; lit "    main.py"; lit "games/"; lit "    cs2.py"] /\
  print_directory_structure (lit "a/b") (Dir (lit "b") [] [Dir (lit "a") [] [Dir (lit "b") [] []]]) =
    [lit "b/"; lit "    a/"; lit "    b/"].
Proof. split; vm_compute; reflexivity. Qed.

(** ** Examples *)

(** The top of the repository. *)
Definition ex_repo : dtree :=
  Dir (lit ".") [lit "README.md"; lit "check_structure.py"]
    [Dir (lit "katana") [lit "main.py"] [Dir (lit "games") [lit "factory.py"] [Dir (lit "cs2") [lit "benchmark.py"] []]];
     Dir (lit "tests") [] []].

Lemma print_directory_structure_spec_witness :
  check_structure ex_repo = tree_lines 0 (lit ".") ex_repo /\
  tree_lines 0 (lit ".") ex_repo =
    [lit "./"; lit "    README.md"; lit "    check_structure.py"; lit "    katana/"; lit "        main.py";
     lit "        games/"; lit "            factory.py"; lit "            cs2/";
     lit "                benchmark.py"; lit "    tests/"].
Proof.
  split; [apply print_directory_structure_spec; vm_compute; reflexivity | vm_compute; reflexivity].
Defined.

End CheckStructure.
