(* ===== verification/Regex.v ===== *)
(** * Regex: the setting pattern of the CS2 preset adapter

    [CS2PresetAdapter.apply_preset] (katana/games/cs2/presets.py,
    lines 169-177) finds a setting in the video config with the pattern
    [rf'Q{key}Q\s+Q[^Q]*Q'], writing [Q] for a double quote, through
    [re.search(pattern, content)], and rewrites it with
    [re.sub(pattern, replacement, content)].  This file holds
    - the regex fragment that pattern denotes ([regex], [rmatch]) and
      the translation of the key into it ([key_atoms], [setting_regex]);
    - the scanner [match_setting] that decides a match at a position,
      proved to accept exactly the prefixes in the pattern's language
      ([match_setting_spec]), so backtracking order plays no role;
    - [re.search] ([search]) and the global [re.sub] ([re_sub]) with the
      parsing and expansion of Python's replacement templates
      ([parse_template], [expand]), where an unknown escape such as
      [\U] raises. *)

From S2P Require Import Prelude PyStr.

(** ** The regex fragment and its language *)

Inductive regex : Type :=
  | REps
  | RChar (p : ascii -> bool)       (** a one-character class *)
  | RSeq (r1 r2 : regex)
  | RStar (r : regex).

(** [r+] is [r r*]. *)
Definition RPlus (r : regex) : regex := RSeq r (RStar r).

Inductive rmatch : regex -> pystr -> Prop :=
  | m_eps : rmatch REps []
  | m_char p c : p c = true -> rmatch (RChar p) [c]
  | m_seq r1 r2 w1 w2 : rmatch r1 w1 -> rmatch r2 w2 -> rmatch (RSeq r1 r2) (w1 ++ w2)
  | m_star_nil r : rmatch (RStar r) []
  | m_star_cons r w1 w2 : rmatch r w1 -> rmatch (RStar r) w2 -> rmatch (RStar r) (w1 ++ w2).

(** ** The key inside the pattern

    The key is spliced into the pattern unescaped.  Each character of a
    key is a literal, except [.], which matches any character but a
    newline.  A key with another metacharacter of Python's syntax is
    outside the modelled fragment ([None]); the keys of CS2's video
    settings ([setting.defaultres], [setting.mat_vsync], ...) are
    letters, digits, [_] and [.]. *)

Inductive katom : Type :=
  | KLit (c : ascii)
  | KDot.

Definition re_meta : pystr := lit "\^$*+?{}[]|()".

Definition key_atom (c : ascii) : option katom :=
  if decide (c = "."%char) then Some KDot
  else if decide (c ∈ re_meta) then None
  else Some (KLit c).

Definition key_atoms (k : pystr) : option (list katom) := mapM key_atom k.

Definition katom_ok (a : katom) (c : ascii) : bool :=
  match a with
  | KLit d => bool_decide (c = d)
  | KDot => negb (bool_decide (c = ch_nl))
  end.

Fixpoint atoms_regex (ks : list katom) : regex :=
  match ks with
  | [] => REps
  | a :: ks' => RSeq (RChar (katom_ok a)) (atoms_regex ks')
  end.

Definition is_quote (c : ascii) : bool := bool_decide (c = ch_dquote).
Definition not_quote (c : ascii) : bool := negb (is_quote c).

(** [rf'Q{key}Q\s+Q[^Q]*Q'], [Q] a double quote. *)
Definition setting_regex (ks : list katom) : regex :=
  RSeq (RChar is_quote)
    (RSeq (atoms_regex ks)
      (RSeq (RChar is_quote)
        (RSeq (RPlus (RChar py_isspace))
          (RSeq (RChar is_quote)
            (RSeq (RStar (RChar not_quote)) (RChar is_quote)))))).

(** ** The scanner *)

Fixpoint match_atoms (ks : list katom) (s : pystr) : option pystr :=
  match ks with
  | [] => Some s
  | a :: ks' =>
      match s with
      | c :: s' => if katom_ok a c then match_atoms ks' s' else None
      | [] => None
      end
  end.

(** The longest prefix whose characters satisfy [p], and the rest. *)
Fixpoint span (p : ascii -> bool) (s : pystr) : pystr * pystr :=
  match s with
  | c :: s' => if p c then let '(a, b) := span p s' in (c :: a, b) else ([], s)
  | [] => ([], [])
  end.

Definition expect_quote (s : pystr) : option pystr :=
  match s with
  | c :: s' => if is_quote c then Some s' else None
  | [] => None
  end.

(** The length of the match of the setting pattern at the start of [s]:
    greedy [\s+] and [[^Q]*], each followed by a quote. *)
Definition match_setting (ks : list katom) (s : pystr) : option nat :=
  s1 ← expect_quote s;
  s2 ← match_atoms ks s1;
  s3 ← expect_quote s2;
  let '(ws, s4) := span py_isspace s3 in
  if bool_decide (ws = []) then None else
  s5 ← expect_quote s4;
  let '(v, s6) := span not_quote s5 in
  _ ← expect_quote s6;
  Some (4 + length ks + length ws + length v).

(** [re.search(pattern, s)]: the leftmost position [i] (from [i0]) at
    which the pattern matches, with the length of the match. *)
Fixpoint search_from (ks : list katom) (i : nat) (s : pystr) : option (nat * nat) :=
  match match_setting ks s with
  | Some n => Some (i, n)
  | None =>
      match s with
      | [] => None
      | _ :: s' => search_from ks (S i) s'
      end
  end.

Definition search (ks : list katom) (s : pystr) : option (nat * nat) := search_from ks 0 s.

(** [match.group(0)] of a search result. *)
Definition group0 (s : pystr) (m : nat * nat) : pystr := take m.2 (drop m.1 s).

(** ** Replacement templates

    [re.sub] parses its replacement string as a template
    ([re._parser.parse_template]) before it scans: [\g<0>] stands for the
    whole match; [\0], [\0o] and [\0oo] and three-digit octal escapes
    [\ooo] (at most [\377]) for a character; [\a \b \f \n \r \t \v] and a
    doubled backslash for the usual characters; a backslash before an
    ASCII letter with no meaning, before a group number (the pattern has
    no groups), or at the end raises.  Any other escaped character is kept
    with its backslash. *)

Inductive titem : Type :=
  | TChar (c : ascii)
  | TGroup0.

Definition is_digit (c : ascii) : bool := bool_decide (is_Some (digit_val c)).

Definition is_octdigit (c : ascii) : bool :=
  match digit_val c with Some d => (d <? 8)%N | None => false end.

Definition ascii_letter (c : ascii) : bool :=
  let n := Ascii.nat_of_ascii c in
  ((65 <=? n) && (n <=? 90)) || ((97 <=? n) && (n <=? 122)).

(** [sre_parse.ESCAPES] *)
Definition escape_char (c : ascii) : option ascii :=
  if decide (c = "a"%char) then Some (Ascii.ascii_of_nat 7)
  else if decide (c = "b"%char) then Some (Ascii.ascii_of_nat 8)
  else if decide (c = "f"%char) then Some (Ascii.ascii_of_nat 12)
  else if decide (c = "n"%char) then Some ch_nl
  else if decide (c = "r"%char) then Some (Ascii.ascii_of_nat 13)
  else if decide (c = "t"%char) then Some ch_tab
  else if decide (c = "v"%char) then Some (Ascii.ascii_of_nat 11)
  else if decide (c = ch_bslash) then Some ch_bslash
  else None.

(** The name of [\g<name>], up to the first [>]. *)
Fixpoint split_gt (s : pystr) : option (pystr * pystr) :=
  match s with
  | [] => None
  | c :: r =>
      if decide (c = ">"%char) then Some ([], r)
      else '(name, rest) ← split_gt r; Some (c :: name, rest)
  end.

(** A group name that denotes group 0: a non-empty decimal numeral of
    value 0 (an identifier names no group of this pattern). *)
Definition group0_name (name : pystr) : bool :=
  forallb is_digit name && bool_decide (int_digits name = Some 0%N).

(** Up to [n] leading octal digits. *)
Fixpoint oct_upto (n : nat) (s : pystr) : pystr * pystr :=
  match n, s with
  | S n', c :: r => if is_octdigit c then let '(ds, rest) := oct_upto n' r in (c :: ds, rest)
                    else ([], s)
  | _, _ => ([], s)
  end.

Definition oct_value (ds : pystr) : N :=
  foldl (fun acc c => 8 * acc + default 0 (digit_val c))%N 0%N ds.

Fixpoint parse_tmpl (fuel : nat) (s : pystr) : pyres (list titem) :=
  match fuel with
  | O => POk []
  | S f =>
  match s with
  | [] => POk []
  | c :: r =>
    if decide (c = ch_bslash) then
      match r with
      | [] => raise ReError
      | e :: r' =>
        if decide (e = "g"%char) then
          match r' with
          | lt :: r'' =>
              if decide (lt = "<"%char) then
                match split_gt r'' with
                | Some (name, rest) =>
                    if group0_name name then (TGroup0 ::.) <$> parse_tmpl f rest
                    else raise ReError
                | None => raise ReError
                end
              else raise ReError
          | [] => raise ReError
          end
        else if decide (e = "0"%char) then
          let '(ds, rest) := oct_upto 2 r' in
          (TChar (Ascii.ascii_of_N (oct_value ("0"%char :: ds) mod 256)) ::.) <$> parse_tmpl f rest
        else if is_digit e then
          match r' with
          | d2 :: d3 :: r3 =>
              if is_octdigit e && is_octdigit d2 && is_octdigit d3 then
                let v := oct_value [e; d2; d3] in
                if (v <=? 255)%N then (TChar (Ascii.ascii_of_N v) ::.) <$> parse_tmpl f r3
                else raise ReError
              else raise ReError
          | _ => raise ReError
          end
        else
          match escape_char e with
          | Some x => (TChar x ::.) <$> parse_tmpl f r'
          | None =>
              if ascii_letter e then raise ReError
              else (fun t => TChar ch_bslash :: TChar e :: t) <$> parse_tmpl f r'
          end
      end
    else (TChar c ::.) <$> parse_tmpl f r
  end
  end.

(** Every step consumes a character, so the length of the template plus
    one is enough fuel ([parse_tmpl_fuel]). *)
Definition parse_template (repl : pystr) : pyres (list titem) :=
  parse_tmpl (S (length repl)) repl.

(** The text a template stands for at a match [m]. *)
Fixpoint expand (t : list titem) (m : pystr) : pystr :=
  match t with
  | [] => []
  | TChar c :: t' => c :: expand t' m
  | TGroup0 :: t' => m ++ expand t' m
  end.

(** ** [re.sub]

    Scan left to right; at a position where the pattern matches, emit
    the expanded template and skip the match; elsewhere copy one
    character.  Every match is non-empty, so the length of the string
    plus one is enough fuel ([sub_scan_fuel]). *)
Fixpoint sub_scan (fuel : nat) (ks : list katom) (t : list titem) (s : pystr) : pystr :=
  match fuel with
  | O => s
  | S f =>
      match match_setting ks s with
      | Some n => expand t (take n s) ++ sub_scan f ks t (drop n s)
      | None =>
          match s with
          | [] => []
          | c :: s' => c :: sub_scan f ks t s'
          end
      end
  end.

(** [re.sub(pattern, repl, s)]: the template is parsed first, so a bad
    template raises whether or not the pattern occurs. *)
Definition sub_all (ks : list katom) (t : list titem) (s : pystr) : pystr :=
  sub_scan (S (length s)) ks t s.

Definition re_sub (ks : list katom) (repl s : pystr) : pyres pystr :=
  t ← parse_template repl;
  POk (sub_all ks t s).

(** ** The language of the setting pattern, explicitly *)

Definition setting_lang (ks : list katom) (w : pystr) : Prop :=
  exists a ws v,
    w = ch_dquote :: a ++ ch_dquote :: ws ++ ch_dquote :: v ++ [ch_dquote]
    /\ Forall2 (fun k c => katom_ok k c = true) ks a
    /\ ws <> [] /\ Forall (fun c => py_isspace c = true) ws
    /\ Forall (fun c => not_quote c = true) v.

(** ** Lemmas on the language *)

Lemma rmatch_eps_iff w : rmatch REps w <-> w = [].
Proof. split; [by inversion 1 | intros ->; constructor]. Qed.

Lemma rmatch_char_iff p w : rmatch (RChar p) w <-> exists c, w = [c] /\ p c = true.
Proof. split; [inversion 1; eauto | intros (c & -> & Hc); by constructor]. Qed.

Lemma rmatch_seq_iff r1 r2 w :
  rmatch (RSeq r1 r2) w <-> exists w1 w2, w = w1 ++ w2 /\ rmatch r1 w1 /\ rmatch r2 w2.
Proof. split; [inversion 1; eauto 10 | intros (w1 & w2 & -> & H1 & H2); by constructor]. Qed.

Lemma rmatch_star_char p w :
  rmatch (RStar (RChar p)) w <-> Forall (fun c => p c = true) w.
Proof.
  split.
  - intros H. remember (RStar (RChar p)) as r eqn:Er.
    induction H; try discriminate; [constructor |].
    injection Er as ->. apply rmatch_char_iff in H as (c & -> & Hc).
    constructor; auto.
  - induction 1 as [|c w Hc _ IH]; [constructor |].
    apply (m_star_cons _ [c] w); [by constructor | done].
Qed.

Lemma rmatch_plus_char p w :
  rmatch (RPlus (RChar p)) w <-> w <> [] /\ Forall (fun c => p c = true) w.
Proof.
  unfold RPlus. rewrite rmatch_seq_iff. split.
  - intros (w1 & w2 & -> & (c & -> & Hc)%rmatch_char_iff & Hw2%rmatch_star_char).
    split; [done | by constructor].
  - intros [Hne Hall]. destruct w as [|c w]; [done |]. apply Forall_cons in Hall as [Hc Hw].
    exists [c], w. split; [done |]. split; [by constructor | by apply rmatch_star_char].
Qed.

Lemma rmatch_atoms ks w :
  rmatch (atoms_regex ks) w <-> Forall2 (fun k c => katom_ok k c = true) ks w.
Proof.
  revert w. induction ks as [|k ks IH]; intros w; simpl.
  - rewrite rmatch_eps_iff. split; [intros ->; constructor | by inversion 1].
  - rewrite rmatch_seq_iff. split.
    + intros (w1 & w2 & -> & (c & -> & Hc)%rmatch_char_iff & H2%IH). by constructor.
    + inversion 1 as [|? c ? w' Hc Hrest]; subst.
      exists [c], w'. split; [done |]. split; [by constructor | by apply IH].
Qed.

Lemma is_quote_iff c : is_quote c = true <-> c = ch_dquote.
Proof. unfold is_quote. apply bool_decide_eq_true. Qed.

(** The pattern denotes [setting_lang]. *)
Lemma rmatch_setting_iff ks w : rmatch (setting_regex ks) w <-> setting_lang ks w.
Proof.
  unfold setting_regex, setting_lang.
  repeat (setoid_rewrite rmatch_seq_iff || setoid_rewrite rmatch_char_iff
          || setoid_rewrite rmatch_atoms || setoid_rewrite rmatch_star_char
          || setoid_rewrite is_quote_iff).
  split.
  - intros (? & ? & -> & (? & -> & ->) & a & ? & -> & Ha & ? & ? & -> & (? & -> & ->) &
            ? & ? & -> & (? & ws & -> & (c & -> & Hc) & Hws) & ? & ? & -> &
            (? & -> & ->) & v & ? & -> & Hv & (? & -> & ->)).
    exists a, (c :: ws), v. simpl. eauto 10.
  - intros (a & [|c ws] & v & -> & Ha & Hne & Hws & Hv); [done |].
    apply Forall_cons in Hws as [Hc Hws].
    exists [ch_dquote], (a ++ ch_dquote :: c :: ws ++ ch_dquote :: v ++ [ch_dquote]).
    split; [done |]. split; [eauto |].
    exists a, (ch_dquote :: c :: ws ++ ch_dquote :: v ++ [ch_dquote]).
    split; [done |]. split; [done |].
    exists [ch_dquote], (c :: ws ++ ch_dquote :: v ++ [ch_dquote]).
    split; [done |]. split; [eauto |].
    exists (c :: ws), (ch_dquote :: v ++ [ch_dquote]).
    split; [done |]. split; [exists [c], ws; eauto |].
    exists [ch_dquote], (v ++ [ch_dquote]). split; [done |]. split; [eauto |].
    exists v, [ch_dquote]. eauto.
Qed.

(** ** Lemmas on the scanner *)

Lemma match_atoms_Some ks s t :
  match_atoms ks s = Some t <->
  exists a, s = a ++ t /\ Forall2 (fun k c => katom_ok k c = true) ks a.
Proof.
  revert s. induction ks as [|k ks IH]; intros s; simpl.
  - split; [intros [= ->]; exists []; eauto | by intros ([|] & -> & H); inversion H].
  - destruct s as [|c s].
    + split; [done | intros ([|] & ? & H); by inversion H].
    + destruct (katom_ok k c) eqn:Hk.
      * rewrite IH. split.
        -- intros (a & -> & Ha). exists (c :: a). eauto.
        -- intros ([|c' a] & Heq & H); inversion H; simplify_eq/=. eauto.
      * split; [done |]. intros ([|c' a] & Heq & H); inversion H; simplify_eq/=. congruence.
Qed.

Lemma span_spec p s a b :
  span p s = (a, b) ->
  s = a ++ b /\ Forall (fun c => p c = true) a /\ (forall c b', b = c :: b' -> p c = false).
Proof.
  revert a b. induction s as [|c s IH]; intros a b; simpl.
  - intros [= <- <-]. split_and!; [done | constructor | done].
  - destruct (p c) eqn:Hc.
    + destruct (span p s) as [a' b'] eqn:E. intros [= <- <-].
      destruct (IH a' b' eq_refl) as (-> & Ha & Hb). eauto.
    + intros [= <- <-]. split_and!; [done | constructor | congruence].
Qed.

Lemma span_app p a b :
  Forall (fun c => p c = true) a -> (forall c b', b = c :: b' -> p c = false) ->
  span p (a ++ b) = (a, b).
Proof.
  intros Ha Hb. induction Ha as [|c a Hc Ha IH]; simpl.
  - destruct b as [|c b]; [done |]. simpl. by rewrite (Hb c b eq_refl).
  - by rewrite Hc, IH.
Qed.

Lemma expect_quote_Some s t : expect_quote s = Some t <-> s = ch_dquote :: t.
Proof.
  destruct s as [|c s]; simpl; [done |].
  destruct (is_quote c) eqn:Hq; apply is_quote_iff in Hq || idtac.
  - subst. naive_solver.
  - split; [done |]. intros [= -> ->]. by rewrite (proj2 (is_quote_iff _) eq_refl) in Hq.
Qed.

Lemma space_not_quote : py_isspace ch_dquote = false.
Proof. reflexivity. Qed.

(** The scanner accepts exactly the prefixes in [setting_lang], and
    returns their length. *)
Lemma match_setting_Some ks s n :
  match_setting ks s = Some n <->
  exists w t, s = w ++ t /\ setting_lang ks w /\ n = length w.
Proof.
  unfold match_setting. split.
  - intros H. simp_res.
    apply expect_quote_Some in Ha as ->. apply match_atoms_Some in Ha0 as (k & -> & Hk).
    apply expect_quote_Some in Ha1 as ->.
    destruct (span py_isspace _) as [ws s4] eqn:E1. apply span_spec in E1 as (-> & Hws & _).
    case_bool_decide as Hne; [done |]. simp_res.
    apply expect_quote_Some in Ha as ->.
    destruct (span not_quote _) as [v s6] eqn:E2. apply span_spec in E2 as (-> & Hv & _).
    simp_res. apply expect_quote_Some in Ha as ->. subst n.
    exists (ch_dquote :: k ++ ch_dquote :: ws ++ ch_dquote :: v ++ [ch_dquote]), a.
    split; [by list_norm |]. split; [exists k, ws, v; done |].
    rewrite (Forall2_length _ _ _ Hk). len_norm. lia.
  - intros (w & t & -> & (a & ws & v & -> & Ha & Hne & Hws & Hv) & ->). simpl. list_norm.
    rewrite (proj2 (match_atoms_Some _ _ _) (ex_intro _ a (conj eq_refl Ha))). simpl.
    rewrite span_app by (done || (intros ? ? [= <- _]; reflexivity)). simpl.
    rewrite bool_decide_eq_false_2 by done. simpl.
    rewrite span_app by (done || (intros ? ? [= <- _]; reflexivity)). simpl.
    rewrite (Forall2_length _ _ _ Ha). f_equal. len_norm. lia.
Qed.

Lemma match_setting_len ks s n : match_setting ks s = Some n -> 4 <= n <= length s.
Proof.
  intros (w & t & -> & (a & ws & v & -> & _) & ->)%match_setting_Some. len_norm. lia.
Qed.

(** ** Lemmas on [re.search] *)

Lemma search_from_Some ks i0 s i n :
  search_from ks i0 s = Some (i, n) <->
  i0 <= i /\ i - i0 <= length s /\ match_setting ks (drop (i - i0) s) = Some n /\
  (forall j, j < i - i0 -> match_setting ks (drop j s) = None).
Proof.
  revert i0. induction s as [|c s IH]; intros i0; simpl.
  - split; [done |]. intros (_ & _ & Hm & _). rewrite drop_nil in Hm. discriminate Hm.
  - destruct (match_setting ks (c :: s)) eqn:E.
    + split.
      * intros [= -> ->]. rewrite Nat.sub_diag. split_and!; [lia | lia | done | intros; lia].
      * intros (? & ? & Hm & Hb). destruct (decide (i - i0 = 0)) as [Hz | Hz].
        -- rewrite Hz in Hm. simpl in Hm. assert (i = i0) as -> by lia. congruence.
        -- specialize (Hb 0 ltac:(lia)). simpl in Hb. congruence.
    + rewrite IH. split.
      * intros (? & ? & Hm & Hb). replace (i - i0) with (S (i - S i0)) by lia.
        split_and!; [lia | simpl; lia | done |].
        intros [|j] Hj; [done |]. apply Hb. lia.
      * intros (? & ? & Hm & Hb). destruct (decide (i - i0 = 0)) as [Hz | Hz].
        { rewrite Hz in Hm. simpl in Hm. congruence. }
        assert (S i0 <= i) by lia.
        replace (i - i0) with (S (i - S i0)) in * by lia. simpl in *.
        split_and!; [lia | lia | done |]. intros j Hj. apply (Hb (S j)). lia.
Qed.

Lemma search_None ks s :
  search ks s = None <-> forall j, j <= length s -> match_setting ks (drop j s) = None.
Proof.
  unfold search. generalize 0. induction s as [|c s IH]; intros i0; simpl.
  - split; [| done]. intros _ j Hj. by rewrite drop_nil.
  - destruct (match_setting ks (c :: s)) eqn:E.
    + split; [done |]. intros H. specialize (H 0 ltac:(lia)). simpl in H. congruence.
    + rewrite IH. split.
      * intros H [|j] Hj; [done |]. apply H. lia.
      * intros H j Hj. apply (H (S j)). lia.
Qed.

Lemma search_bound ks s i n : search ks s = Some (i, n) -> i + n <= length s.
Proof.
  unfold search. rewrite search_from_Some, !Nat.sub_0_r. intros (_ & Hi & Hm & _).
  apply match_setting_len in Hm. rewrite length_drop in Hm. lia.
Qed.

(** ** Lemmas on [re.sub] *)

Lemma sub_scan_fuel_eq ks t f g s :
  length s < f -> length s < g -> sub_scan f ks t s = sub_scan g ks t s.
Proof.
  revert g s. induction f as [|f IH]; intros [|g] s Hf Hg; simpl; try lia.
  destruct (match_setting ks s) as [n|] eqn:E.
  - apply match_setting_len in E. f_equal. apply IH; rewrite length_drop; lia.
  - destruct s as [|c s]; [done |]. f_equal. simpl in *. apply IH; lia.
Qed.

Lemma sub_scan_fuel ks t f s : length s < f -> sub_scan f ks t s = sub_all ks t s.
Proof. intros Hf. apply sub_scan_fuel_eq; [done | lia]. Qed.

Lemma sub_all_match ks t s n :
  match_setting ks s = Some n -> sub_all ks t s = expand t (take n s) ++ sub_all ks t (drop n s).
Proof.
  intros E. unfold sub_all at 1. simpl. rewrite E. f_equal.
  apply match_setting_len in E. apply sub_scan_fuel. rewrite length_drop. lia.
Qed.

Lemma sub_all_skip ks t c s :
  match_setting ks (c :: s) = None -> sub_all ks t (c :: s) = c :: sub_all ks t s.
Proof. intros E. unfold sub_all at 1. simpl. by rewrite E. Qed.

Lemma sub_all_nil ks t : sub_all ks t [] = [].
Proof. reflexivity. Qed.

(** With no match anywhere, [re.sub] returns its input. *)
Lemma sub_all_nomatch ks t s :
  (forall j, j <= length s -> match_setting ks (drop j s) = None) -> sub_all ks t s = s.
Proof.
  induction s as [|c s IH]; intros H; [apply sub_all_nil |].
  rewrite sub_all_skip by exact (H 0 ltac:(lia)). f_equal.
  apply IH. intros j Hj. apply (H (S j)). simpl. lia.
Qed.

(** [re.sub] copies what precedes the leftmost match, replaces the match
    and goes on after it. *)
Lemma sub_all_search ks t s i n :
  search ks s = Some (i, n) ->
  sub_all ks t s = take i s ++ expand t (take n (drop i s)) ++ sub_all ks t (drop (i + n) s).
Proof.
  unfold search. rewrite search_from_Some, !Nat.sub_0_r. intros (_ & Hi & Hm & Hb).
  revert s Hi Hm Hb. induction i as [|i IH]; intros s Hi Hm Hb.
  - simpl in *. by apply sub_all_match.
  - destruct s as [|c s]; simpl in Hi; [lia |].
    rewrite sub_all_skip by exact (Hb 0 ltac:(lia)). simpl. f_equal.
    apply IH; [lia | done |]. intros j Hj. apply (Hb (S j)). lia.
Qed.

(** ** Lemmas on templates *)

Lemma expand_plain r m : expand (TChar <$> r) m = r.
Proof. induction r as [|c r IH]; [done |]. rewrite fmap_cons. simpl. by rewrite IH. Qed.

(** A template without a backslash is its own text. *)
Lemma parse_tmpl_plain f r :
  length r < f -> ch_bslash ∉ r -> parse_tmpl f r = POk (TChar <$> r).
Proof.
  revert f. induction r as [|c r IH]; intros [|f] Hf Hr; simpl in *; try lia; [done |].
  apply not_elem_of_cons in Hr as [Hc Hr].
  rewrite decide_False by done. rewrite IH by (done || lia). done.
Qed.

(** The first backslash that escapes an ASCII letter with no meaning
    makes the template invalid, whatever follows. *)
Lemma parse_tmpl_bad_escape f a e b :
  length (a ++ ch_bslash :: e :: b) < f -> ch_bslash ∉ a ->
  e <> "g"%char -> ascii_letter e = true -> escape_char e = None ->
  parse_tmpl f (a ++ ch_bslash :: e :: b) = PErr ReError.
Proof.
  intros Hf Ha Hg Hl Hesc. revert f Hf. induction a as [|c a IH]; intros [|f] Hf; simpl in *; try lia.
  - rewrite decide_False by done.
    assert (e <> "0"%char /\ is_digit e = false) as [H0 Hd]
      by (clear -Hl; split; [by intros -> | by destruct e as [[] [] [] [] [] [] [] []]]).
    rewrite decide_False, Hd, Hesc, Hl by done. done.
  - apply not_elem_of_cons in Ha as [Hc Ha].
    rewrite decide_False by done. rewrite IH by (done || lia). done.
Qed.

(** ** Lemmas on keys *)

Lemma key_atom_ok c a : key_atom c = Some a -> katom_ok a c = true.
Proof.
  unfold key_atom. case_decide as Hd; [intros [= <-]; by subst |].
  case_decide; [done |]. intros [= <-]. simpl. by apply bool_decide_eq_true.
Qed.

Lemma key_atoms_ok k ks :
  key_atoms k = Some ks -> Forall2 (fun a c => katom_ok a c = true) ks k.
Proof.
  intros H%mapM_Some_1. apply Forall2_flip.
  eapply Forall2_impl; [exact H |]. intros c a. apply key_atom_ok.
Qed.

Lemma key_atoms_no_bslash k ks : key_atoms k = Some ks -> ch_bslash ∉ k.
Proof.
  intros H%mapM_Some_1. induction H as [|c a k ks Hc _ IH]; [set_solver |].
  apply not_elem_of_cons. split; [| done]. intros <-. by vm_compute in Hc.
Qed.

(** ** Where a match can meet rewritten text

    The lemmas below locate a match that starts before a rewritten
    setting and reaches into it: it ends at the setting's opening quote,
    or that quote opens its value, or it is the closing quote of its key,
    or a [.] of its key.  [match_after_rewrite_none] turns this into:
    rewriting a match with a line of the same key adds no earlier match. *)

Definition setting_head (ks : list katom) (P : pystr) : Prop :=
  exists a ws, P = ch_dquote :: a ++ ch_dquote :: ws
    /\ Forall2 (fun k c => katom_ok k c = true) ks a
    /\ ws <> [] /\ Forall (fun c => py_isspace c = true) ws.

Lemma not_quote_iff c : not_quote c = true <-> c <> ch_dquote.
Proof. unfold not_quote, is_quote. rewrite negb_true_iff. apply bool_decide_eq_false. Qed.

Lemma not_quote_dquote : not_quote ch_dquote = false.
Proof. reflexivity. Qed.

Lemma quote_prefix_ge x y z w :
  Forall (fun c => not_quote c = true) x ->
  y ++ ch_dquote :: z = x ++ ch_dquote :: w -> length x <= length y.
Proof.
  intros Hx Heq. destruct (app_eq_app _ _ _ _ Heq) as (l & [[-> _] | [-> Hl]]).
  - rewrite length_app. lia.
  - destruct l as [|c l]; [rewrite app_nil_r; lia |]. simpl in Hl. injection Hl as <- _.
    apply Forall_app in Hx as [_ Hx]. apply Forall_cons in Hx as [Hq _].
    by rewrite not_quote_dquote in Hq.
Qed.

Lemma first_quote_split s :
  ch_dquote ∈ s -> exists x z, s = x ++ ch_dquote :: z /\ Forall (fun c => not_quote c = true) x.
Proof.
  induction s as [|c s IH]; [by intros ?%elem_of_nil |].
  destruct (decide (c = ch_dquote)) as [-> | Hc].
  - intros _. exists [], s. split; [done | constructor].
  - intros [Heq | Hin]%elem_of_cons; [congruence |].
    destruct (IH Hin) as (x & z & -> & Hx). exists (c :: x), z.
    split; [done |]. constructor; [by apply not_quote_iff | done].
Qed.

Lemma spaces_head ws r :
  ws <> [] -> Forall (fun c => py_isspace c = true) ws ->
  exists c u, ws ++ r = c :: u /\ py_isspace c = true.
Proof. intros Hne Hws. destruct Hws as [|c ws Hc _]; [done |]. eauto. Qed.

Lemma setting_lang_split ks P u :
  setting_lang ks (P ++ ch_dquote :: u) -> P <> [] ->
  u = [] \/ setting_head ks P \/ (exists c u', u = c :: u' /\ py_isspace c = true) \/
  (exists y z, u = y ++ ch_dquote :: z /\ length y < length ks).
Proof.
  intros (a & ws & v & Heq & Ha & Hne & Hws & Hv) HP.
  destruct P as [|p P']; [done |]. simpl in Heq. injection Heq as -> Heq.
  destruct (app_eq_app _ _ _ _ Heq) as (K & [[-> HK] | [-> HK]]).
  - destruct K as [|k0 K]; simpl in HK.
    { injection HK as HK. right; right; left. rewrite <- HK. by apply spaces_head. }
    injection HK as <- HK. destruct (app_eq_app _ _ _ _ HK) as (L & [[-> HL] | [-> HL]]).
    + destruct L as [|l0 L]; simpl in HL.
      * injection HL as HL. rewrite !app_nil_r in *. right; left. exists a, K. eauto 10.
      * injection HL as <- HL. apply Forall_app in Hws as [_ Hws]. by apply Forall_cons in Hws as [? _].
    + destruct L as [|l0 L]; simpl in HL.
      * injection HL as HL. rewrite !app_nil_r in *. right; left. exists a, ws. eauto 10.
      * injection HL as <- HL. left. destruct (app_eq_app _ _ _ _ HL) as (M & [[-> HM] | [-> HM]]).
        -- destruct M as [|m0 M]; simpl in HM; [by injection HM |].
           injection HM as <- _. apply Forall_app in Hv as [_ Hv].
           apply Forall_cons in Hv as [Hq _]. by rewrite not_quote_dquote in Hq.
        -- destruct M as [|m0 M]; simpl in HM; [by injection HM |].
           injection HM as _ HM. by destruct M.
  - destruct K as [|k0 K]; simpl in HK.
    { injection HK as HK. right; right; left. rewrite HK. by apply spaces_head. }
    injection HK as <- HK. right; right; right. exists K, (ws ++ ch_dquote :: v ++ [ch_dquote]).
    split; [done |]. apply Forall2_length in Ha. rewrite Ha, length_app. simpl. lia.
Qed.

Lemma match_setting_word ks w t :
  setting_lang ks w -> match_setting ks (w ++ t) = Some (length w).
Proof. intros Hw. apply match_setting_Some. eauto. Qed.

Lemma setting_head_match ks P x z :
  setting_head ks P -> Forall (fun c => not_quote c = true) x ->
  match_setting ks (P ++ ch_dquote :: x ++ ch_dquote :: z)
  = Some (length (P ++ ch_dquote :: x ++ [ch_dquote])).
Proof.
  intros (a & ws & -> & Ha & Hne & Hws) Hx.
  replace ((ch_dquote :: a ++ ch_dquote :: ws) ++ ch_dquote :: x ++ ch_dquote :: z)
    with ((ch_dquote :: a ++ ch_dquote :: ws ++ ch_dquote :: x ++ [ch_dquote]) ++ z) by list_norm.
  rewrite match_setting_word by (exists a, ws, x; done). f_equal. len_norm. lia.
Qed.

Lemma match_setting_starts_quote ks T m :
  match_setting ks T = Some m -> exists T0, T = ch_dquote :: T0 /\ ch_dquote ∈ T0.
Proof.
  intros (w & t & -> & (a & ws & v & -> & _) & _)%match_setting_Some.
  eexists. split; [reflexivity |]. set_solver.
Qed.

(** Rewriting the text [T] that starts with a match into a line
    [Q k Q ...] of a key [k] with no quote and no space leaves no match at
    the positions [j] before it that had none. *)
Lemma match_after_rewrite_none ks k X T Y j m :
  Forall2 (fun a c => katom_ok a c = true) ks k ->
  Forall (fun c => not_quote c = true) k -> Forall (fun c => py_isspace c = false) k ->
  match_setting ks T = Some m -> j < length X ->
  match_setting ks (drop j (X ++ T)) = None ->
  match_setting ks (drop j X ++ ch_dquote :: k ++ ch_dquote :: Y) = None.
Proof.
  intros Hk Hkq Hks HT Hj Hold. rewrite drop_app_le in Hold by lia.
  assert (drop j X <> []) as HP.
  { intros HX. apply (f_equal length) in HX. rewrite length_drop in HX. simpl in HX. lia. }
  destruct (match_setting_starts_quote _ _ _ HT) as (T0 & -> & HT0).
  generalize dependent (drop j X). intros P Hold HP.
  destruct (match_setting ks (P ++ ch_dquote :: k ++ ch_dquote :: Y)) as [n|] eqn:E;
    [exfalso | done].
  apply match_setting_Some in E as (w & t & Heq & Hw & _).
  assert (Hpre : forall K, P = w ++ K -> False).
  { intros K ->. rewrite <- app_assoc, match_setting_word in Hold by done. discriminate. }
  destruct (app_eq_app _ _ _ _ Heq) as (K & [[-> HK] | [-> HK]]); [by apply (Hpre K) |].
  destruct K as [|k0 u]; [apply (Hpre []); by rewrite !app_nil_r |].
  simpl in HK. injection HK as <- HK.
  destruct (setting_lang_split _ _ _ Hw HP) as [-> | [Hh | [(c & u' & -> & Hc) | (y & z & -> & Hy)]]].
  - replace (P ++ ch_dquote :: T0) with ((P ++ [ch_dquote]) ++ T0) in Hold by list_norm.
    by rewrite match_setting_word in Hold.
  - destruct (first_quote_split _ HT0) as (x & z & -> & Hx).
    by rewrite setting_head_match in Hold.
  - destruct k as [|k0 k]; simpl in HK; injection HK as <- _; [done |].
    apply Forall_cons in Hks as [Hk0 _]. congruence.
  - rewrite <- app_assoc in HK. simpl in HK. symmetry in HK.
    apply (quote_prefix_ge _ _ _ _ Hkq) in HK. rewrite (Forall2_length _ _ _ Hk) in Hy. lia.
Qed.

(** ** Properties *)

(** The scanner [match_setting] that models [re.match] of
    the setting pattern at a position returns [Some n] exactly when the
    first [n] characters are a word of the regex [rf'Q{key}Q\s+Q[^Q]*Q']
    (with [Q] a double quote); a word of the pattern that is a prefix is
    unique, so the leftmost-first choice of the backtracking engine is
    that word. *)
Theorem match_setting_spec ks s n :
  match_setting ks s = Some n <->
  n <= length s /\ rmatch (setting_regex ks) (take n s).
Proof.
  rewrite match_setting_Some, rmatch_setting_iff. split.
  - intros (w & t & -> & Hw & ->). rewrite take_app_exact, length_app. split; [lia | done].
  - intros [Hn Hw]. exists (take n s), (drop n s).
    rewrite take_drop, length_take. split_and!; [done | done | lia].
Qed.
