(* ===== verification/Cs2Preset.v ===== *)
(** * Cs2Preset: the CS2 preset adapter

    [CS2PresetAdapter] (katana/games/cs2/presets.py) patches CS2's video
    settings file with a preset: for each setting it rewrites the line
    [Q<key>Q<tab><tab>Q<value>Q] ([Q] a double quote) found with the
    setting pattern of [Regex], or inserts it before the closing brace;
    it backs the file up first and restores the backup when patching
    raises.

    The filesystem is a finite map from paths to contents; the adapter's
    state is its [config_path].  [ts] stands for the value of
    [time.strftime("%Y%m%d_%H%M%S")] at the call.  The Steam-path
    discovery ([_find_config_path], [_find_steam_path]) reads the
    registry and the disk and is not modelled: the adapter is built with
    the path it found. *)

From S2P Require Import Prelude PyStr Regex.

(** ** Data *)

(** A preset object as [json.load] returns it: a dict, kept in
    insertion order, whose values are scalars. *)
Abbreviation preset := (list (pystr * pyval)).

(** What [json.load] returns for a preset file.  Of an array, only what
    [key in preset_data] compares matters: each element is the string it
    is, or [None] for an element that is not a string (it equals no
    key).  Of a number, only whether it is zero. *)
Inductive loaded : Type :=
  | LDict (d : preset)
  | LList (elems : list (option pystr))
  | LStr (s : pystr)
  | LNum (nonzero : bool)
  | LBool (b : bool)
  | LNull.

(** [not preset_data] is false: Python's truth value. *)
Definition truthy (d : loaded) : bool :=
  match d with
  | LDict p => bool_decide (p <> [])
  | LList xs => bool_decide (xs <> [])
  | LStr s => bool_decide (s <> [])
  | LNum nz => nz
  | LBool b => b
  | LNull => false
  end.

(** [key in preset_data]: the keys of a dict, the elements of a list,
    the substrings of a string; a number, a bool or [None] is not
    iterable and raises [TypeError]. *)
Definition contains (d : loaded) (key : pystr) : pyres bool :=
  match d with
  | LDict p => POk (bool_decide (key ∈ p.*1))
  | LList xs => POk (bool_decide (Some key ∈ xs))
  | LStr s => POk (str_contains key s)
  | _ => PErr TypeError
  end.

(** The filesystem: path to file contents. *)
Abbreviation fs := (gmap pystr pystr).

(** What goes wrong when a file is written, by path: [open(path, "w")]
    is refused ([PermissionError]) and nothing changes, or the disk is
    full: the file is truncated, takes [room] characters of what is
    written, and a longer write raises [OSError]. *)
Inductive write_fault : Type :=
  | Denied
  | NoSpace (room : nat).

Abbreviation faults := (gmap pystr write_fault).

(** [with open(path, "w") as f: f.write(content)]. *)
Definition write_file (flt : faults) (path content : pystr) (m : fs) : pyres unit * fs :=
  match flt !! path with
  | None => (POk tt, <[path := content]> m)
  | Some Denied => (PErr OSError, m)
  | Some (NoSpace room) =>
      if bool_decide (length content <= room) then (POk tt, <[path := content]> m)
      else (PErr OSError, <[path := take room content]> m)
  end.

(** [shutil.copy2(src, dst)]: [FileNotFoundError] for a missing source,
    [SameFileError] onto the source itself (both [OSError]s), otherwise
    the destination is written as [write_file] writes it. *)
Definition copy2 (flt : faults) (src dst : pystr) (m : fs) : pyres unit * fs :=
  match m !! src with
  | None => (PErr OSError, m)
  | Some c => if bool_decide (src = dst) then (PErr OSError, m) else write_file flt dst c m
  end.

(** The disk takes [content] at [path]. *)
Definition accepts (flt : faults) (path content : pystr) : bool :=
  match flt !! path with
  | None => true
  | Some Denied => false
  | Some (NoSpace room) => bool_decide (length content <= room)
  end.

(** ** The adapter *)

Module CS2PresetAdapter.

Record cs2_adapter : Type := { config_path : option pystr }.

(** ** One setting (lines 157-182) *)

(** Lines 162-166: a bool becomes [1] or [0], anything else [str(value)]. *)
Definition setting_str (v : pyval) : pystr :=
  match v with
  | VBool true => lit "1"
  | VBool false => lit "0"
  | _ => py_str v
  end.

(** Line 170: [f'Q{key}Q\t\tQ{value}Q'] *)
Definition replacement (key value : pystr) : pystr :=
  ch_dquote :: key ++ ch_dquote :: ch_tab :: ch_tab :: ch_dquote :: value ++ [ch_dquote].

(** Lines 158-160: metadata keys are not settings. *)
Definition skip_key (k : pystr) : bool := bool_decide (k ∈ [lit "name"; lit "description"]).

(** Line 181: [f'\t{replacement}\n}}'], inserted for every closing brace. *)
Definition insert_before_brace (repl content : pystr) : pystr :=
  str_replace1 "}"%char (ch_tab :: repl ++ [ch_nl; "}"%char]) content.

(** The outcome of the update loop: the new content and the number of
    settings counted as applied, an exception, or a key outside the
    modelled regex fragment. *)
Inductive loop_res : Type :=
  | LOk (content : pystr) (applied : nat)
  | LRaise (e : pyexc)
  | LOutside.

(** The body of the loop for one non-metadata key (lines 158-182). *)
Definition update_one (k : pystr) (v : pyval) (content : pystr) (applied : nat) : loop_res :=
  match key_atoms k with
  | None => LOutside
  | Some ks =>
      let repl := replacement k (setting_str v) in
      match search ks content with
      | Some m =>
          if bool_decide (group0 content m = repl) then LOk content applied
          else match re_sub ks repl content with
               | POk c' => LOk c' (S applied)
               | PErr e => LRaise e
               end
      | None => LOk (insert_before_brace repl content) (S applied)
      end
  end.

(** Lines 154-182: the loop over [preset_data.items()]. *)
Fixpoint update_settings (items : preset) (content : pystr) (applied : nat) : loop_res :=
  match items with
  | [] => LOk content applied
  | (k, v) :: rest =>
      if skip_key k then update_settings rest content applied
      else match update_one k v content applied with
           | LOk c' n => update_settings rest c' n
           | r => r
           end
  end.

(** ** Backup and restore (lines 205-250) *)

Definition backup_path_for (cfg ts : pystr) : pystr := cfg ++ lit ".backup_" ++ ts.

(** [backup_config(backup_path)] (lines 205-228): the backup path, or
    [None] when the config is missing or [shutil.copy2] raises (the
    exception is caught; what the failed copy wrote stays). *)
Definition backup_config (a : cs2_adapter) (backup_path : option pystr) (ts : pystr)
    (flt : faults) (m : fs) : option pystr * fs :=
  match config_path a with
  | None => (None, m)
  | Some cfg =>
      if bool_decide (is_Some (m !! cfg)) then
        let bp := default (backup_path_for cfg ts) backup_path in
        match copy2 flt cfg bp m with
        | (POk _, m') => (Some bp, m')
        | (PErr _, m') => (None, m')
        end
      else (None, m)
  end.

(** [restore_backup(backup_path)] (lines 230-250): copy the backup over
    the config; [False] when the backup is missing or the copy raises
    ([copy2(src, None)] raises [TypeError] for an adapter without
    config path). *)
Definition restore_backup (a : cs2_adapter) (bp : pystr) (flt : faults) (m : fs) : bool * fs :=
  if bool_decide (is_Some (m !! bp)) then
    match config_path a with
    | None => (false, m)
    | Some cfg =>
        match copy2 flt bp cfg m with
        | (POk _, m') => (true, m')
        | (PErr _, m') => (false, m')
        end
    end
  else (false, m).

(** ** [apply_preset] (lines 115-203) *)

Definition required_settings : list pystr :=
  [lit "setting.defaultres"; lit "setting.defaultresheight"].

(** Line 136: [[s for s in required_settings if s not in preset_data]],
    evaluated in order; the first [in] that raises propagates. *)
Fixpoint missing_settings (d : loaded) (req : list pystr) : pyres (list pystr) :=
  match req with
  | [] => POk []
  | s :: rest =>
      match contains d s with
      | PErr e => PErr e
      | POk b =>
          match missing_settings d rest with
          | PErr e => PErr e
          | POk r => POk (if b then r else s :: r)
          end
      end
  end.

(** Lines 194-201, the [except] branch: restore the backup if one was
    made, and return [False]. *)
Definition on_error (a : cs2_adapter) (bp : option pystr) (flt : faults) (m : fs) : pyres bool * fs :=
  (POk false, match bp with Some b => (restore_backup a b flt m).2 | None => m end).

(** The [try] block (lines 148-201) on the filesystem after the backup
    [bp]: read the config, run the loop over [preset_data.items()]
    ([AttributeError] for data that is not a dict), write the result
    when a setting was counted; an exception goes to [on_error]. *)
Definition patch_config (a : cs2_adapter) (cfg : pystr) (data : loaded) (bp : option pystr)
    (flt : faults) (m : fs) : option (pyres bool * fs) :=
  match m !! cfg, data with
  | None, _ => Some (on_error a bp flt m)
  | Some content, LDict p =>
      match update_settings p content 0 with
      | LOutside => None
      | LRaise _ => Some (on_error a bp flt m)
      | LOk c' n =>
          if bool_decide (0 < n) then
            match write_file flt cfg c' m with
            | (POk _, m2) => Some (POk true, m2)
            | (PErr _, m2) => Some (on_error a bp flt m2)
            end
          else Some (POk true, m)
      end
  | Some _, _ => Some (on_error a bp flt m)
  end.

(** [apply_preset(preset_data, backup)] (lines 115-203): [None] when a
    reached key is outside the modelled regex fragment; otherwise the
    result (an exception escapes from line 136 only) and the new
    filesystem. *)
Definition apply_preset (a : cs2_adapter) (data : loaded) (backup : bool) (ts : pystr)
    (flt : faults) (m : fs) : option (pyres bool * fs) :=
  match config_path a with
  | None => Some (POk false, m)
  | Some cfg =>
      if bool_decide (is_Some (m !! cfg)) then
        if negb (truthy data) then Some (POk false, m) else
        match missing_settings data required_settings with
        | PErr e => Some (PErr e, m)
        | POk (_ :: _) => Some (POk false, m)
        | POk [] =>
            if backup then
              match backup_config a None ts flt m with
              | (None, m1) => Some (POk false, m1)
              | (Some b, m1) => patch_config a cfg data (Some b) flt m1
              end
            else patch_config a cfg data None flt m
        end
      else Some (POk false, m)
  end.

(** The setting the adapter sees in a config: [re.search(pattern,
    config_content).group(0)] (lines 172-175). *)
Definition current_setting (ks : list katom) (content : pystr) : option pystr :=
  group0 content <$> search ks content.

(** ** Lemmas *)

Lemma replacement_lang k ks sv :
  key_atoms k = Some ks -> Forall (fun c => not_quote c = true) sv ->
  setting_lang ks (replacement k sv).
Proof.
  intros Hk Hsv. exists k, [ch_tab; ch_tab], sv. unfold replacement.
  split_and!; [by list_norm | by apply key_atoms_ok | done | repeat constructor | done].
Qed.

Lemma replacement_no_bslash k ks sv :
  key_atoms k = Some ks -> ch_bslash ∉ sv -> ch_bslash ∉ replacement k sv.
Proof.
  intros Hk%key_atoms_no_bslash Hsv. unfold replacement.
  repeat (rewrite not_elem_of_cons || rewrite not_elem_of_app).
  split_and!; (done || discriminate || set_solver).
Qed.

Lemma no_quote_forall (s : pystr) : ch_dquote ∉ s -> Forall (fun c => not_quote c = true) s.
Proof. intros H. apply Forall_forall. intros c Hc. apply not_quote_iff. intros ->. done. Qed.

(** [re.sub] with a replacement without backslash, at the leftmost
    match [(i, m)]. *)
Lemma re_sub_plain ks repl c i m :
  ch_bslash ∉ repl -> search ks c = Some (i, m) ->
  re_sub ks repl c = POk (take i c ++ repl ++ sub_all ks (TChar <$> repl) (drop (i + m) c)).
Proof.
  intros Hr Hs. unfold re_sub, parse_template. rewrite parse_tmpl_plain by (done || lia).
  simpl. by rewrite (sub_all_search _ _ _ _ _ Hs), expand_plain.
Qed.

(** After the rewrite at the leftmost match, the leftmost match is the
    new line, whatever follows it. *)
Lemma search_after_sub ks k sv c i m R :
  key_atoms k = Some ks -> ch_dquote ∉ k -> Forall (fun x => py_isspace x = false) k ->
  ch_dquote ∉ sv -> search ks c = Some (i, m) ->
  search ks (take i c ++ replacement k sv ++ R) = Some (i, length (replacement k sv)).
Proof.
  intros Hk Hkq Hks Hsv Hs. pose proof (search_bound _ _ _ _ Hs) as Hbd.
  unfold search in *. rewrite search_from_Some, !Nat.sub_0_r in *.
  destruct Hs as (_ & _ & Hm & Hb).
  assert (length (take i c) = i) as Hlen by (rewrite length_take; lia).
  split_and!; [lia | rewrite length_app; lia | |].
  - rewrite drop_app_length' by done. apply match_setting_word.
    apply replacement_lang; [done | by apply no_quote_forall].
  - intros j Hj. rewrite drop_app_le by lia. unfold replacement. list_norm.
    eapply (match_after_rewrite_none _ _ _ (drop i c) _ _ m);
      [by apply key_atoms_ok | by apply no_quote_forall | done | done | lia |].
    rewrite take_drop. by apply Hb.
Qed.

(** ** Lemmas on the handler *)

Lemma backup_path_ne cfg ts : backup_path_for cfg ts <> cfg.
Proof.
  unfold backup_path_for. intros H. apply (f_equal length) in H.
  rewrite !length_app in H. simpl in H. lia.
Qed.

Lemma backup_path_ne' cfg ts : cfg <> backup_path_for cfg ts.
Proof. apply not_eq_sym, backup_path_ne. Qed.

#[export] Hint Resolve backup_path_ne backup_path_ne' : katana.

(** *** Writing and copying *)

Lemma write_file_accepts flt p c m :
  accepts flt p c = true -> write_file flt p c m = (POk tt, <[p := c]> m).
Proof. unfold accepts, write_file. destruct (flt !! p) as [[|room]|]; intros H; [done | by rewrite H | done]. Qed.

Lemma write_file_POk flt p c m u m' : write_file flt p c m = (POk u, m') -> m' = <[p := c]> m.
Proof. unfold write_file. destruct (flt !! p) as [[|room]|]; [| case_bool_decide |]; by intros; simplify_eq. Qed.

(** A write changes no file but its own, whether it raises or not. *)
Lemma write_file_frame flt p c m r m' q : write_file flt p c m = (r, m') -> q <> p -> m' !! q = m !! q.
Proof.
  unfold write_file. intros H Hq. destruct (flt !! p) as [[|room]|]; [| case_bool_decide |];
    simplify_eq; by rewrite ?lookup_insert_ne by congruence.
Qed.

Lemma copy2_accepts flt src dst m c :
  m !! src = Some c -> src <> dst -> accepts flt dst c = true -> copy2 flt src dst m = (POk tt, <[dst := c]> m).
Proof. intros Hs Hne Ha. unfold copy2. rewrite Hs, bool_decide_eq_false_2 by done. by apply write_file_accepts. Qed.

Lemma copy2_POk flt src dst m u m' :
  copy2 flt src dst m = (POk u, m') -> exists c, m !! src = Some c /\ m' = <[dst := c]> m.
Proof.
  unfold copy2. destruct (m !! src) as [c|]; [| done]. case_bool_decide; [done |].
  intros ->%write_file_POk. eauto.
Qed.

Lemma copy2_frame flt src dst m r m' q : copy2 flt src dst m = (r, m') -> q <> dst -> m' !! q = m !! q.
Proof.
  unfold copy2. destruct (m !! src); [case_bool_decide; [by intros; simplify_eq | apply write_file_frame] |].
  by intros; simplify_eq.
Qed.

(** *** Backup and restore *)

(** [backup_config] writes the timestamped path only, and when it
    answers a path that file holds the config. *)
Lemma backup_config_cases a cfg ts flt m bp m1 :
  config_path a = Some cfg -> backup_config a None ts flt m = (bp, m1) ->
  (forall q, q <> backup_path_for cfg ts -> m1 !! q = m !! q) /\
  (forall b, bp = Some b -> b = backup_path_for cfg ts /\ m1 !! b = m !! cfg).
Proof.
  intros Ha. unfold backup_config. rewrite Ha. case_bool_decide; [| by intros; simplify_eq].
  cbn [default]. destruct (copy2 _ _ _ _) as [[u|e] m'] eqn:E; intros; simplify_eq;
    (split; [intros q Hq; by eapply copy2_frame |]); [| done].
  intros b [= <-]. apply copy2_POk in E as (c & Hc & ->). by rewrite lookup_insert_eq.
Qed.

Lemma backup_config_ok a cfg ts flt m c0 :
  config_path a = Some cfg -> m !! cfg = Some c0 -> accepts flt (backup_path_for cfg ts) c0 = true ->
  backup_config a None ts flt m
  = (Some (backup_path_for cfg ts), <[backup_path_for cfg ts := c0]> m).
Proof.
  intros Ha Hm Hacc. unfold backup_config. rewrite Ha, bool_decide_eq_true_2 by (rewrite Hm; eauto).
  cbn [default]. by rewrite (copy2_accepts _ _ _ _ c0) by auto with katana.
Qed.

Lemma restore_backup_ok a cfg bp flt m c :
  config_path a = Some cfg -> m !! bp = Some c -> bp <> cfg -> accepts flt cfg c = true ->
  restore_backup a bp flt m = (true, <[cfg := c]> m).
Proof.
  intros Ha Hm Hne Hacc. unfold restore_backup. rewrite Ha, bool_decide_eq_true_2 by (rewrite Hm; eauto).
  by rewrite (copy2_accepts _ _ _ _ c).
Qed.

Lemma restore_backup_frame a cfg b flt m r m' q :
  config_path a = Some cfg -> restore_backup a b flt m = (r, m') -> q <> cfg -> m' !! q = m !! q.
Proof.
  intros Ha. unfold restore_backup. rewrite Ha. case_bool_decide; [| by intros; simplify_eq].
  destruct (copy2 _ _ _ _) as [[] m1] eqn:E; intros; simplify_eq; by eapply copy2_frame.
Qed.

(** *** The [except] branch and the [try] block *)

Lemma on_error_frame a cfg bp flt m r m' q :
  config_path a = Some cfg -> on_error a bp flt m = (r, m') -> q <> cfg -> m' !! q = m !! q.
Proof.
  intros Ha. unfold on_error. destruct bp as [b|]; [| by intros; simplify_eq].
  destruct (restore_backup a b flt m) as [r1 m1] eqn:E. intros; simplify_eq/=. by eapply restore_backup_frame.
Qed.

Lemma on_error_restores a cfg b flt m c0 r m' :
  config_path a = Some cfg -> m !! b = Some c0 -> b <> cfg -> accepts flt cfg c0 = true ->
  on_error a (Some b) flt m = (r, m') -> m' !! cfg = Some c0.
Proof.
  intros. unfold on_error in *. rewrite (restore_backup_ok _ cfg _ _ _ c0) in * by done.
  simplify_eq/=. apply lookup_insert_eq.
Qed.

(** The [try] block writes the config only. *)
Lemma patch_config_frame a cfg d bp flt m r m' q :
  config_path a = Some cfg -> patch_config a cfg d bp flt m = Some (r, m') -> q <> cfg -> m' !! q = m !! q.
Proof.
  intros Ha H Hq. unfold patch_config in H.
  destruct (m !! cfg) as [c|]; [destruct d |]; try (apply (inj Some) in H; by eapply on_error_frame).
  destruct (update_settings _ _ _) as [c' n| |]; [| apply (inj Some) in H; by eapply on_error_frame | done].
  case_bool_decide; [| by simplify_eq].
  destruct (write_file flt cfg c' m) as [[] m2] eqn:E; apply (inj Some) in H;
    [simplify_eq | erewrite (on_error_frame _ _ _ _ _ _ _ _ Ha H Hq)]; by eapply write_file_frame.
Qed.

(** Whenever the [try] block does not answer [True] after a backup [b]
    of [c0], the [except] branch has copied [c0] back, provided the
    disk takes it. *)
Lemma patch_config_restores a cfg d b flt m c0 r m' :
  config_path a = Some cfg -> m !! b = Some c0 -> b <> cfg -> accepts flt cfg c0 = true ->
  patch_config a cfg d (Some b) flt m = Some (r, m') -> r <> POk true -> m' !! cfg = Some c0.
Proof.
  intros Ha Hb Hne Hacc H Hr. unfold patch_config in H.
  destruct (m !! cfg) as [c|]; [destruct d |]; try (apply (inj Some) in H; by eapply on_error_restores).
  destruct (update_settings _ _ _) as [c' n| |]; [| apply (inj Some) in H; by eapply on_error_restores | done].
  case_bool_decide; [| by simplify_eq].
  destruct (write_file flt cfg c' m) as [[] m2] eqn:E; apply (inj Some) in H; [by simplify_eq |].
  eapply on_error_restores; [done | | done | done | exact H].
  rewrite (write_file_frame _ _ _ _ _ _ _ E) by done. exact Hb.
Qed.

Lemma update_one_count k v c n c1 n1 :
  update_one k v c n = LOk c1 n1 -> (c1 = c /\ n1 = n) \/ n1 = S n.
Proof.
  unfold update_one. destruct (key_atoms k); [| done].
  destruct (search _ c); [case_bool_decide; [| destruct (re_sub _ _ _)] |];
    intros Hu; simplify_eq; auto.
Qed.

(** The count of applied settings only grows, and when it does not, the
    content is the one the loop started with. *)
Lemma update_settings_count items c n c' n' :
  update_settings items c n = LOk c' n' -> n <= n' /\ (n' = n -> c' = c).
Proof.
  revert c n. induction items as [|[k v] items IH]; intros c n H; simpl in H.
  - by injection H as <- <-.
  - destruct (skip_key k); [by apply IH |].
    destruct (update_one k v c n) as [c1 n1 | |] eqn:E; try done.
    apply IH in H as [Hle Heq].
    destruct (update_one_count _ _ _ _ _ _ E) as [[-> ->] | ->]; [done |].
    split; [lia | intros; lia].
Qed.

(** The [try] block on a dict whose loop ends without exception, when
    the disk takes the result: [True], and the config holds the result. *)
Lemma patch_config_ok a cfg p bp flt m c0 c' n :
  m !! cfg = Some c0 -> update_settings p c0 0 = LOk c' n -> accepts flt cfg c' = true ->
  exists m', patch_config a cfg (LDict p) bp flt m = Some (POk true, m') /\ m' !! cfg = Some c'.
Proof.
  intros Hm Hu Hacc. unfold patch_config. rewrite Hm, Hu. case_bool_decide.
  - rewrite write_file_accepts by done. eexists. split; [done | apply lookup_insert_eq].
  - destruct (update_settings_count _ _ _ _ _ Hu) as [_ Hn0]. rewrite Hn0 by lia. eauto.
Qed.

(** A dict with both resolution keys passes the check of line 136. *)
Lemma missing_settings_dict p req :
  Forall (fun s => s ∈ p.*1) req -> missing_settings (LDict p) req = POk [].
Proof.
  induction 1 as [|s req Hs _ IH]; [done |]. cbn -[elem_of]. rewrite IH.
  by rewrite bool_decide_eq_true_2.
Qed.

(** The checks before the backup (lines 125-139), on a config that
    exists. *)
Lemma apply_preset_checked a cfg d backup ts flt m c0 :
  config_path a = Some cfg -> m !! cfg = Some c0 -> truthy d = true ->
  missing_settings d required_settings = POk [] ->
  apply_preset a d backup ts flt m =
    if backup then
      match backup_config a None ts flt m with
      | (None, m1) => Some (POk false, m1)
      | (Some b, m1) => patch_config a cfg d (Some b) flt m1
      end
    else patch_config a cfg d None flt m.
Proof.
  intros Ha Hm Ht Hms. unfold apply_preset. rewrite Ha, bool_decide_eq_true_2 by (rewrite Hm; eauto).
  by rewrite Ht, Hms.
Qed.

(** A non-empty dict with both resolution keys reaches the backup. *)
Lemma apply_preset_dict a cfg p backup ts flt m c0 :
  config_path a = Some cfg -> m !! cfg = Some c0 -> p <> [] ->
  Forall (fun s => s ∈ p.*1) required_settings ->
  apply_preset a (LDict p) backup ts flt m =
    if backup then
      match backup_config a None ts flt m with
      | (None, m1) => Some (POk false, m1)
      | (Some b, m1) => patch_config a cfg (LDict p) (Some b) flt m1
      end
    else patch_config a cfg (LDict p) None flt m.
Proof.
  intros. apply (apply_preset_checked _ _ _ _ _ _ _ c0); [done | done | by apply bool_decide_eq_true_2 |].
  by apply missing_settings_dict.
Qed.

(** A list naming both resolution keys passes the check of line 136. *)
Lemma missing_settings_list xs req :
  Forall (fun s => Some s ∈ xs) req -> missing_settings (LList xs) req = POk [].
Proof.
  induction 1 as [|s req Hs _ IH]; [done |]. cbn -[elem_of]. rewrite IH.
  by rewrite bool_decide_eq_true_2.
Qed.

(** [in] on a number or a bool raises before anything else happens. *)
Lemma apply_preset_scalar a cfg d backup ts flt m :
  config_path a = Some cfg -> is_Some (m !! cfg) -> d = LNum true \/ d = LBool true ->
  apply_preset a d backup ts flt m = Some (PErr TypeError, m).
Proof. intros Ha Hm Hd. unfold apply_preset. rewrite Ha, bool_decide_eq_true_2 by done. by destruct Hd as [-> | ->]. Qed.

Local Ltac early_answer :=
  left; match goal with H : _ = Some (_, _) |- _ => cbn [negb] in H; injection H as <- <- end;
  split; [discriminate | done].

(** What [apply_preset] does before the [try] block leaves the config
    alone; its early answers are never [True]. *)
Lemma apply_preset_early a cfg d backup ts flt m r m' :
  config_path a = Some cfg -> apply_preset a d backup ts flt m = Some (r, m') ->
  (r <> POk true /\ m' = m) \/
  exists c0, m !! cfg = Some c0 /\ truthy d = true /\ missing_settings d required_settings = POk [] /\
    ((backup = true /\ exists m1, backup_config a None ts flt m = (None, m1) /\ r = POk false /\ m' = m1) \/
     (backup = true /\ exists m1, backup_config a None ts flt m = (Some (backup_path_for cfg ts), m1) /\
        m1 !! backup_path_for cfg ts = Some c0 /\ patch_config a cfg d (Some (backup_path_for cfg ts)) flt m1 = Some (r, m')) \/
     (backup = false /\ patch_config a cfg d None flt m = Some (r, m'))).
Proof.
  intros Ha H. unfold apply_preset in H. rewrite Ha in H.
  case_bool_decide as Hc; [| by early_answer]. destruct Hc as [c0 Hm].
  destruct (truthy d) eqn:Ht; [| by early_answer].
  destruct (missing_settings d _) as [[|? ?]|] eqn:Hms; try by early_answer.
  right. exists c0. split_and!; [done | done | done |].
  destruct backup; [| by right; right].
  destruct (backup_config a None ts flt m) as [[b|] m1] eqn:Hb;
    destruct (backup_config_cases _ _ _ _ _ _ _ Ha Hb) as [_ Hbp]; [right; left | left; split; [done |]; exists m1; cbn in H; injection H as <- <-; by split_and!].
  destruct (Hbp b eq_refl) as [-> Hb1]. split; [done |]. exists m1. by rewrite Hb1, Hm.
Qed.

(** ** Properties *)

(** C1: after the loop body of [CS2PresetAdapter.apply_preset]
    handles a setting whose pattern already occurs in the config, the
    first occurrence of the pattern (what [re.search] finds on the next
    run) is exactly the line [Q<key>Q<tab><tab>Q<value>Q] of the preset,
    whether the line was already there or [re.sub] rewrote it.  This
    holds for keys without quote or space and values without quote or
    backslash; no other match is created before it. *)
Theorem update_one_in_effect k v ks c n c' n' :
  key_atoms k = Some ks ->
  ch_dquote ∉ k -> Forall (fun x => py_isspace x = false) k ->
  ch_dquote ∉ setting_str v -> ch_bslash ∉ setting_str v ->
  is_Some (search ks c) ->
  update_one k v c n = LOk c' n' ->
  current_setting ks c' = Some (replacement k (setting_str v)).
Proof.
  intros Hk Hkq Hks Hq Hb [[i m] Hs] Hu. unfold update_one in Hu. rewrite Hk, Hs in Hu.
  remember (replacement k (setting_str v)) as repl eqn:Er.
  unfold current_setting. case_bool_decide as Heq.
  - injection Hu as <- _. by rewrite Hs, <- Heq.
  - assert (ch_bslash ∉ repl) as Hr by (subst; by eapply replacement_no_bslash).
    rewrite (re_sub_plain _ _ _ _ _ Hr Hs) in Hu. injection Hu as <- _.
    pose proof (search_bound _ _ _ _ Hs).
    rewrite Er, (search_after_sub _ _ _ _ _ m) by done. rewrite <- Er.
    cbn [fmap option_fmap option_map]. unfold group0. cbn [fst snd].
    rewrite drop_app_length' by (rewrite length_take; lia). by rewrite take_app_length.
Qed.

(** With [backup=True], whenever [apply_preset] does not answer [True]
    (missing file, falsy data, missing resolution keys, a [TypeError] of
    the key check, a failed backup, or an exception in the [try] block,
    a failed write included, after which the backup is copied back), the
    config file holds what it held before the call, provided the disk
    takes the config's own content back.  This is the law the preset
    manager relies on ([PresetManager.PresetAdapterLaws]). *)
Lemma apply_preset_false_keeps_config a d ts flt m m' r cfg :
  config_path a = Some cfg -> (forall c0, m !! cfg = Some c0 -> accepts flt cfg c0 = true) ->
  apply_preset a d true ts flt m = Some (r, m') -> r <> POk true -> m' !! cfg = m !! cfg.
Proof.
  intros Ha Hfit H Hr. destruct (apply_preset_early _ _ _ _ _ _ _ _ _ Ha H)
    as [[_ ->] | (c0 & Hm & _ & _ & [(_ & m1 & Hb & -> & ->) | [(_ & m1 & Hb & Hb1 & Hp) | [[=] _]]])]; [done | |].
  - destruct (backup_config_cases _ _ _ _ _ _ _ Ha Hb) as [Hfr _]. auto with katana.
  - rewrite Hm. eapply patch_config_restores; eauto with katana.
Qed.

(** C3: with [backup=True], whenever [apply_preset] leaves the
    config different from what it held, the backup file
    [<config>.backup_<ts>] holds the original content. *)
Theorem apply_preset_backup_before_change a d ts flt m m' r cfg c0 :
  config_path a = Some cfg -> m !! cfg = Some c0 ->
  apply_preset a d true ts flt m = Some (r, m') -> m' !! cfg <> Some c0 ->
  m' !! backup_path_for cfg ts = Some c0.
Proof.
  intros Ha Hm H Hch. destruct (apply_preset_early _ _ _ _ _ _ _ _ _ Ha H)
    as [[_ ->] | (c1 & Hm1 & _ & _ & [(_ & m1 & Hb & -> & ->) | [(_ & m1 & Hb & Hb1 & Hp) | [[=] _]]])]; [done | |].
  - destruct (backup_config_cases _ _ _ _ _ _ _ Ha Hb) as [Hfr _].
    by rewrite Hfr in Hch by auto with katana.
  - rewrite (patch_config_frame _ _ _ _ _ _ _ _ _ Ha Hp) by auto with katana. congruence.
Qed.

(** C4: [apply_preset] changes no file but the config and its
    backup [<config>.backup_<ts>], whether it succeeds, fails or raises. *)
Theorem apply_preset_frame a d backup ts flt m m' r cfg path :
  config_path a = Some cfg -> apply_preset a d backup ts flt m = Some (r, m') ->
  path <> cfg -> path <> backup_path_for cfg ts -> m' !! path = m !! path.
Proof.
  intros Ha H Hp1 Hp2. destruct (apply_preset_early _ _ _ _ _ _ _ _ _ Ha H)
    as [[_ ->] | (c0 & _ & _ & _ & [(_ & m1 & Hb & -> & ->) | [(_ & m1 & Hb & _ & Hp) | (_ & Hp)]])];
    [done | | | by eapply patch_config_frame];
    destruct (backup_config_cases _ _ _ _ _ _ _ Ha Hb) as [Hfr _]; [by apply Hfr |].
  rewrite (patch_config_frame _ _ _ _ _ _ _ _ _ Ha Hp) by done. by apply Hfr.
Qed.

(** C5: when the config exists, the preset is a non-empty object
    with both resolution keys, the update loop ends without exception,
    and the disk takes the backup and the new config, [apply_preset]
    returns [True] and the config holds the loop's result (written only
    when a setting was counted). *)
Theorem apply_preset_success a p backup ts flt m cfg c0 c' n :
  config_path a = Some cfg -> m !! cfg = Some c0 -> p <> [] ->
  Forall (fun s => s ∈ p.*1) required_settings ->
  update_settings p c0 0 = LOk c' n ->
  (backup = true -> accepts flt (backup_path_for cfg ts) c0 = true) -> accepts flt cfg c' = true ->
  exists m', apply_preset a (LDict p) backup ts flt m = Some (POk true, m') /\ m' !! cfg = Some c'.
Proof.
  intros Ha Hm Hp Hreq Hu Hbk Hacc. rewrite (apply_preset_dict _ cfg _ _ _ _ _ c0) by done.
  destruct backup; [| by eapply patch_config_ok].
  rewrite (backup_config_ok _ cfg _ _ _ c0) by auto.
  eapply patch_config_ok; [| exact Hu | exact Hacc]. by rewrite lookup_insert_ne by auto with katana.
Qed.

(** C6: restoring the backup that [backup_config] made brings the
    config back to its content at backup time, whatever happened to the
    config since, as long as the backup file is untouched and the disk
    takes that content at the config's path. *)
Theorem backup_restore_roundtrip a ts flt m m2 cfg c0 bp m1 :
  config_path a = Some cfg -> m !! cfg = Some c0 ->
  backup_config a None ts flt m = (Some bp, m1) -> m2 !! bp = m1 !! bp -> accepts flt cfg c0 = true ->
  exists m3, restore_backup a bp flt m2 = (true, m3) /\ m3 !! cfg = Some c0.
Proof.
  intros Ha Hm Hb H2 Hacc. destruct (backup_config_cases _ _ _ _ _ _ _ Ha Hb) as [_ Hbp].
  destruct (Hbp bp eq_refl) as [-> Hb1]. rewrite Hb1, Hm in H2.
  rewrite (restore_backup_ok _ cfg _ _ _ c0) by auto with katana.
  eexists. split; [done | apply lookup_insert_eq].
Qed.

(** C7: with [backup=False], a write that the disk cuts short (no
    space left for the new content) leaves the config truncated to what
    the disk took, and [apply_preset] answers [False]: the settings file
    is damaged and nothing restores it. *)
Theorem apply_preset_no_backup_truncates a p ts flt m cfg c0 c' n room :
  config_path a = Some cfg -> m !! cfg = Some c0 -> p <> [] ->
  Forall (fun s => s ∈ p.*1) required_settings ->
  update_settings p c0 0 = LOk c' (S n) ->
  flt !! cfg = Some (NoSpace room) -> room < length c' ->
  apply_preset a (LDict p) false ts flt m = Some (POk false, <[cfg := take room c']> m).
Proof.
  intros Ha Hm Hp Hreq Hu Hf Hr. rewrite (apply_preset_dict _ cfg _ _ _ _ _ c0) by done.
  unfold patch_config, write_file. rewrite Hm, Hu, Hf, bool_decide_eq_true_2, bool_decide_eq_false_2 by lia.
  done.
Qed.

(** C8: a preset file whose JSON is an array naming both resolution
    keys passes the checks of lines 130-139 and gets past the backup;
    [preset_data.items()] then raises [AttributeError], the backup is
    copied back and [apply_preset] answers [False], leaving the backup
    file behind. *)
Theorem apply_preset_list_leaves_backup a xs ts flt m cfg c0 :
  config_path a = Some cfg -> m !! cfg = Some c0 ->
  Forall (fun s => Some s ∈ xs) required_settings ->
  accepts flt (backup_path_for cfg ts) c0 = true -> accepts flt cfg c0 = true ->
  apply_preset a (LList xs) true ts flt m
  = Some (POk false, <[cfg := c0]> (<[backup_path_for cfg ts := c0]> m)).
Proof.
  intros Ha Hm Hxs Hb Hc. pose proof Hxs as Hne. inversion Hne as [|s ? Hs _].
  rewrite (apply_preset_checked _ cfg _ _ _ _ _ c0) by
    (done || (apply bool_decide_eq_true_2; intros ->; by apply not_elem_of_nil in Hs) || by apply missing_settings_list).
  rewrite (backup_config_ok _ cfg _ _ _ c0) by done.
  unfold patch_config. rewrite lookup_insert_ne by auto with katana. rewrite Hm. unfold on_error. cbn [snd].
  by rewrite (restore_backup_ok _ cfg _ _ _ c0) by (done || apply lookup_insert_eq || auto with katana).
Qed.

(** The line [apply_preset] inserts for an absent setting (line 181). *)
Definition new_line (k : pystr) (v : pyval) : pystr :=
  ch_tab :: replacement k (setting_str v) ++ [ch_nl; "}"%char].

Lemma update_one_absent k v ks c n :
  key_atoms k = Some ks -> search ks c = None ->
  update_one k v c n = LOk (str_replace1 "}"%char (new_line k v) c) (S n).
Proof. intros Hk Hs. unfold update_one. by rewrite Hk, Hs. Qed.

(** A setting whose pattern does not occur in a config with a
    single closing brace is inserted as the line
    [<tab>Q<key>Q<tab><tab>Q<value>Q<newline>] right before that brace,
    and nothing else changes. *)
Theorem update_one_absent_brace k v ks n pre post :
  key_atoms k = Some ks -> search ks (pre ++ "}"%char :: post) = None ->
  "}"%char ∉ pre -> "}"%char ∉ post ->
  update_one k v (pre ++ "}"%char :: post) n
  = LOk (pre ++ ch_tab :: replacement k (setting_str v) ++ ch_nl :: "}"%char :: post) (S n).
Proof.
  intros Hk Hs Hpre Hpost. rewrite (update_one_absent _ _ ks) by done.
  change ("}"%char :: post) with (["}"%char] ++ post).
  autorewrite with katana_rw.
  rewrite (str_replace1_absent _ _ pre), (str_replace1_absent _ _ post) by done.
  unfold new_line. by rewrite <- app_comm_cons, <- app_assoc.
Qed.

(** C36: [str.replace] replaces every closing brace, so in a
    config with two closing braces (a nested block) an absent setting is
    inserted twice, once before each brace. *)
Theorem update_one_absent_two_braces k v ks n pre mid post :
  key_atoms k = Some ks ->
  search ks (pre ++ "}"%char :: mid ++ "}"%char :: post) = None ->
  "}"%char ∉ pre -> "}"%char ∉ mid -> "}"%char ∉ post ->
  update_one k v (pre ++ "}"%char :: mid ++ "}"%char :: post) n
  = LOk (pre ++ new_line k v ++ mid ++ new_line k v ++ post) (S n).
Proof.
  intros Hk Hs Hpre Hmid Hpost. rewrite (update_one_absent _ _ ks) by done.
  change (pre ++ "}"%char :: mid ++ "}"%char :: post)
    with (pre ++ ["}"%char] ++ mid ++ ["}"%char] ++ post).
  autorewrite with katana_rw.
  by rewrite (str_replace1_absent _ _ pre), (str_replace1_absent _ _ mid),
    (str_replace1_absent _ _ post).
Qed.

(** C37: in a config without closing brace an absent setting is
    not inserted, yet it is counted as applied: the content is unchanged
    and the counter grows, so [apply_preset] reports success. *)
Theorem update_one_absent_no_brace k v ks c n :
  key_atoms k = Some ks -> search ks c = None -> "}"%char ∉ c ->
  update_one k v c n = LOk c (S n).
Proof.
  intros Hk Hs Hc. rewrite (update_one_absent _ _ ks) by done.
  by rewrite str_replace1_absent.
Qed.

(** C35: [re.sub] reads the replacement line as a template,
    so a preset value with a backslash before an ASCII letter that is no
    escape (a Windows path such as [C:\Users]) makes the loop raise when
    the setting is present with another value; [apply_preset] then
    restores the backup and returns [False]. *)
Theorem update_one_bad_escape k v ks c n m a e b :
  key_atoms k = Some ks -> search ks c = Some m ->
  group0 c m <> replacement k (setting_str v) ->
  setting_str v = a ++ ch_bslash :: e :: b -> ch_bslash ∉ a ->
  e <> "g"%char -> ascii_letter e = true -> escape_char e = None ->
  update_one k v c n = LRaise ReError.
Proof.
  intros Hk Hs Hne Hv Ha He Hl Hesc. unfold update_one. rewrite Hk, Hs.
  rewrite bool_decide_eq_false_2 by done. unfold re_sub, parse_template.
  unfold replacement. rewrite Hv.
  replace (ch_dquote :: k ++ ch_dquote :: ch_tab :: ch_tab :: ch_dquote :: (a ++ ch_bslash :: e :: b) ++ [ch_dquote])
    with ((ch_dquote :: k ++ ch_dquote :: ch_tab :: ch_tab :: ch_dquote :: a) ++ ch_bslash :: e :: b ++ [ch_dquote])
    by list_norm.
  rewrite parse_tmpl_bad_escape; [done | len_norm; lia | | done | done | done].
  pose proof (key_atoms_no_bslash _ _ Hk).
  repeat (rewrite not_elem_of_cons || rewrite not_elem_of_app).
  split_and!; (done || discriminate).
Qed.

(** ** Witnesses

    A CS2 video config with one resolution line, and what the adapter
    makes of it. *)

Definition ex_key : pystr := lit "setting.defaultres".
Definition ex_ks : list katom := Eval vm_compute in default [] (key_atoms ex_key).
Definition ex_cfg : pystr :=
  lit "video" ++ [ch_nl] ++ lit "{" ++ [ch_nl; ch_tab] ++ replacement ex_key (lit "1280")
  ++ [ch_nl] ++ lit "}".
Definition ex_cfg' : pystr :=
  Eval vm_compute in match update_one ex_key (VInt 1920) ex_cfg 0 with LOk c _ => c | _ => [] end.

Lemma update_one_in_effect_witness :
  current_setting ex_ks ex_cfg' = Some (replacement ex_key (setting_str (VInt 1920))).
Proof.
  apply (update_one_in_effect ex_key (VInt 1920) ex_ks ex_cfg 0 ex_cfg' 1);
    [reflexivity | decide_true | decide_true | decide_true | decide_true | decide_true
    | vm_compute; reflexivity].
Defined.

Definition ex_path : pystr := lit "C:/Steam/userdata/1/730/local/cfg/cs2_video.txt".
Definition ex_adapter : cs2_adapter := {| config_path := Some ex_path |}.
Definition ex_fs : fs := {[ ex_path := ex_cfg ]}.
Definition ex_ts : pystr := lit "20261109_120000".
Definition ex_preset : preset :=
  [(lit "name", VStr (lit "1080p High")); (ex_key, VInt 1920);
   (lit "setting.defaultresheight", VInt 1080); (lit "setting.mat_vsync", VBool false)].
Definition ex_bad_preset : preset :=
  [(ex_key, VStr (lit "C:\Users")); (lit "setting.defaultresheight", VInt 1080)].

(** A disk that takes every write, and one with room for 20
    characters only at the config's path. *)
Definition ex_disk : faults := ∅.
Definition ex_full : faults := {[ ex_path := NoSpace 20 ]}.

Definition ex_fs_ok : fs :=
  Eval vm_compute in (default (POk false, ∅) (apply_preset ex_adapter (LDict ex_preset) true ex_ts ex_disk ex_fs)).2.
Lemma apply_preset_backup_before_change_witness :
  ex_fs_ok !! backup_path_for ex_path ex_ts = Some ex_cfg.
Proof.
  apply (apply_preset_backup_before_change ex_adapter (LDict ex_preset) ex_ts ex_disk ex_fs ex_fs_ok (POk true));
    [reflexivity | reflexivity | decide_true | decide_true].
Defined.

Lemma apply_preset_frame_witness : ex_fs_ok !! lit "autoexec.cfg" = ex_fs !! lit "autoexec.cfg".
Proof.
  apply (apply_preset_frame ex_adapter (LDict ex_preset) true ex_ts ex_disk ex_fs ex_fs_ok (POk true) ex_path);
    [reflexivity | decide_true | decide_true | decide_true].
Defined.

Definition ex_cfg_ok : pystr :=
  Eval vm_compute in match update_settings ex_preset ex_cfg 0 with LOk c _ => c | _ => [] end.

Lemma apply_preset_success_witness :
  exists m', apply_preset ex_adapter (LDict ex_preset) true ex_ts ex_disk ex_fs = Some (POk true, m')
             /\ m' !! ex_path = Some ex_cfg_ok.
Proof.
  apply (apply_preset_success ex_adapter ex_preset true ex_ts ex_disk ex_fs ex_path ex_cfg ex_cfg_ok 3);
    [reflexivity | reflexivity | decide_true | decide_true | vm_compute; reflexivity | intros _; reflexivity
    | reflexivity].
Defined.

(** Without a backup, on the full disk: the config keeps its first 20
    characters. *)
Lemma apply_preset_no_backup_truncates_witness :
  apply_preset ex_adapter (LDict ex_preset) false ex_ts ex_full ex_fs
  = Some (POk false, <[ex_path := take 20 ex_cfg_ok]> ex_fs).
Proof.
  apply (apply_preset_no_backup_truncates ex_adapter ex_preset ex_ts ex_full ex_fs ex_path ex_cfg ex_cfg_ok 2 20);
    [reflexivity | reflexivity | decide_true | decide_true | vm_compute; reflexivity | reflexivity
    | apply Nat.ltb_lt; vm_compute; reflexivity].
Defined.

(** The array [["setting.defaultres", "setting.defaultresheight"]]. *)
Definition ex_list : list (option pystr) := [Some ex_key; Some (lit "setting.defaultresheight")].

Lemma apply_preset_list_leaves_backup_witness :
  apply_preset ex_adapter (LList ex_list) true ex_ts ex_disk ex_fs
  = Some (POk false, <[ex_path := ex_cfg]> (<[backup_path_for ex_path ex_ts := ex_cfg]> ex_fs)).
Proof.
  apply (apply_preset_list_leaves_backup ex_adapter ex_list ex_ts ex_disk ex_fs ex_path ex_cfg);
    [reflexivity | reflexivity | decide_true | reflexivity | reflexivity].
Defined.

Definition ex_fs_backup : fs := Eval vm_compute in (backup_config ex_adapter None ex_ts ex_disk ex_fs).2.

Lemma backup_restore_roundtrip_witness :
  exists m3, restore_backup ex_adapter (backup_path_for ex_path ex_ts) ex_disk
               (<[ex_path := lit "garbage"]> ex_fs_backup) = (true, m3)
             /\ m3 !! ex_path = Some ex_cfg.
Proof.
  apply (backup_restore_roundtrip ex_adapter ex_ts ex_disk ex_fs _ ex_path ex_cfg _ ex_fs_backup);
    [reflexivity | reflexivity | decide_true | decide_true | reflexivity].
Defined.

Definition ex_vsync : pystr := lit "setting.mat_vsync".
Definition ex_vsync_ks : list katom := Eval vm_compute in default [] (key_atoms ex_vsync).
Definition ex_pre : pystr :=
  lit "video" ++ [ch_nl] ++ lit "{" ++ [ch_nl; ch_tab] ++ replacement ex_key (lit "1280") ++ [ch_nl].
Definition ex_mid : pystr := [ch_nl; ch_tab] ++ lit "{" ++ [ch_nl].

Lemma update_one_absent_brace_witness :
  update_one ex_vsync (VBool false) (ex_pre ++ "}"%char :: []) 0
  = LOk (ex_pre ++ ch_tab :: replacement ex_vsync (setting_str (VBool false))
         ++ ch_nl :: "}"%char :: []) 1.
Proof.
  apply (update_one_absent_brace _ _ ex_vsync_ks);
    [reflexivity | vm_compute; reflexivity | decide_true | decide_true].
Defined.

Lemma update_one_absent_two_braces_witness :
  update_one ex_vsync (VBool false) (ex_pre ++ "}"%char :: ex_mid ++ "}"%char :: []) 0
  = LOk (ex_pre ++ new_line ex_vsync (VBool false) ++ ex_mid
         ++ new_line ex_vsync (VBool false) ++ []) 1.
Proof.
  apply (update_one_absent_two_braces _ _ ex_vsync_ks);
    [reflexivity | vm_compute; reflexivity | decide_true | decide_true | decide_true].
Defined.

Lemma update_one_absent_no_brace_witness :
  update_one ex_vsync (VBool false) ex_pre 0 = LOk ex_pre 1.
Proof.
  apply (update_one_absent_no_brace _ _ ex_vsync_ks);
    [reflexivity | vm_compute; reflexivity | decide_true].
Defined.

Definition ex_match : nat * nat := Eval vm_compute in default (0, 0) (search ex_ks ex_cfg).

Lemma update_one_bad_escape_witness :
  update_one ex_key (VStr (lit "C:\Users")) ex_cfg 0 = LRaise ReError.
Proof.
  apply (update_one_bad_escape _ _ ex_ks _ _ ex_match (lit "C:") "U"%char (lit "sers"));
    [reflexivity | vm_compute; reflexivity | decide_true | reflexivity | decide_true
    | decide_true | reflexivity | reflexivity].
Defined.

End CS2PresetAdapter.
