(* ===== verification/Cs2Locate.v ===== *)
(** * Cs2Locate: where [CS2PresetAdapter()] finds the CS2 config

    [CS2PresetAdapter.__init__], [_find_config_path] and
    [_find_steam_path] of [katana/games/cs2/presets.py] (lines 19-113).
    The host is data: the operating system, the Steam path in the
    registry, the home directory, the paths that exist and the entries of
    each directory in [iterdir] order.  A path is its text with [/]
    between components ([Path(a) / b]).  The contents of the config file
    are not part of the host: [Cs2Preset] reads them from its filesystem
    map [fs] under the path found here. *)

From S2P Require Import Prelude PyStr Regex Cs2Preset.

Module CS2Locate.
Import CS2PresetAdapter.

Record host : Type := {
  os_is_nt : bool;                     (** [os.name == 'nt'] *)
  registry_steam_path : option pystr;  (** [QueryValueEx(HKCU\Software\Valve\Steam, SteamPath)]; [None]: it raises *)
  home_dir : option pystr;             (** [Path.home()]; [None]: it raises *)
  existing : gset pystr;               (** the files that exist *)
  directories : gmap pystr (list pystr) (** each directory and its entries, in [iterdir] order *)
}.

(** [Path(p) / c] *)
Definition path_div (p c : pystr) : pystr := p ++ "/"%char :: c.

Definition is_dir (h : host) (p : pystr) : bool := bool_decide (is_Some (directories h !! p)).

(** [Path.exists()]: a file or a directory. *)
Definition path_exists (h : host) (p : pystr) : bool := bool_decide (p ∈ existing h) || is_dir h p.

(** The first path of the list that exists ([for path in ...: if
    path.exists(): return path]). *)
Fixpoint first_existing (h : host) (l : list pystr) : option pystr :=
  match l with
  | [] => None
  | p :: rest => if path_exists h p then Some p else first_existing h rest
  end.

(** [common_paths] of [_find_steam_path] (lines 95-102). *)
Definition common_paths (home : pystr) : list pystr :=
  [path_div home (lit ".steam/steam"); path_div home (lit "Library/Application Support/Steam");
   lit "C:/Program Files (x86)/Steam"; lit "C:/Program Files/Steam";
   lit "D:/Program Files (x86)/Steam"; lit "D:/Program Files/Steam"].

(** [_find_steam_path] (lines 77-113): on Windows the registry value,
    returned without checking that it exists; otherwise (or when the
    registry raises) the first common location that exists.  An
    exception of [Path.home()] is caught by the outer [try]: [None]. *)
Definition find_steam_path (h : host) : option pystr :=
  match (if os_is_nt h then registry_steam_path h else None) with
  | Some p => Some p
  | None =>
      match home_dir h with
      | None => None
      | Some home => first_existing h (common_paths home)
      end
  end.

(** The config files tried in a user directory, in order (lines 64-74). *)
Definition cfg_candidates (user_dir : pystr) : list pystr :=
  let cfg := path_div (path_div (path_div user_dir (lit "730")) (lit "local")) (lit "cfg") in
  [path_div cfg (lit "cs2_video.txt"); path_div cfg (lit "video.cfg"); path_div cfg (lit "video.txt")].

(** The loop over [userdata_path.iterdir()] (lines 58-74): the first
    user directory with a config file decides. *)
Fixpoint scan_users (h : host) (userdata : pystr) (entries : list pystr) : option pystr :=
  match entries with
  | [] => None
  | u :: rest =>
      let user_dir := path_div userdata u in
      if is_dir h user_dir then
        match first_existing h (cfg_candidates user_dir) with
        | Some p => Some p
        | None => scan_users h userdata rest
        end
      else scan_users h userdata rest
  end.

(** [_find_config_path] (lines 36-75).  [iterdir()] on a [userdata]
    that is a file raises [NotADirectoryError], which nothing catches. *)
Definition find_config_path (h : host) : pyres (option pystr) :=
  match find_steam_path h with
  | None => POk None
  | Some steam_path =>
      let userdata_path := path_div steam_path (lit "userdata") in
      if negb (path_exists h userdata_path) then POk None else
      match directories h !! userdata_path with
      | None => PErr OSError
      | Some entries => POk (scan_users h userdata_path entries)
      end
  end.

(** [CS2PresetAdapter(config_path)] (lines 19-34, with
    [PresetAdapter.__init__], lines 154-161 of [core/presets.py]): an
    empty or absent path is searched for. *)
Definition new_adapter (h : host) (config_path : option pystr) : pyres cs2_adapter :=
  match config_path with
  | Some ((_ :: _) as p) => POk {| config_path := Some p |}
  | _ => found ← find_config_path h; POk {| config_path := found |}
  end.

(** ** Lemmas *)

Lemma first_existing_Some h l p :
  first_existing h l = Some p -> p ∈ l /\ path_exists h p = true.
Proof.
  induction l as [|q l IH]; cbn; [done |].
  destruct (path_exists h q) eqn:E; [intros [= Hqp]; subst q; split; [left | done] |].
  intros (? & ?)%IH. split; [by right | done].
Qed.

(** What [scan_users] returns is a config candidate of a user directory
    of [userdata], and it exists. *)
Lemma scan_users_Some h userdata entries p :
  scan_users h userdata entries = Some p ->
  path_exists h p = true /\
  exists u, u ∈ entries /\ is_dir h (path_div userdata u) = true /\ p ∈ cfg_candidates (path_div userdata u).
Proof.
  induction entries as [|u rest IH]; cbn [scan_users]; [done |]. cbv zeta.
  destruct (is_dir h (path_div userdata u)) eqn:Hd.
  - destruct (first_existing h (cfg_candidates (path_div userdata u))) as [q|] eqn:Hq.
    + intros [= Hqp]. subst q. apply first_existing_Some in Hq as [Hin Hex]. split; [done |].
      exists u. split_and!; [left | done | done].
    + intros (? & u' & ? & ? & ?)%IH. split; [done |]. exists u'. split_and!; [by right | done | done].
  - intros (? & u' & ? & ? & ?)%IH. split; [done |]. exists u'. split_and!; [by right | done | done].
Qed.

(** ** Properties *)

(** C27: a config path the search returns exists, and is one of
    [cs2_video.txt], [video.cfg], [video.txt] under [730/local/cfg] of a
    user directory of the Steam installation's [userdata]. *)
Theorem find_config_path_found h p :
  find_config_path h = POk (Some p) ->
  path_exists h p = true /\
  exists steam_path u, find_steam_path h = Some steam_path /\
    is_dir h (path_div (path_div steam_path (lit "userdata")) u) = true /\
    p ∈ cfg_candidates (path_div (path_div steam_path (lit "userdata")) u).
Proof.
  unfold find_config_path. destruct (find_steam_path h) as [steam|] eqn:Hs; [| done].
  destruct (path_exists h _); cbn; [| done].
  destruct (directories h !! _) as [entries|]; [| done].
  intros [= (? & u & _ & ? & ?)%scan_users_Some]. split; [done |]. by exists steam, u.
Qed.

(** On Windows, a Steam path in the registry is taken without
    checking it: when it has no [userdata] (Steam was moved or removed),
    no config is found, whatever the common locations hold. *)
Theorem find_config_path_stale_registry h r :
  os_is_nt h = true -> registry_steam_path h = Some r ->
  path_exists h (path_div r (lit "userdata")) = false ->
  find_config_path h = POk None.
Proof. intros Hnt Hr Hu. unfold find_config_path, find_steam_path. by rewrite Hnt, Hr, Hu. Qed.

(** ** Examples *)

Definition ex_steam : pystr := lit "C:/Steam".

(** A Windows host whose registry names the Steam installation holding
    [ex_path] for the user directory [1]. *)
Definition ex_host : host := {|
  os_is_nt := true; registry_steam_path := Some ex_steam; home_dir := Some (lit "C:/Users/u");
  existing := {[ ex_path ]};
  directories := {[ path_div ex_steam (lit "userdata") := [lit "1"] ]}
                 ∪ {[ path_div (path_div ex_steam (lit "userdata")) (lit "1") := [lit "730"] ]}
|}.

(** The same disk, with a registry entry left from an old installation. *)
Definition ex_stale_host : host := {|
  os_is_nt := true; registry_steam_path := Some (lit "E:/Steam"); home_dir := Some (lit "C:/Users/u");
  existing := existing ex_host; directories := directories ex_host
|}.

Lemma find_config_path_found_witness :
  path_exists ex_host ex_path = true /\
  exists steam_path u, find_steam_path ex_host = Some steam_path /\
    is_dir ex_host (path_div (path_div steam_path (lit "userdata")) u) = true /\
    ex_path ∈ cfg_candidates (path_div (path_div steam_path (lit "userdata")) u).
Proof. apply find_config_path_found. vm_compute. reflexivity. Defined.

(** The config under [C:/Steam] is not found. *)
Lemma find_config_path_stale_registry_witness :
  find_config_path ex_stale_host = POk None /\ find_config_path ex_host = POk (Some ex_path).
Proof.
  split; [apply (find_config_path_stale_registry _ (lit "E:/Steam")); vm_compute; reflexivity |].
  vm_compute. reflexivity.
Defined.

End CS2Locate.
