(* ===== verification/PresetManager.v ===== *)
(** * PresetManager: the preset manager and the adapter interface

    [katana/core/presets.py]: the abstract class [PresetAdapter]
    (lines 151-197) is the typeclass [PresetAdapter] with the law
    [PresetAdapterLaws] the manager relies on; [PresetManager] (lines
    14-148) is the Section [Manager] of [Module PresetManager], generic in
    the adapter type, and [get_preset_manager] of [katana/main.py]
    (lines 209-225) builds it with the CS2 adapter, whose instance of the
    interface is discharged by the lemmas of [Cs2Preset].

    The presets directory is a [preset_store]: which game directories
    exist, the parsed [presets.json] of each game and the parsed
    [<preset_id>.json] files.  JSON parsing is not modelled: a preset
    file is what [json.load] returns for it ([loaded]: an object, an
    array, a string, a number, a bool or [null]), or [None] when
    [json.load] raises. *)

From S2P Require Import Prelude PyStr Regex Cs2Preset Cs2Locate.

(** ** The adapter interface ([class PresetAdapter], lines 151-197)

    The three abstract methods and the [config_path] attribute set by
    [__init__].  [adapter_apply a p backup ts m] is
    [a.apply_preset(p, backup=backup)] run at time stamp [ts] on the
    filesystem [m] of a disk with the write faults [flt]; [None] is a
    run that leaves the modelled fragment. *)
Class PresetAdapter (A : Type) := {
  adapter_config : A -> option pystr;
  adapter_apply : A -> loaded -> bool -> pystr -> faults -> fs -> option (pyres bool * fs);
  adapter_backup : A -> option pystr -> pystr -> faults -> fs -> option pystr * fs;
  adapter_restore : A -> pystr -> faults -> fs -> bool * fs
}.

(** What the manager relies on: an adapter asked for a backup that does
    not answer [True] has left its config file as it found it, on a disk
    that takes the config's own content back. *)
Class PresetAdapterLaws (A : Type) `{PresetAdapter A} := {
  adapter_false_keeps_config a d ts flt m m' r cfg :
    adapter_config a = Some cfg -> (forall c0, m !! cfg = Some c0 -> accepts flt cfg c0 = true) ->
    adapter_apply a d true ts flt m = Some (r, m') -> r <> POk true -> m' !! cfg = m !! cfg
}.

(** ** The CS2 adapter implements the interface

    [CS2PresetAdapter] (games/cs2/presets.py) overrides the three
    abstract methods; its law is [apply_preset_false_keeps_config] of
    [Cs2Preset]. *)
#[export] Instance cs2_preset_adapter : PresetAdapter CS2PresetAdapter.cs2_adapter := {|
  adapter_config := CS2PresetAdapter.config_path;
  adapter_apply := CS2PresetAdapter.apply_preset;
  adapter_backup := CS2PresetAdapter.backup_config;
  adapter_restore := CS2PresetAdapter.restore_backup
|}.

#[export] Instance cs2_preset_adapter_laws : PresetAdapterLaws CS2PresetAdapter.cs2_adapter.
Proof. constructor. exact CS2PresetAdapter.apply_preset_false_keeps_config. Qed.

(** ** The presets directory *)
Record preset_store : Type := {
  game_dirs : gset pystr;                                   (** [presets_dir / game_id] exists *)
  index_files : gmap pystr (option (list (pystr * pystr))); (** [presets.json]: its [presets] items *)
  preset_files : gmap (pystr * pystr) (option loaded)       (** [<preset_id>.json] of a game *)
}.

Module PresetManager.
Section Manager.
Context {A : Type} `{PresetAdapter A}.

(** [self.adapters]; [presets_dir] is the store the operations take. *)
Record manager : Type := { adapters : gmap pystr A }.

(** [__init__] (lines 17-24). *)
Definition empty_manager : manager := {| adapters := ∅ |}.

(** [register_adapter] (lines 26-34). *)
Definition register_adapter (pm : manager) (game_id : pystr) (adapter : A) : manager :=
  {| adapters := <[game_id := adapter]> (adapters pm) |}.

(** [get_available_presets] (lines 36-72): the entries of [presets.json]
    whose file exists, in order; [{}] when the directory or the index is
    missing or the index does not load. *)
Definition get_available_presets (st : preset_store) (game_id : pystr) : list (pystr * pystr) :=
  if bool_decide (game_id ∈ game_dirs st) then
    match index_files st !! game_id with
    | Some (Some presets) => filter (fun e => is_Some (preset_files st !! (game_id, e.1))) presets
    | _ => []
    end
  else [].

(** [get_preset_data] (lines 74-95): what [json.load] returns, [{}]
    when the file is missing or does not load. *)
Definition get_preset_data (st : preset_store) (game_id preset_id : pystr) : loaded :=
  match preset_files st !! (game_id, preset_id) with
  | Some (Some d) => d
  | _ => LDict []
  end.

(** [apply_preset] (lines 97-148): whatever loaded and is truthy goes
    to the adapter; its result (or exception) is the manager's. *)
Definition apply_preset (pm : manager) (st : preset_store) (game_id preset_id : pystr)
    (backup : bool) (ts : pystr) (flt : faults) (m : fs) : option (pyres bool * fs) :=
  match adapters pm !! game_id with
  | None => Some (POk false, m)
  | Some adapter =>
      if bool_decide (is_Some (preset_files st !! (game_id, preset_id))) then
        let preset_data := get_preset_data st game_id preset_id in
        if negb (truthy preset_data) then Some (POk false, m)
        else adapter_apply adapter preset_data backup ts flt m
      else Some (POk false, m)
  end.

End Manager.

(** [get_preset_manager(game_id)] of [katana/main.py] (lines 209-225):
    for CS2, [CS2PresetAdapter()] searches the host for the config file
    ([CS2Locate.new_adapter]), and an exception of that search
    propagates. *)
Definition get_preset_manager (h : CS2Locate.host) (game_id : pystr)
    : pyres (manager (A := CS2PresetAdapter.cs2_adapter)) :=
  if bool_decide (py_lower game_id = lit "cs2")
  then adapter ← CS2Locate.new_adapter h None; mret (register_adapter empty_manager (lit "cs2") adapter)
  else mret empty_manager.

(** ** Lemmas *)

Section Lemmas.
Context {A : Type} `{PresetAdapter A}.

(** The manager's answer before it calls the adapter. *)
Lemma apply_preset_cases pm st g pid b ts flt m r :
  apply_preset pm st g pid b ts flt m = r ->
  r = Some (POk false, m) \/
  exists a d, adapters pm !! g = Some a /\ preset_files st !! (g, pid) = Some (Some d) /\
              truthy d = true /\ r = adapter_apply a d b ts flt m.
Proof.
  unfold apply_preset, get_preset_data. intros <-.
  destruct (adapters pm !! g) as [a|]; [| by left].
  destruct (preset_files st !! (g, pid)) as [[d|]|] eqn:Hf; case_bool_decide; try by left.
  destruct (truthy d) eqn:Ht; [| by left]. right. by exists a, d.
Qed.

End Lemmas.

(** The manager [get_preset_manager] builds has no adapter but under the
    literal ["cs2"]. *)
Lemma get_preset_manager_adapters h g pm g' :
  get_preset_manager h g = POk pm -> g' <> lit "cs2" -> adapters pm !! g' = None.
Proof.
  unfold get_preset_manager. intros E Hg'. case_bool_decide.
  - destruct (CS2Locate.new_adapter h None); cbn in E; [| done].
    injection E as <-. unfold register_adapter, empty_manager. cbn [adapters].
    rewrite lookup_insert_ne; [apply lookup_empty | intros <-; by apply Hg'].
  - by injection E as <-.
Qed.

(** Every preset [get_available_presets] lists has its file. *)
Lemma get_available_presets_files st g q :
  q ∈ (get_available_presets st g).*1 -> is_Some (preset_files st !! (g, q)).
Proof.
  intros ([q' nm] & -> & He)%list_elem_of_fmap. revert He. unfold get_available_presets.
  case_bool_decide; [destruct (index_files st !! g) as [[l|]|] |]; rewrite ?list_elem_of_filter;
    [by intros [? _] | by rewrite elem_of_nil .. ].
Qed.

(** ** Properties *)

(** C30: [get_available_presets] lists exactly the entries of the
    game's [presets.json] whose preset file exists, and nothing when the
    game directory or the index is missing or unreadable. *)
Theorem get_available_presets_spec st g e :
  e ∈ get_available_presets st g <->
  g ∈ game_dirs st /\ (exists l, index_files st !! g = Some (Some l) /\ e ∈ l) /\
  is_Some (preset_files st !! (g, e.1)).
Proof.
  unfold get_available_presets.
  case_bool_decide as Hg; [destruct (index_files st !! g) as [[l|]|] |];
    rewrite ?list_elem_of_filter, ?elem_of_nil; split; try tauto.
  - intros [Hf Hl]. eauto.
  - intros (_ & (l' & [= <-] & Hl) & Hf). done.
  - by intros (_ & (l' & [=] & _) & _).
  - by intros (_ & (l' & [=] & _) & _).
Qed.

Section Properties.
Context {A : Type} `{PresetAdapterLaws A}.

(** C2: when the manager's [apply_preset] (asked for a backup, as
    [main] asks) does not answer [True] (it answers [False] or raises),
    the config file of the game's registered adapter holds what it held
    before, on a disk that takes the config's own content back: proved
    from the adapter law alone, so for every adapter that satisfies it.
    For the CS2 adapter the law rests on the [except] branch copying the
    backup back after a failed write. *)
Theorem manager_false_keeps_config pm st g pid ts flt m m' r a cfg :
  adapters pm !! g = Some a -> adapter_config a = Some cfg ->
  (forall c0, m !! cfg = Some c0 -> accepts flt cfg c0 = true) ->
  apply_preset pm st g pid true ts flt m = Some (r, m') -> r <> POk true -> m' !! cfg = m !! cfg.
Proof.
  intros Ha Hc Hfit Hr Hnt. destruct (apply_preset_cases _ _ _ _ _ _ _ _ _ Hr)
    as [[= -> ->] | (a' & d & Ha' & _ & _ & Hd)]; [done |].
  rewrite Ha in Ha'. simplify_eq. by eapply adapter_false_keeps_config.
Qed.


(** C29: with no adapter for the game, no preset file, or a preset
    file whose JSON does not load or is falsy ([{}], [[]], [""], [0],
    [false], [null]), the manager returns [False] without calling the
    adapter and touches no file. *)
Theorem apply_preset_rejects pm st g pid b ts flt m :
  adapters pm !! g = None \/ preset_files st !! (g, pid) = None \/
  truthy (get_preset_data st g pid) = false ->
  apply_preset pm st g pid b ts flt m = Some (POk false, m).
Proof.
  intros Hno. destruct (apply_preset_cases pm st g pid b ts flt m _ eq_refl)
    as [-> | (a & d & Ha & Hf & Hd & _)]; [done |].
  unfold get_preset_data in Hno. rewrite Hf in Hno. destruct Hno as [Hn | [Hn | Hn]]; congruence.
Qed.

End Properties.

(** C38: [get_preset_manager] registers the CS2 adapter under the
    literal ["cs2"], although it recognises the game case-insensitively:
    for every game id other than ["cs2"] (["CS2"] included) the manager
    it builds refuses to apply any preset. *)
Theorem get_preset_manager_case h g pm st pid b ts flt m :
  g <> lit "cs2" -> get_preset_manager h g = POk pm -> apply_preset pm st g pid b ts flt m = Some (POk false, m).
Proof. intros Hg E. unfold apply_preset. by rewrite (get_preset_manager_adapters h g pm g E Hg). Qed.

(** ** Witnesses *)

Definition ex_game : pystr := lit "cs2".
(** The manager [get_preset_manager] builds once the search has found
    [ex_path]. *)
Definition ex_manager : manager := register_adapter empty_manager ex_game CS2PresetAdapter.ex_adapter.
Definition ex_store : preset_store := {|
  game_dirs := {[ ex_game ]};
  index_files := {[ ex_game := Some [(lit "high", lit "High"); (lit "bad", lit "Bad");
                                      (lit "ghost", lit "Missing"); (lit "broken", lit "Broken");
                                      (lit "zero", lit "Zero")] ]};
  preset_files := {[ (ex_game, lit "high") := Some (LDict CS2PresetAdapter.ex_preset) ]}
                  ∪ {[ (ex_game, lit "bad") := Some (LDict CS2PresetAdapter.ex_bad_preset) ]}
                  ∪ {[ (ex_game, lit "broken") := None ]}
                  ∪ {[ (ex_game, lit "zero") := Some (LNum false) ]}
                  ∪ {[ (ex_game, lit "scale") := Some (LNum true) ]}
|}.

(** [bad] sets a Windows path: the loop raises, the backup goes back. *)
Definition ex_fs_bad : fs := Eval vm_compute in
  (default (POk true, ∅) (apply_preset ex_manager ex_store ex_game (lit "bad") true
                        CS2PresetAdapter.ex_ts CS2PresetAdapter.ex_disk CS2PresetAdapter.ex_fs)).2.

Lemma manager_false_keeps_config_witness :
  ex_fs_bad !! CS2PresetAdapter.ex_path = CS2PresetAdapter.ex_fs !! CS2PresetAdapter.ex_path.
Proof.
  apply (manager_false_keeps_config ex_manager ex_store ex_game (lit "bad")
           CS2PresetAdapter.ex_ts CS2PresetAdapter.ex_disk CS2PresetAdapter.ex_fs ex_fs_bad (POk false)
           {| CS2PresetAdapter.config_path := Some CS2PresetAdapter.ex_path |});
    [reflexivity | reflexivity | intros c0 _; reflexivity | decide_true | discriminate].
Defined.


(** A file that does not load, a file holding [0], and no file. *)
Lemma apply_preset_rejects_witness :
  Forall (fun pid => apply_preset ex_manager ex_store ex_game pid true CS2PresetAdapter.ex_ts
                       CS2PresetAdapter.ex_disk CS2PresetAdapter.ex_fs
                     = Some (POk false, CS2PresetAdapter.ex_fs))
    [lit "broken"; lit "zero"; lit "ghost"].
Proof.
  constructor; [apply apply_preset_rejects; right; right; reflexivity |].
  constructor; [apply apply_preset_rejects; right; right; reflexivity |].
  constructor; [apply apply_preset_rejects; right; left; reflexivity | constructor].
Defined.

(** A host with no Steam installation: the adapter is built with no
    config path. *)
Definition ex_no_steam : CS2Locate.host := {|
  CS2Locate.os_is_nt := false; CS2Locate.registry_steam_path := None; CS2Locate.home_dir := Some (lit "/home/u");
  CS2Locate.existing := ∅; CS2Locate.directories := ∅ |}.

Lemma get_preset_manager_case_witness :
  apply_preset (register_adapter empty_manager (lit "cs2") {| CS2PresetAdapter.config_path := None |})
    ex_store (lit "CS2") (lit "high") true CS2PresetAdapter.ex_ts CS2PresetAdapter.ex_disk CS2PresetAdapter.ex_fs
  = Some (POk false, CS2PresetAdapter.ex_fs).
Proof. apply (get_preset_manager_case ex_no_steam); [discriminate | reflexivity]. Defined.

End PresetManager.
