(* ===== verification/Factory.v ===== *)
(** * Factory: [GameFactory] of [katana/factory.py]

    The games package is data: the entries of [katana/games/] as
    [iterdir] lists them, and for each importable module its [__dict__]
    in insertion order, each attribute a class (abstract or not), a
    function or another value.  [create_benchmark] is modelled down to
    which attribute it calls; [get_available_presets], [get_preset_data]
    and [apply_preset] read the same [preset_store] as [PresetManager]. *)

From S2P Require Import Prelude PyStr Cs2Preset PresetManager.

Module GameFactory.

(** ** The games package *)

(** A module attribute: a class, [abstract] when it still has abstract
    methods ([GameBenchmark], [PresetAdapter]); a function; anything
    else (modules, strings, loggers). *)
Inductive attr : Type :=
  | AClass (abstract : bool)
  | AFunc
  | AOther.

(** [module.__dict__], in insertion order. *)
Definition module_dict : Type := list (pystr * attr).

Record games_pkg : Type := {
  entries : list (pystr * bool * bool);      (** [iterdir()]: name, [is_dir()], [benchmark.py] exists *)
  bench_modules : gmap pystr module_dict;   (** [katana.games.<id>.benchmark] imports *)
  preset_modules : gmap pystr module_dict   (** [katana.games.<id>.presets] imports *)
}.

(** [hasattr(module, name)] / [getattr(module, name)]. *)
Definition getattr (md : module_dict) (name : pystr) : option attr :=
  (fun ie : nat * (pystr * attr) => ie.2.2) <$> list_find (fun e => e.1 = name) md.

Definition hasattr (md : module_dict) (name : pystr) : bool := bool_decide (is_Some (getattr md name)).

(** A name computed by [str.upper()] or [str.title()]: [None] when it
    leaves Latin-1, and then no attribute of the module has it. *)
Definition hasattr_opt (md : module_dict) (name : option pystr) : bool :=
  match name with Some n => hasattr md n | None => false end.

(** [get_available_games] (lines 17-30). *)
Definition get_available_games (pkg : games_pkg) : list pystr :=
  (fun e => e.1.1) <$> filter (fun e => e.1.2 && e.2 = true) (entries pkg).

(** [benchmark_class()]: instantiating an abstract class raises
    [TypeError], and so does calling a value that is not callable. *)
Definition instantiate (name : pystr) (a : attr) : pyres pystr :=
  match a with
  | AClass false | AFunc => POk name
  | AClass true | AOther => PErr TypeError
  end.

(** The fallback loop (lines 62-69): the first class whose name contains
    [Benchmark]. *)
Definition first_benchmark_class (md : module_dict) : option (pystr * attr) :=
  (fun ie : nat * (pystr * attr) => ie.2) <$>
    list_find (fun e => (if e.2 is AClass _ then true else false) && str_contains (lit "Benchmark") e.1 = true) md.

(** [create_benchmark] (lines 33-80): the name of the attribute it
    calls.  A failed import becomes [ValueError]; every other exception,
    the [ValueError] of line 69 included, propagates. *)
Definition create_benchmark (pkg : games_pkg) (game_id : pystr) : pyres pystr :=
  let game_id := py_lower game_id in
  match bench_modules pkg !! game_id with
  | None => PErr ValueError
  | Some md =>
      let upper_name := (fun u => u ++ lit "Benchmark") <$> py_upper game_id in
      let class_name :=
        if hasattr_opt md upper_name then upper_name
        else (fun t => t ++ lit "Benchmark") <$> py_title game_id in
      match class_name ≫= fun n => pair n <$> getattr md n with
      | Some (n, a) => instantiate n a
      | None =>
          match first_benchmark_class md with
          | Some (n, a) => instantiate n a
          | None => PErr ValueError
          end
      end
  end.

(** [GameFactory.get_available_presets] (lines 83-111): the [presets]
    items of [presets.json], lowered game id, no check of the preset
    files. *)
Definition get_available_presets (st : preset_store) (game_id : pystr) : list (pystr * pystr) :=
  let game_id := py_lower game_id in
  if bool_decide (game_id ∈ game_dirs st) then
    match index_files st !! game_id with
    | Some (Some presets) => presets
    | _ => []
    end
  else [].

(** [GameFactory.get_preset_data] (lines 114-137). *)
Definition get_preset_data (st : preset_store) (game_id preset_id : pystr) : loaded :=
  match preset_files st !! (py_lower game_id, preset_id) with
  | Some (Some d) => d
  | _ => LDict []
  end.

(** A benchmark object as [apply_preset] sees it: its bound
    [apply_preset] method, when it has one. *)
Record benchmark_obj : Type := { bench_apply_preset : option (loaded -> bool) }.

Section ApplyPreset.
(** The module-level [apply_preset(preset_data)] of a game's presets
    module, when it has one: its result, [None] when it raises. *)
Variable module_apply_preset : pystr -> loaded -> option bool.

(** [GameFactory.apply_preset] (lines 140-179); the module path uses the
    game id as given, not lowered. *)
Definition apply_preset (pkg : games_pkg) (st : preset_store) (game_id preset_id : pystr)
    (benchmark : option benchmark_obj) : bool :=
  let preset_data := get_preset_data st game_id preset_id in
  if negb (truthy preset_data) then false else
  match benchmark ≫= bench_apply_preset with
  | Some f => f preset_data
  | None =>
      match preset_modules pkg !! game_id with
      | None => false
      | Some md =>
          if hasattr md (lit "apply_preset") then
            match module_apply_preset game_id preset_data with
            | Some b => b
            | None => false
            end
          else false
      end
  end.
End ApplyPreset.

(** ** The package as shipped *)

(** The names [katana/games/cs2/benchmark.py] binds before its class
    (lines 6-16), in the order they enter the module's namespace (the
    module's own dunder entries, none of them a class, are left out):
    the header a game module copies to subclass [GameBenchmark]. *)
Definition benchmark_module_imports : module_dict :=
  [(lit "time", AOther); (lit "logging", AOther); (lit "pyautogui", AOther); (lit "Path", AClass false);
   (lit "GameBenchmark", AClass true); (lit "BenchmarkResult", AClass false);
   (lit "ImageDetector", AClass false); (lit "GameInteractor", AClass false);
   (lit "GAME_ID", AOther); (lit "GAME_NAME", AOther); (lit "WINDOW_TITLE", AOther);
   (lit "REQUIRED_ASSETS", AOther); (lit "CONFIG", AOther); (lit "logger", AOther)].

(** The module with its class [CS2Benchmark] (line 18). *)
Definition cs2_benchmark_module : module_dict :=
  benchmark_module_imports ++ [(lit "CS2Benchmark", AClass false)].

(** [katana/games/cs2/presets.py] (lines 6-16): no module-level
    [apply_preset]. *)
Definition cs2_presets_module : module_dict :=
  [(lit "time", AOther); (lit "logging", AOther); (lit "re", AOther); (lit "shutil", AOther);
   (lit "Path", AClass false); (lit "PresetAdapter", AClass true); (lit "logger", AOther);
   (lit "CS2PresetAdapter", AClass false)].

(** [katana/games/] as the repository has it: the [cs2] package, with
    its [benchmark.py] and [presets.py], assuming [katana.core.detection]
    importable. *)
Definition repo_pkg : games_pkg := {|
  entries := [(lit "cs2", true, true)];
  bench_modules := {[ lit "cs2" := cs2_benchmark_module ]};
  preset_modules := {[ lit "cs2" := cs2_presets_module ]}
|}.

(** ** Names and lookups *)

Lemma lower_char_idem c : lower_char (lower_char c) = lower_char c.
Proof. destruct c as [[] [] [] [] [] [] [] []]; reflexivity. Qed.

Lemma py_lower_idem s : py_lower (py_lower s) = py_lower s.
Proof. unfold py_lower. rewrite map_map. apply map_ext, lower_char_idem. Qed.

(** [create_benchmark] lowers the id first. *)
Lemma create_benchmark_lower pkg g : create_benchmark pkg (py_lower g) = create_benchmark pkg g.
Proof. unfold create_benchmark. by rewrite py_lower_idem. Qed.

Lemma not_suffix_neq (x name suf : pystr) : ¬ suf `suffix_of` name -> name ≠ x ++ suf.
Proof. intros Hn ->. apply Hn. by exists x. Qed.

(** [skip_name]: an entry whose name does not end with the name looked
    up is passed over. *)
Ltac skip_name :=
  match goal with
  | |- context [decide (?n = ?x ++ ?s)] =>
      let E := fresh "E" in
      destruct (decide (n = x ++ s)) as [E|_];
      [exfalso; revert E; apply not_suffix_neq, (bool_decide_eq_false_1 _); vm_compute; reflexivity |]
  end.

(** Among the names a game module imports, only [GameBenchmark] ends
    with [Benchmark]. *)
Lemma getattr_imports x cls a :
  getattr (benchmark_module_imports ++ [(cls, a)]) (x ++ lit "Benchmark") =
  if bool_decide (x ++ lit "Benchmark" = lit "GameBenchmark") then Some (AClass true)
  else if bool_decide (x ++ lit "Benchmark" = cls) then Some a else None.
Proof.
  unfold getattr. cbn [benchmark_module_imports app list_find fst].
  do 4 skip_name.
  destruct (decide (lit "GameBenchmark" = x ++ lit "Benchmark")) as [E|E].
  { by rewrite bool_decide_true by done. }
  rewrite bool_decide_false by done. cbn. do 9 skip_name.
  case_bool_decide as Ec; cbn.
  - by rewrite decide_True.
  - by rewrite decide_False.
Qed.

Lemma first_benchmark_class_imports rest :
  first_benchmark_class (benchmark_module_imports ++ rest) = Some (lit "GameBenchmark", AClass true).
Proof. reflexivity. Qed.

(** ** Properties *)

(** Whatever its case, the id of the shipped [cs2] package makes
    [create_benchmark] instantiate [CS2Benchmark]. *)
Theorem create_benchmark_cs2 g :
  py_lower g = lit "cs2" -> create_benchmark repo_pkg g = POk (lit "CS2Benchmark").
Proof. intros H. rewrite <- create_benchmark_lower, H. vm_compute. reflexivity. Qed.

(** C22: a game module laid out like [cs2/benchmark.py] whose class is
    named neither [<ID>Benchmark] nor [<Id>Benchmark] is never
    instantiated: the fallback loop takes the first class with
    [Benchmark] in its name, the imported abstract [GameBenchmark], and
    [create_benchmark] raises [TypeError]. *)
Theorem create_benchmark_fallback_abstract pkg g cls :
  bench_modules pkg !! py_lower g = Some (benchmark_module_imports ++ [(cls, AClass false)] : module_dict) ->
  (forall u, py_upper (py_lower g) = Some u -> cls <> u ++ lit "Benchmark") ->
  (forall t, py_title (py_lower g) = Some t -> cls <> t ++ lit "Benchmark") ->
  create_benchmark pkg g = PErr TypeError.
Proof.
  intros Hm Hu Ht. unfold create_benchmark. cbv zeta. rewrite Hm.
  set (md := benchmark_module_imports ++ _).
  assert (Hget : forall x, cls <> x ++ lit "Benchmark" -> getattr md (x ++ lit "Benchmark") =
    if bool_decide (x ++ lit "Benchmark" = lit "GameBenchmark") then Some (AClass true) else None).
  { intros x Hx. unfold md. rewrite getattr_imports. by rewrite (bool_decide_false (_ = cls)). }
  pose proof (first_benchmark_class_imports [(cls, AClass false)]) as Hfb. fold md in Hfb. clearbody md.
  assert (Htitle : match ((fun t => t ++ lit "Benchmark") <$> py_title (py_lower g))
                           ≫= (fun n => pair n <$> getattr md n) with
                   | Some (n, a) => instantiate n a
                   | None => match first_benchmark_class md with Some (n, a) => instantiate n a | None => PErr ValueError end
                   end = PErr TypeError).
  { destruct (py_title (py_lower g)) as [t|]; cbn -[getattr first_benchmark_class];
      [rewrite Hget by auto; case_bool_decide|]; cbn -[first_benchmark_class]; by rewrite ?Hfb. }
  destruct (py_upper (py_lower g)) as [u|]; [| exact Htitle]. cbn -[getattr first_benchmark_class].
  unfold hasattr. rewrite Hget by auto.
  destruct (decide (u ++ lit "Benchmark" = lit "GameBenchmark")) as [E|E].
  - rewrite (bool_decide_true (u ++ _ = _)) by done. cbn -[getattr].
    rewrite Hget by auto. by rewrite (bool_decide_true (u ++ _ = _)).
  - rewrite (bool_decide_false (u ++ _ = _)) by done. exact Htitle.
Qed.

(** C23: [GameFactory.apply_preset] never applies a preset in the shipped
    package when the benchmark object has no [apply_preset] method (no
    benchmark class of the repository has one): [cs2/presets.py] has no
    module-level [apply_preset], and there is no other presets module. *)
Theorem factory_apply_preset_repo_false module_apply_preset st g p b :
  b ≫= bench_apply_preset = None ->
  apply_preset module_apply_preset repo_pkg st g p b = false.
Proof.
  intros Hb. unfold apply_preset. destruct (negb _); [done |]. rewrite Hb.
  destruct (preset_modules repo_pkg !! g) as [md|] eqn:E; [| done].
  cbn [repo_pkg preset_modules] in E. apply lookup_singleton_Some in E as [_ <-]. done.
Qed.

(** ** Witnesses *)

(** A package with a game [my_game] whose class is [MyGameBenchmark]. *)
Definition ex_pkg : games_pkg := {|
  entries := [(lit "my_game", true, true)];
  bench_modules := {[ lit "my_game" := benchmark_module_imports ++ [(lit "MyGameBenchmark", AClass false)] ]};
  preset_modules := ∅
|}.

(** [neq_lit]: two distinct literal strings differ. *)
Ltac neq_lit := let E := fresh "E" in intros E; vm_compute in E; congruence.

Lemma create_benchmark_cs2_witness :
  py_lower (lit "Cs2") = lit "cs2" /\ create_benchmark repo_pkg (lit "Cs2") = POk (lit "CS2Benchmark").
Proof. split; [reflexivity | apply create_benchmark_cs2; reflexivity]. Defined.

Lemma create_benchmark_fallback_abstract_witness :
  create_benchmark ex_pkg (lit "my_game") = PErr TypeError.
Proof.
  apply (create_benchmark_fallback_abstract ex_pkg (lit "my_game") (lit "MyGameBenchmark"));
    [reflexivity | intros u Hu; vm_compute in Hu; injection Hu as <-; neq_lit
     | intros t Ht; vm_compute in Ht; injection Ht as <-; neq_lit].
Defined.

Lemma factory_apply_preset_repo_false_witness :
  apply_preset (fun _ _ => Some true) repo_pkg PresetManager.ex_store (lit "cs2") (lit "high") None = false.
Proof. apply factory_apply_preset_repo_false. reflexivity. Defined.

End GameFactory.
