(* ===== verification/World.v ===== *)
(** * World: the machine the benchmark drives

    The effects of the benchmark code, as explicit state: the clock read
    by [time.time()] and advanced by [time.sleep], the screen the
    template detector looks at, the windows [pygetwindow] finds, whether
    [pyautogui] and the disk accept a call, and the trace of what the
    program did to the machine (launches, clicks, key presses,
    screenshots, files written).

    Times are integers in milliseconds.  The clock advances only by the
    program's own sleeps: the time the GUI calls themselves take is not
    modelled, so measured durations are the differences of clock
    readings the model gives.

    [ImageDetector] ([katana/core/detection.py]) is imported by the code
    but is not part of the repository: [find_template] and
    [wait_for_template] are modelled from the specification (a template
    search on the current screen, and a search repeated every
    [check_interval] until [timeout]). *)

From S2P Require Import Prelude.

Local Open Scope Z_scope.

(** ** The machine *)

(** What [gw.getWindowsWithTitle(title)[0].activate()] leads to. *)
Inductive window_state : Type :=
  | NoWindow          (** the list of windows is empty *)
  | Activates         (** the window becomes active *)
  | StaysInactive     (** activated, but [isActive] is false *)
  | ActivateFails.    (** [activate()] raises *)

(** What the program did to the machine, in order. *)
Inductive event : Type :=
  | ELaunch (url : pystr)             (** [subprocess.Popen(['start', url], shell=True)] *)
  | ESleep (ms : Z)                   (** [time.sleep] *)
  | EFocus (title : pystr)            (** [window.activate()] *)
  | EClick (x y : Z)                  (** [pyautogui.moveTo] and [pyautogui.click] *)
  | EKey (key : pystr) (presses : Z)  (** [pyautogui.press] *)
  | EHotkey (keys : list pystr)       (** [pyautogui.hotkey] *)
  | EType (text : pystr)              (** [pyautogui.write] *)
  | EScreenshot (path : pystr)        (** [pyautogui.screenshot(path)] *)
  | EWrite (path content : pystr).    (** a result file written, with its text *)

Record world : Type := {
  clock : Z;                               (** [time.time()] *)
  screen : Z -> pystr -> option (Z * Z);   (** centre of a template on screen at a time *)
  windows : pystr -> window_state;
  gui_ok : Z -> bool;                      (** [pyautogui] does not raise at that time *)
  disk_ok : bool;                          (** files can be written *)
  stamp : Z -> pystr;                      (** [time.strftime("%Y%m%d_%H%M%S")] at a time *)
  trace : list event
}.

Definition set_clock (t : Z) (w : world) : world :=
  {| clock := t; screen := screen w; windows := windows w; gui_ok := gui_ok w;
     disk_ok := disk_ok w; stamp := stamp w; trace := trace w |}.

Definition add_event (e : event) (w : world) : world :=
  {| clock := clock w; screen := screen w; windows := windows w; gui_ok := gui_ok w;
     disk_ok := disk_ok w; stamp := stamp w; trace := trace w ++ [e] |}.

(** ** Primitive effects *)

(** [time.time()] *)
Definition now : stm world Z := fun w => (POk (clock w), w).

(** [time.strftime("%Y%m%d_%H%M%S")] *)
Definition strftime_now : stm world pystr := fun w => (POk (stamp w (clock w)), w).

(** [time.sleep(ms / 1000)]: a negative time raises [ValueError]. *)
Definition sleep (ms : Z) : stm world unit := fun w =>
  if bool_decide (ms < 0) then (PErr ValueError, w)
  else (POk tt, add_event (ESleep ms) (set_clock (clock w + ms) w)).

Definition emit (e : event) : stm world unit := fun w => (POk tt, add_event e w).

(** A [pyautogui] call: it raises (the fail-safe corner, no display)
    when the GUI does not accept calls at the current time. *)
Definition gui (e : event) : stm world unit := fun w =>
  if gui_ok w (clock w) then (POk tt, add_event e w) else (PErr OSError, w).

(** ** The polling loop

    [while time.time() - start < timeout: if probe(): return True;
    time.sleep(interval)] followed by [return False].  Each turn sleeps
    [interval], so the loop ends after at most [timeout / interval + 1]
    turns; the fuel is that bound ([poll_loop_fuel] below shows more
    fuel changes nothing). *)
Fixpoint poll_loop (fuel : nat) (probe : stm world bool) (start timeout interval : Z)
    : stm world bool :=
  match fuel with
  | O => mret false
  | S f =>
      t ← now;
      if bool_decide (t - start < timeout) then
        probe ≫= fun hit : bool =>
        if hit then mret true
        else (sleep interval;; poll_loop f probe start timeout interval)
      else mret false
  end.

Definition poll_fuel (timeout interval : Z) : nat := S (Z.to_nat (timeout / interval)).

(** ** The template detector (from the specification) *)

(** [detector.find_template(name)]: the centre of the template when it
    is on the screen now. *)
Definition find_template (name : pystr) : stm world (option (Z * Z)) := fun w =>
  (POk (screen w (clock w) name), w).

Definition found {A} (r : option A) : bool := match r with Some _ => true | None => false end.

(** [detector.wait_for_template(name, timeout, check_interval)]. *)
Definition wait_for_template (name : pystr) (timeout check_interval : Z) : stm world bool :=
  start ← now;
  poll_loop (poll_fuel timeout check_interval) (r ← find_template name; mret (found r))
    start timeout check_interval.

(** ** Lemmas *)

Lemma sleep_ok ms w :
  0 <= ms -> sleep ms w = (POk tt, add_event (ESleep ms) (set_clock (clock w + ms) w)).
Proof. intros H. unfold sleep. by rewrite bool_decide_eq_false_2 by lia. Qed.

Lemma sleep_neg ms w : ms < 0 -> sleep ms w = (PErr ValueError, w).
Proof. intros H. unfold sleep. by rewrite bool_decide_eq_true_2. Qed.

(** The turns the loop still has: [ceil (remaining / interval)]. *)
Definition turns_left (remaining interval : Z) : nat :=
  Z.to_nat ((remaining + interval - 1) / interval).

(** One turn of the polling loop lowers the turns left by one. *)
Lemma turns_left_step (rem interval : Z) (f : nat) :
  0 < interval -> 0 < rem -> (turns_left rem interval <= S f)%nat ->
  (turns_left (rem - interval) interval <= f)%nat.
Proof.
  unfold turns_left. intros Hiv Ht Hb.
  replace (rem - interval + interval - 1) with (rem + interval - 1 + (-1) * interval) by lia.
  rewrite Z.div_add by lia.
  assert (1 <= (rem + interval - 1) / interval).
  { apply Z.div_le_lower_bound; lia. }
  lia.
Qed.

Lemma turns_left_zero (rem interval : Z) :
  0 < interval -> turns_left rem interval = 0%nat -> rem <= 0.
Proof.
  unfold turns_left. intros Hiv H0.
  assert ((rem + interval - 1) / interval <= 0) by lia.
  destruct (Z_le_gt_dec rem 0) as [|Hr]; [done |].
  assert (1 <= (rem + interval - 1) / interval) by (apply Z.div_le_lower_bound; lia). lia.
Qed.

Section Poll.
Variable probe : stm world bool.
(** The probe reads the screen: it does not move the clock. *)
Hypothesis probe_clock : forall w, clock (probe w).2 = clock w.
Variables start timeout interval : Z.
Hypothesis interval_pos : 0 < interval.

Definition poll_bound (w : world) : nat := turns_left (timeout - (clock w - start)) interval.

Lemma poll_loop_exit (f : nat) (w : world) :
  timeout - (clock w - start) <= 0 -> poll_loop f probe start timeout interval w = (POk false, w).
Proof.
  intros H. destruct f; [done |]. cbn [poll_loop]. rewrite stm_bind_run. cbn.
  by rewrite bool_decide_eq_false_2 by lia.
Qed.

(** Fuel that covers the turns left changes nothing: the loop ends on
    its own condition. *)
Lemma poll_loop_fuel_eq (f1 f2 : nat) (w : world) :
  (poll_bound w <= f1)%nat -> (poll_bound w <= f2)%nat ->
  poll_loop f1 probe start timeout interval w = poll_loop f2 probe start timeout interval w.
Proof.
  unfold poll_bound. revert f2 w.
  induction f1 as [|f1 IH]; intros f2 w H1 H2.
  - rewrite (poll_loop_exit f2) by (apply (turns_left_zero _ interval); lia). done.
  - destruct f2 as [|f2].
    { rewrite (poll_loop_exit (S f1)) by (apply (turns_left_zero _ interval); lia). done. }
    cbn [poll_loop]. rewrite !stm_bind_run. cbn. case_bool_decide as Ht; [| done].
    rewrite !stm_bind_run. pose proof (probe_clock w) as Hc.
    destruct (probe w) as [[[|] | e] w'] eqn:Hp; try done.
    rewrite !stm_bind_run, sleep_ok by lia. simpl in Hc.
    apply IH; cbn [clock add_event set_clock]; rewrite Hc;
      replace (timeout - (clock w + interval - start)) with (timeout - (clock w - start) - interval) by lia;
      [apply (turns_left_step _ _ f1) | apply (turns_left_step _ _ f2)]; try lia; done.
Qed.

Lemma poll_fuel_bound (w : world) :
  start = clock w -> 0 <= timeout -> (poll_bound w <= poll_fuel timeout interval)%nat.
Proof.
  intros Hs Ht. unfold poll_bound, poll_fuel, turns_left.
  replace (timeout - (clock w - start)) with timeout by lia.
  assert ((timeout + interval - 1) / interval <= timeout / interval + 1).
  { replace (timeout + interval - 1) with (timeout - 1 + 1 * interval) by lia.
    rewrite Z.div_add by lia. pose proof (Z.div_le_mono (timeout - 1) timeout interval). lia. }
  assert (0 <= timeout / interval) by (apply Z.div_pos; lia). lia.
Qed.

(** [poll_step]: one turn of the loop in a hypothesis-free form: the
    clock is read, the probe runs, and on a miss the loop sleeps. *)
Lemma poll_loop_S (f : nat) (w : world) :
  poll_loop (S f) probe start timeout interval w =
  if bool_decide (clock w - start < timeout) then
    match probe w with
    | (POk true, w1) => (POk true, w1)
    | (POk false, w1) => poll_loop f probe start timeout interval (add_event (ESleep interval) (set_clock (clock w1 + interval) w1))
    | (PErr e, w1) => (PErr e, w1)
    end
  else (POk false, w).
Proof.
  cbn [poll_loop]. rewrite stm_bind_run. cbn. case_bool_decide; [| done].
  rewrite stm_bind_run. destruct (probe w) as [[[|] | e] w1]; [done | | done].
  by rewrite stm_bind_run, sleep_ok by lia.
Qed.

(** The loop never runs past [start + timeout + interval - 1]: the last
    probe is made before the timeout, followed by one sleep. *)
Lemma poll_loop_clock_le (f : nat) (w : world) :
  clock (poll_loop f probe start timeout interval w).2 - start
  <= Z.max (clock w - start) (timeout + interval - 1).
Proof.
  revert w. induction f as [|f IH]; intros w; [cbn; lia |].
  rewrite poll_loop_S. pose proof (probe_clock w) as Hc.
  case_bool_decide as Ht; [| cbn; lia].
  destruct (probe w) as [[[|] | e] w1]; cbn in Hc |- *; [lia | | lia].
  etransitivity; [apply IH |]. cbn. lia.
Qed.

(** With the fuel covering the turns left, [False] comes only once the
    timeout has elapsed. *)
Lemma poll_loop_false_waited (f : nat) (w : world) w' :
  (poll_bound w <= f)%nat ->
  poll_loop f probe start timeout interval w = (POk false, w') -> timeout <= clock w' - start.
Proof.
  unfold poll_bound. revert w. induction f as [|f IH]; intros w Hf.
  - intros [= <-]. pose proof (turns_left_zero (timeout - (clock w - start)) interval interval_pos ltac:(lia)). lia.
  - rewrite poll_loop_S. pose proof (probe_clock w) as Hc.
    case_bool_decide as Ht; [| intros [= <-]; lia].
    destruct (probe w) as [[[|] | e] w1]; cbn in Hc; [done | | done].
    apply IH. cbn. rewrite Hc.
    replace (timeout - (clock w + interval - start)) with (timeout - (clock w - start) - interval) by lia.
    apply turns_left_step; lia.
Qed.

End Poll.

(** The detector's probe finds a template that is on the screen at the
    time of some turn [k] still inside the timeout. *)
Lemma poll_find_hit name start timeout interval (k f : nat) w :
  0 < interval -> (k < f)%nat ->
  clock w - start + Z.of_nat k * interval < timeout ->
  is_Some (screen w (clock w + Z.of_nat k * interval) name) ->
  exists w', poll_loop f (r ← find_template name; mret (found r)) start timeout interval w = (POk true, w').
Proof.
  intros Hiv. revert f w. induction k as [|k IH]; intros [|f] w Hf Ht Hs; try lia.
  - rewrite poll_loop_S by done. rewrite bool_decide_eq_true_2 by lia.
    replace (clock w + Z.of_nat 0 * interval) with (clock w) in Hs by lia.
    destruct Hs as [p Hp]. rewrite stm_bind_run. cbn. rewrite Hp. by eexists.
  - rewrite poll_loop_S by done. rewrite bool_decide_eq_true_2 by lia. rewrite stm_bind_run. cbn.
    destruct (screen w (clock w) name); [by eexists |]. cbn.
    apply IH; cbn; [lia | lia |].
    by replace (clock w + interval + Z.of_nat k * interval) with (clock w + Z.of_nat (S k) * interval) by lia.
Qed.

(** A loop whose probe does not raise and whose interval is not negative
    does not raise. *)
Lemma poll_loop_ok (probe : stm world bool) start timeout interval (f : nat) (w : world) :
  (forall w, exists b w', probe w = (POk b, w')) -> 0 <= interval ->
  exists b w', poll_loop f probe start timeout interval w = (POk b, w').
Proof.
  intros Hp Hiv. revert w. induction f as [|f IH]; intros w; [by eexists _, _ |].
  cbn [poll_loop]. rewrite stm_bind_run. cbn. case_bool_decide; [| by eexists _, _].
  rewrite stm_bind_run. destruct (Hp w) as (b & w' & ->).
  destruct b; [by eexists _, _ |]. rewrite stm_bind_run, sleep_ok by done. apply IH.
Qed.

Lemma find_template_clock name w : clock (find_template name w).2 = clock w.
Proof. reflexivity. Qed.

(** ** Tame operations

    [world_le w w']: [w'] is a later state of the same machine: the
    environment is the same, the clock has not gone back, and the trace
    has only grown, by events other than launches.  An operation is
    [tame] when it only moves forward in this order.  Every operation of
    the interactor and of the benchmark steps is tame; only
    [GameBenchmark.launch] emits [ELaunch]. *)

Definition is_launch (e : event) : bool := match e with ELaunch _ => true | _ => false end.

Definition world_le (w w' : world) : Prop :=
  screen w' = screen w /\ windows w' = windows w /\ gui_ok w' = gui_ok w /\
  disk_ok w' = disk_ok w /\ stamp w' = stamp w /\ clock w <= clock w' /\
  exists es, trace w' = trace w ++ es /\ Forall (fun e => is_launch e = false) es.

#[export] Instance world_le_preorder : PreOrder world_le.
Proof.
  split.
  - intros w. split_and!; try done; try lia. exists []. by rewrite app_nil_r.
  - intros w1 w2 w3 (? & ? & ? & ? & ? & ? & es1 & Ht1 & Hf1) (? & ? & ? & ? & ? & ? & es2 & Ht2 & Hf2).
    split_and!; try congruence; try lia. exists (es1 ++ es2).
    rewrite Ht2, Ht1, app_assoc. split; [done |]. by apply Forall_app.
Qed.

Definition tame {A} (m : stm world A) : Prop := forall w r w', m w = (r, w') -> world_le w w'.

Create HintDb tame discriminated.

Lemma tame_ret {A} (a : A) : tame (mret a).
Proof. intros w r w' [= _ <-]. reflexivity. Qed.

Lemma tame_bind {A B} (m : stm world A) (f : A -> stm world B) :
  tame m -> (forall a, tame (f a)) -> tame (m ≫= f).
Proof.
  intros Hm Hf w r w'. rewrite stm_bind_run.
  destruct (m w) as [[a|e] w1] eqn:E; intros H.
  - etrans; [by eapply Hm | by eapply Hf].
  - injection H as _ <-. by eapply Hm.
Qed.

Lemma tame_catch {A} (m : stm world A) (h : pyexc -> stm world A) :
  tame m -> (forall e, tame (h e)) -> tame (catch m h).
Proof.
  intros Hm Hh w r w'. unfold catch.
  destruct (m w) as [[a|e] w1] eqn:E; intros H.
  - injection H as _ <-. by eapply Hm.
  - etrans; [by eapply Hm | by eapply Hh].
Qed.

Lemma tame_if {A} (b : bool) (m1 m2 : stm world A) : tame m1 -> tame m2 -> tame (if b then m1 else m2).
Proof. by destruct b. Qed.

Lemma add_event_le e w : is_launch e = false -> world_le w (add_event e w).
Proof.
  intros He. split_and!; try done; try (cbn; lia). exists [e]. split; [done | by constructor].
Qed.

Lemma tame_sleep ms : tame (sleep ms).
Proof.
  intros w r w'. unfold sleep. case_bool_decide; intros [= _ <-]; [reflexivity |].
  etrans; [| by apply add_event_le]. split_and!; try done; try (cbn; lia).
  exists []. by rewrite app_nil_r.
Qed.

Lemma tame_now : tame now.
Proof. intros w r w' [= _ <-]. reflexivity. Qed.

Lemma tame_strftime : tame strftime_now.
Proof. intros w r w' [= _ <-]. reflexivity. Qed.

Lemma tame_find name : tame (find_template name).
Proof. intros w r w' [= _ <-]. reflexivity. Qed.

Lemma tame_emit e : is_launch e = false -> tame (emit e).
Proof. intros He w r w' [= _ <-]. by apply add_event_le. Qed.

Lemma tame_gui e : is_launch e = false -> tame (gui e).
Proof.
  intros He w r w'. unfold gui. destruct (gui_ok w (clock w)); intros [= _ <-];
    [by apply add_event_le | reflexivity].
Qed.

Lemma tame_throw {A} e : tame (throw e : stm world A).
Proof. intros w r w' [= _ <-]. reflexivity. Qed.

#[export] Hint Resolve tame_ret tame_bind tame_catch tame_if tame_sleep tame_now tame_strftime
  tame_find tame_emit tame_gui tame_throw : tame.

(** [tame_tac]: split a program into its primitive operations, by the
    shape of the goal. *)
Ltac tame_tac :=
  repeat (match goal with
    | |- tame (_ ≫= _) => apply tame_bind
    | |- tame (catch _ _) => apply tame_catch
    | |- tame (if _ then _ else _) => apply tame_if
    | |- tame (mret _) => apply tame_ret
    | |- tame (sleep _) => apply tame_sleep
    | |- tame now => apply tame_now
    | |- tame strftime_now => apply tame_strftime
    | |- tame (find_template _) => apply tame_find
    | |- tame (throw _) => apply tame_throw
    | |- tame (emit _) => apply tame_emit; reflexivity
    | |- tame (gui _) => apply tame_gui; reflexivity
    | |- tame (match ?x with _ => _ end) => destruct x
    | |- tame _ => solve [eauto with tame]
    | |- forall _, tame _ => intro
    end).

Lemma tame_poll_loop (f : nat) probe start timeout interval :
  tame probe -> tame (poll_loop f probe start timeout interval).
Proof. intros Hp. induction f; cbn [poll_loop]; tame_tac. Qed.

Lemma tame_wait_for_template name timeout interval : tame (wait_for_template name timeout interval).
Proof. unfold wait_for_template. tame_tac. apply tame_poll_loop. tame_tac. Qed.

#[export] Hint Resolve tame_poll_loop tame_wait_for_template : tame.

(** ** Safe operations

    With a GUI that accepts every call, an operation is [safe] when it
    does not raise. *)

Definition gui_up (w : world) : Prop := forall t, gui_ok w t = true.

Definition safe {A} (m : stm world A) : Prop := forall w, gui_up w -> exists a w', m w = (POk a, w').

Lemma gui_up_le w w' : world_le w w' -> gui_up w -> gui_up w'.
Proof. intros (_ & _ & Hg & _) Hu t. by rewrite Hg. Qed.

Lemma safe_ret {A} (a : A) : safe (mret a).
Proof. intros w _. by eexists _, _. Qed.

Lemma safe_bind {A B} (m : stm world A) (f : A -> stm world B) :
  safe m -> tame m -> (forall a, safe (f a)) -> safe (m ≫= f).
Proof.
  intros Hs Ht Hf w Hw. destruct (Hs w Hw) as (a & w1 & E). rewrite stm_bind_run, E.
  apply Hf. eapply gui_up_le; [by eapply Ht | done].
Qed.

Lemma safe_catch {A} (m : stm world A) (h : pyexc -> stm world A) :
  tame m -> (forall e, safe (h e)) -> safe (catch m h).
Proof.
  intros Ht Hh w Hw. unfold catch. destruct (m w) as [[a|e] w1] eqn:E; [by eexists _, _ |].
  apply Hh. eapply gui_up_le; [by eapply Ht | done].
Qed.

Lemma safe_if {A} (b : bool) (m1 m2 : stm world A) : safe m1 -> safe m2 -> safe (if b then m1 else m2).
Proof. by destruct b. Qed.

Lemma safe_sleep ms : 0 <= ms -> safe (sleep ms).
Proof. intros H w _. rewrite sleep_ok by done. by eexists _, _. Qed.

Lemma safe_now : safe now.
Proof. intros w _. by eexists _, _. Qed.

Lemma safe_strftime : safe strftime_now.
Proof. intros w _. by eexists _, _. Qed.

Lemma safe_find name : safe (find_template name).
Proof. intros w _. by eexists _, _. Qed.

Lemma safe_emit e : safe (emit e).
Proof. intros w _. by eexists _, _. Qed.

Lemma safe_gui e : safe (gui e).
Proof. intros w Hw. unfold gui. rewrite Hw. by eexists _, _. Qed.

Create HintDb safe discriminated.
#[export] Hint Resolve safe_ret safe_now safe_strftime safe_find safe_emit safe_gui : safe.
#[export] Hint Extern 1 (_ <= _) => lia : safe.

(** [safe_tac]: split an operation into its primitives; the sleeps leave
    their sign to [lia]. *)
Ltac safe_tac :=
  repeat (match goal with
    | |- safe (_ ≫= _) => apply safe_bind; [| tame_tac |]
    | |- safe (catch _ _) => apply safe_catch; [tame_tac |]
    | |- safe (if _ then _ else _) => apply safe_if
    | |- safe (sleep _) => apply safe_sleep; lia
    | |- safe (match ?x with _ => _ end) => destruct x
    | |- safe _ => solve [eauto with safe]
    | |- forall _, safe _ => intro
    end).

Lemma safe_poll_loop (f : nat) probe start timeout interval :
  safe probe -> tame probe -> 0 <= interval -> safe (poll_loop f probe start timeout interval).
Proof. intros Hp Ht Hi. induction f; cbn [poll_loop]; safe_tac. Qed.

Lemma safe_wait_for_template name timeout interval :
  0 <= interval -> safe (wait_for_template name timeout interval).
Proof. intros Hi. unfold wait_for_template. safe_tac. apply safe_poll_loop; [safe_tac | tame_tac | done]. Qed.

(** The number of launches in the trace. *)
Definition launch_count (w : world) : nat := length (filter (fun e => is_launch e = true) (trace w)).

Lemma filter_launch_free (es : list event) :
  Forall (fun e => is_launch e = false) es -> filter (fun e => is_launch e = true) es = [].
Proof. induction 1; [done |]. rewrite filter_cons_False; [done | congruence]. Qed.

Lemma world_le_launch_count w w' : world_le w w' -> launch_count w' = launch_count w.
Proof.
  intros (_ & _ & _ & _ & _ & _ & es & Ht & Hf). unfold launch_count.
  by rewrite Ht, filter_app, (filter_launch_free es Hf), app_nil_r.
Qed.

Lemma launch_count_add_launch u w : launch_count (add_event (ELaunch u) w) = S (launch_count w).
Proof.
  unfold launch_count. cbn [trace add_event]. rewrite filter_app, length_app, filter_cons_True by done.
  cbn. lia.
Qed.

(** ** Properties *)

(** The polling loop ([while time.time() - start < timeout]) started
    now with its fuel [poll_fuel timeout interval] gives what it gives
    with any larger fuel: the fuel never cuts the loop short, so the
    model is the unbounded loop, which ends after at most
    [ceil (timeout / interval)] probes. *)
Theorem poll_fuel_enough probe timeout interval (f : nat) w :
  (forall w, clock (probe w).2 = clock w) -> 0 < interval -> 0 <= timeout ->
  (poll_fuel timeout interval <= f)%nat ->
  poll_loop f probe (clock w) timeout interval w
  = poll_loop (poll_fuel timeout interval) probe (clock w) timeout interval w.
Proof.
  intros Hp Hiv Ht Hf.
  pose proof (poll_fuel_bound (clock w) timeout interval Hiv w eq_refl Ht).
  apply poll_loop_fuel_eq; auto; lia.
Qed.

(** C32: the polling loop started now with its fuel returns before
    [timeout + interval] ms have passed (the last probe comes before the
    timeout, followed by one sleep), and it returns [False] only once the
    whole timeout has passed. *)
Theorem poll_loop_time probe timeout interval w r w' :
  (forall w, clock (probe w).2 = clock w) -> 0 < interval -> 0 <= timeout ->
  poll_loop (poll_fuel timeout interval) probe (clock w) timeout interval w = (r, w') ->
  clock w' < clock w + timeout + interval /\ (r = POk false -> clock w + timeout <= clock w').
Proof.
  intros Hp Hiv Ht E. split.
  - pose proof (poll_loop_clock_le probe Hp (clock w) timeout interval Hiv (poll_fuel timeout interval) w) as H.
    rewrite E in H. cbn in H. lia.
  - intros ->. pose proof (poll_fuel_bound (clock w) timeout interval Hiv w eq_refl Ht).
    apply (poll_loop_false_waited probe Hp (clock w) timeout interval Hiv) in E; [lia | done].
Qed.

(** C33: [wait_for_template] sees a template that is on the screen at
    the time of one of its probes inside the timeout: it returns [True]. *)
Theorem wait_for_template_sees name timeout interval (k : nat) w :
  0 < interval -> Z.of_nat k * interval < timeout ->
  is_Some (screen w (clock w + Z.of_nat k * interval) name) ->
  exists w', wait_for_template name timeout interval w = (POk true, w').
Proof.
  intros Hiv Hk Hs. unfold wait_for_template. rewrite stm_bind_run. cbn -[poll_loop poll_fuel].
  apply (poll_find_hit name (clock w) timeout interval k); [done | | lia | done].
  unfold poll_fuel. assert (Z.of_nat k <= timeout / interval) by (apply Z.div_le_lower_bound; lia). lia.
Qed.

(** ** Witnesses *)

Definition ex_idle_world : world := {|
  clock := 0; screen := fun _ _ => None; windows := fun _ => NoWindow;
  gui_ok := fun _ => true; disk_ok := true; stamp := fun _ => []; trace := []
|}.

Definition ex_probe : stm world bool := r ← find_template (lit "go_button.png"); mret (found r).

Lemma poll_loop_time_witness :
  clock (poll_loop (poll_fuel 15000 2000) ex_probe (clock ex_idle_world) 15000 2000 ex_idle_world).2
    < clock ex_idle_world + 15000 + 2000 /\
  ((poll_loop (poll_fuel 15000 2000) ex_probe (clock ex_idle_world) 15000 2000 ex_idle_world).1 = POk false ->
   clock ex_idle_world + 15000
   <= clock (poll_loop (poll_fuel 15000 2000) ex_probe (clock ex_idle_world) 15000 2000 ex_idle_world).2).
Proof.
  apply (poll_loop_time ex_probe 15000 2000 ex_idle_world _ _); [intros; reflexivity | lia | lia |].
  apply surjective_pairing.
Defined.

(** The go button shows from 6 s on: the fourth probe sees it. *)
Definition ex_late_world : world := {|
  clock := 0; screen := fun t _ => if bool_decide (6000 <= t) then Some (960, 540) else None;
  windows := fun _ => NoWindow; gui_ok := fun _ => true; disk_ok := true; stamp := fun _ => []; trace := []
|}.

Lemma wait_for_template_sees_witness :
  exists w', wait_for_template (lit "go_button.png") 15000 2000 ex_late_world = (POk true, w').
Proof. apply (wait_for_template_sees _ 15000 2000 3); [lia | lia | vm_compute; by eexists]. Defined.
