(* ===== verification/Interaction.v ===== *)
(** * Interaction: [GameInteractor] of [katana/core/interaction.py]

    Mouse, keyboard, window focus and screenshots, as operations of the
    [world] monad.  Every [pyautogui] call is a [gui] event that raises
    when the machine refuses it; the methods catch that exception as the
    source does.  The detector's parameters [threshold] and [region] are
    not modelled (the detector is the one of [World]), and neither is the
    time [pyautogui] spends moving the mouse or between key presses. *)

From S2P Require Import Prelude World.

Local Open Scope Z_scope.

Module GameInteractor.

(** [focus_window(window_title)] (lines 33-66). *)
Definition focus_window (window_title : pystr) : stm world bool := fun w =>
  match windows w window_title with
  | NoWindow => (POk false, w)
  | ActivateFails => (POk false, w)
  | Activates => (emit (EFocus window_title);; sleep 1000;; mret true) w
  | StaysInactive => (emit (EFocus window_title);; sleep 1000;; mret false) w
  end.

(** [click(x, y)] (lines 68-91): move, click and wait half a second. *)
Definition click (x y : Z) : stm world bool :=
  catch (gui (EClick x y);; sleep 500;; mret true) (fun _ => mret false).

(** [click_template(template_path, wait_disappear, disappear_timeout,
    click_offset)] (lines 93-140); the timeout is in seconds. *)
Definition click_template (template_path : pystr) (wait_disappear : bool)
    (disappear_timeout : Z) (click_offset : Z * Z) : stm world bool :=
  m ← find_template template_path;
  match m with
  | None => mret false
  | Some (x, y) =>
      success ← click (x + click_offset.1) (y + click_offset.2);
      if success && wait_disappear then
        start_time ← now;
        gone ← poll_loop (poll_fuel (disappear_timeout * 1000) 500)
                 (r ← find_template template_path; mret (negb (found r)))
                 start_time (disappear_timeout * 1000) 500;
        if (gone : bool) then mret true else mret success
      else mret success
  end.

(** [click_template(template_path)] with its default arguments. *)
Definition click_template_default (template_path : pystr) : stm world bool :=
  click_template template_path false 10 (0, 0).

(** The [for attempt in range(max_retries + 1)] loop of
    [click_template_with_retry] (lines 155-164). *)
Fixpoint retry_loop (template_path : pystr) (max_retries : Z) (attempts : list Z)
    : stm world bool :=
  match attempts with
  | [] => mret false
  | attempt :: rest =>
      result ← click_template_default template_path;
      if (result : bool) then mret true
      else (if bool_decide (attempt < max_retries) then sleep 1000 else mret tt);;
           retry_loop template_path max_retries rest
  end.

Definition range (n : Z) : list Z := map Z.of_nat (seq 0 (Z.to_nat n)).

(** [click_template_with_retry(template_path, max_retries)] (lines
    142-167). *)
Definition click_template_with_retry (template_path : pystr) (max_retries : Z) : stm world bool :=
  retry_loop template_path max_retries (range (max_retries + 1)).

(** [type_text(text)] (lines 169-186). *)
Definition type_text (text : pystr) : stm world bool :=
  catch (gui (EType text);; mret true) (fun _ => mret false).

(** [press_key(key, presses)] (lines 188-206). *)
Definition press_key (key : pystr) (presses : Z) : stm world bool :=
  catch (gui (EKey key presses);; mret true) (fun _ => mret false).

(** [take_screenshot(filename)] (lines 208-231): the path under
    [results/screenshots], or [None] when the capture fails. *)
Definition take_screenshot (filename : option pystr) : stm world (option pystr) :=
  name ← (match filename with
          | Some f => mret f
          | None => ts ← strftime_now; mret (lit "screenshot_" ++ ts ++ lit ".png")
          end);
  let path := lit "results/screenshots/" ++ name in
  catch (gui (EScreenshot path);; mret (Some path)) (fun _ => mret None).

(** ** Lemmas *)

(** An attempt of [click_template] at time [t] succeeds: the template is
    on screen and [pyautogui] accepts the click. *)
Definition attempt_ok (w : world) (name : pystr) (t : Z) : bool :=
  found (screen w t name) && gui_ok w t.

Definition after_click (x y : Z) (w : world) : world :=
  add_event (ESleep 500) (set_clock (clock w + 500) (add_event (EClick x y) w)).

Lemma click_run x y w :
  click x y w = if gui_ok w (clock w) then (POk true, after_click x y w) else (POk false, w).
Proof.
  unfold click, catch. rewrite !stm_bind_run. unfold gui.
  destruct (gui_ok w (clock w)); [| done]. rewrite stm_bind_run. cbn.
  by rewrite sleep_ok by lia.
Qed.

Lemma click_template_default_fail name w :
  attempt_ok w name (clock w) = false -> click_template_default name w = (POk false, w).
Proof.
  unfold attempt_ok, click_template_default, click_template. intros Ha.
  rewrite stm_bind_run. cbn. destruct (screen w (clock w) name) as [[x y]|]; [| done].
  rewrite stm_bind_run, click_run. cbn in Ha. by rewrite Ha.
Qed.

Lemma click_template_default_ok name w :
  attempt_ok w name (clock w) = true -> exists w', click_template_default name w = (POk true, w').
Proof.
  unfold attempt_ok, click_template_default, click_template. intros [Hf Hg]%andb_true_iff.
  rewrite stm_bind_run. cbn. destruct (screen w (clock w) name) as [[x y]|]; [| done].
  rewrite stm_bind_run, click_run, Hg. cbn. eauto.
Qed.

Lemma range_succ (n : nat) (k : nat) :
  map Z.of_nat (seq k (S n)) = Z.of_nat k :: map Z.of_nat (seq (S k) n).
Proof. reflexivity. Qed.

(** [n] sleeps of one second. *)
Definition after_sleeps (n : nat) (w : world) : world :=
  {| clock := clock w + 1000 * Z.of_nat n; screen := screen w; windows := windows w;
     gui_ok := gui_ok w; disk_ok := disk_ok w; stamp := stamp w;
     trace := trace w ++ repeat (ESleep 1000) n |}.

Lemma after_sleeps_0 w : after_sleeps 0 w = w.
Proof. unfold after_sleeps. destruct w; cbn. by rewrite Z.add_0_r, app_nil_r. Qed.

Lemma after_sleeps_S n w :
  after_sleeps n (add_event (ESleep 1000) (set_clock (clock w + 1000) w)) = after_sleeps (S n) w.
Proof. unfold after_sleeps. cbn. f_equal; [lia | by rewrite <- app_assoc]. Qed.

Lemma clock_zero (c : Z) : c + 1000 * Z.of_nat 0 = c.
Proof. lia. Qed.

Lemma clock_shift (c : Z) (j : nat) : c + 1000 + 1000 * Z.of_nat j = c + 1000 * Z.of_nat (S j).
Proof. lia. Qed.

(** The retry loop over attempts [k .. k + n] with [max_retries = k + n]:
    it succeeds exactly when one of the attempts, at [1000 j] after the
    start, succeeds; when none does it has slept [n] seconds. *)
Lemma retry_loop_spec name (n k : nat) w :
  (fst (retry_loop name (Z.of_nat (k + n)) (map Z.of_nat (seq k (S n))) w) = POk true <->
   exists j : nat, (j <= n)%nat /\ attempt_ok w name (clock w + 1000 * Z.of_nat j) = true) /\
  ((forall j : nat, (j <= n)%nat -> attempt_ok w name (clock w + 1000 * Z.of_nat j) = false) ->
   retry_loop name (Z.of_nat (k + n)) (map Z.of_nat (seq k (S n))) w = (POk false, after_sleeps n w)).
Proof.
  revert k w. induction n as [|n IH]; intros k w; rewrite range_succ; cbn [retry_loop];
    rewrite stm_bind_run.
  - destruct (attempt_ok w name (clock w)) eqn:Ha.
    + destruct (click_template_default_ok name w Ha) as [w' ->]. cbn.
      split; [split; [intros _; exists 0%nat; split; [lia | by rewrite clock_zero] | done] |].
      intros Hn. specialize (Hn 0%nat ltac:(lia)). rewrite clock_zero in Hn. congruence.
    + rewrite click_template_default_fail by done. cbn beta iota.
      rewrite bool_decide_eq_false_2 by lia. cbn. rewrite after_sleeps_0.
      split; [split; [done |] | done].
      intros (j & Hj & H). assert (j = 0%nat) as -> by lia. rewrite clock_zero in H. congruence.
  - destruct (attempt_ok w name (clock w)) eqn:Ha.
    + destruct (click_template_default_ok name w Ha) as [w' ->]. cbn.
      split; [split; [intros _; exists 0%nat; split; [lia | by rewrite clock_zero] | done] |].
      intros Hn. specialize (Hn 0%nat ltac:(lia)). rewrite clock_zero in Hn. congruence.
    + rewrite click_template_default_fail by done. cbn beta iota.
      rewrite bool_decide_eq_true_2 by lia. rewrite stm_bind_run, sleep_ok by lia.
      replace (Z.of_nat (k + S n)) with (Z.of_nat (S k + n)) by lia.
      destruct (IH (S k) (add_event (ESleep 1000) (set_clock (clock w + 1000) w))) as [IH1 IH2].
      cbn [clock screen gui_ok add_event set_clock attempt_ok] in IH1, IH2.
      unfold attempt_ok in *. split; [rewrite IH1; split |].
      * intros (j & Hj & H). exists (S j). split; [lia | by rewrite <- clock_shift].
      * intros ([|j] & Hj & H); [rewrite clock_zero in H; congruence |].
        exists j. split; [lia | by rewrite clock_shift].
      * intros Hn. rewrite IH2, after_sleeps_S; [done |].
        intros j Hj. rewrite clock_shift. apply Hn. lia.
Qed.

(** Every method of the interactor is tame: it leaves the environment
    as it is, moves the clock forward and launches nothing. *)
Lemma tame_focus_window title : tame (focus_window title).
Proof.
  intros w r w'. unfold focus_window.
  destruct (windows w title); try (intros [= _ <-]; reflexivity); apply tame_bind; tame_tac.
Qed.

Lemma tame_click x y : tame (click x y).
Proof. unfold click. tame_tac. Qed.

#[export] Hint Resolve tame_click : tame.

Lemma tame_click_template name wd to off : tame (click_template name wd to off).
Proof. unfold click_template. tame_tac. Qed.

Lemma tame_click_template_default name : tame (click_template_default name).
Proof. apply tame_click_template. Qed.

#[export] Hint Resolve tame_focus_window tame_click_template tame_click_template_default : tame.

Lemma tame_click_template_with_retry name m : tame (click_template_with_retry name m).
Proof.
  unfold click_template_with_retry. generalize (range (m + 1)).
  intros l. induction l; cbn [retry_loop]; tame_tac.
Qed.

Lemma tame_press_key key n : tame (press_key key n).
Proof. unfold press_key. tame_tac. Qed.

Lemma tame_type_text text : tame (type_text text).
Proof. unfold type_text. tame_tac. Qed.

Lemma tame_take_screenshot f : tame (take_screenshot f).
Proof. unfold take_screenshot. tame_tac. Qed.

#[export] Hint Resolve tame_click_template_with_retry tame_press_key tame_type_text
  tame_take_screenshot : tame.

(** With a GUI that accepts every call, no method of the interactor
    raises. *)
Lemma safe_focus_window title : safe (focus_window title).
Proof.
  intros w Hw. unfold focus_window. destruct (windows w title); try (by eexists _, _);
    revert w Hw; safe_tac.
Qed.

Lemma safe_click x y : safe (click x y).
Proof. unfold click. safe_tac. Qed.

#[export] Hint Resolve safe_click : safe.

Lemma safe_click_template name wd to off : safe (click_template name wd to off).
Proof.
  unfold click_template. safe_tac. apply safe_poll_loop; [safe_tac | tame_tac | lia].
Qed.

Lemma safe_click_template_default name : safe (click_template_default name).
Proof. apply safe_click_template. Qed.

#[export] Hint Resolve safe_focus_window safe_click_template safe_click_template_default : safe.

Lemma safe_click_template_with_retry name m : safe (click_template_with_retry name m).
Proof.
  unfold click_template_with_retry. generalize (range (m + 1)).
  intros l. induction l; cbn [retry_loop]; safe_tac.
Qed.

Lemma safe_press_key key n : safe (press_key key n).
Proof. unfold press_key. safe_tac. Qed.

Lemma safe_type_text text : safe (type_text text).
Proof. unfold type_text. safe_tac. Qed.

Lemma safe_take_screenshot f : safe (take_screenshot f).
Proof. unfold take_screenshot. safe_tac. Qed.

#[export] Hint Resolve safe_click_template_with_retry safe_press_key safe_type_text
  safe_take_screenshot safe_wait_for_template : safe.

(** ** Properties *)

Lemma range_seq (m : Z) : 0 <= m -> range (m + 1) = map Z.of_nat (seq 0 (S (Z.to_nat m))).
Proof. intros Hm. unfold range. by replace (Z.to_nat (m + 1)) with (S (Z.to_nat m)) by lia. Qed.

(** C31: [click_template_with_retry(name, max_retries)] returns [True]
    exactly when one of its [max_retries + 1] attempts, the [j]-th made
    [j] seconds after the call, finds the template on screen and gets
    its click accepted. *)
Theorem click_template_with_retry_spec name (m : Z) w :
  0 <= m ->
  (fst (click_template_with_retry name m w) = POk true <->
   exists j : Z, 0 <= j <= m /\ attempt_ok w name (clock w + 1000 * j) = true).
Proof.
  intros Hm. unfold click_template_with_retry. rewrite range_seq by done.
  destruct (retry_loop_spec name (Z.to_nat m) 0 w) as [H _].
  rewrite Nat.add_0_l, Z2Nat.id in H by done. rewrite H. split.
  - intros (j & Hj & Ho). exists (Z.of_nat j). split; [lia | done].
  - intros (j & Hj & Ho). exists (Z.to_nat j). split; [lia |]. by rewrite Z2Nat.id by lia.
Qed.

(** When no attempt succeeds, [click_template_with_retry] returns
    [False] after sleeping one second between consecutive attempts,
    [max_retries] seconds in all, and does nothing else. *)
Theorem click_template_with_retry_fail name (m : Z) w :
  0 <= m ->
  (forall j : Z, 0 <= j <= m -> attempt_ok w name (clock w + 1000 * j) = false) ->
  click_template_with_retry name m w = (POk false, after_sleeps (Z.to_nat m) w).
Proof.
  intros Hm Hn. unfold click_template_with_retry. rewrite range_seq by done.
  destruct (retry_loop_spec name (Z.to_nat m) 0 w) as [_ H].
  rewrite Nat.add_0_l, Z2Nat.id in H by done. apply H.
  intros j Hj. apply Hn. lia.
Qed.

(** C34: waiting for the template to disappear after the click never
    changes what [click_template] returns: a template that stays on
    screen is reported clicked all the same. *)
Theorem click_template_wait_disappear_result name timeout off w :
  fst (click_template name true timeout off w) = fst (click_template name false timeout off w).
Proof.
  unfold click_template. rewrite !stm_bind_run.
  change (find_template name w) with (@POk (option (Z * Z)) (screen w (clock w) name), w).
  cbn beta iota. destruct (screen w (clock w) name) as [[x y]|]; [| done].
  rewrite !stm_bind_run, click_run. destruct (gui_ok w (clock w)); [| done].
  cbn [andb]. rewrite stm_bind_run. unfold now at 1. cbn beta iota. rewrite stm_bind_run.
  match goal with
  | |- context [poll_loop ?f ?p ?st ?t ?i ?w0] =>
      destruct (poll_loop_ok p st t i f w0) as (b & w' & ->); [intros; eexists _, _; reflexivity | lia |]
  end.
  by destruct b.
Qed.

(** ** Witnesses *)

Definition ex_template : pystr := lit "play_tab.png".

(** The Play tab shows from two seconds on. *)
Definition ex_world : world := {|
  clock := 0;
  screen := fun t name => if bool_decide (name = ex_template /\ 2000 <= t) then Some (640, 360) else None;
  windows := fun _ => Activates;
  gui_ok := fun _ => true;
  disk_ok := true;
  stamp := fun _ => lit "20261109_120000";
  trace := []
|}.

Lemma click_template_with_retry_spec_witness :
  fst (click_template_with_retry ex_template 3 ex_world) = POk true.
Proof.
  apply (click_template_with_retry_spec ex_template 3 ex_world); [lia |].
  exists 2. split; [lia | reflexivity].
Defined.

Lemma click_template_with_retry_fail_witness :
  click_template_with_retry ex_template 1 ex_world = (POk false, after_sleeps 1 ex_world).
Proof.
  apply (click_template_with_retry_fail ex_template 1 ex_world); [lia |].
  intros j Hj. assert (j = 0 \/ j = 1) as [-> | ->] by lia; reflexivity.
Defined.

End GameInteractor.
