(* ===== verification/Benchmark.v ===== *)
(** * Benchmark: [BenchmarkResult] and [GameBenchmark] of [katana/core/benchmark.py]

    The abstract class [GameBenchmark] is the typeclass [GameSteps] of
    its six abstract methods (the game-specific steps) together with the
    generic methods [launch], [execute_benchmark_run] and
    [run_benchmark_series] written once for every instance.  The object
    and the machine form the state [sys]; a method is an [stm sys]
    computation.  [GameStepsLaws] states what the generic methods need
    of the steps, and the theorems of this file are proved from it alone;
    [Cs2Benchmark] gives the CS2 instance and discharges the laws. *)

From S2P Require Import Prelude PyStr Json World Interaction.

Local Open Scope Z_scope.

Module Benchmark.

(** ** [BenchmarkResult] (lines 25-65) *)

Record bench_result : Type := {
  res_game_id : pystr;
  res_run_id : Z;
  res_timestamp : pystr;
  res_duration : option Z;
  avg_fps : option Z;
  min_fps : option Z;
  max_fps : option Z;
  screenshot_path : option pystr;
  raw_data : list (pystr * pyval)
}.

(** [BenchmarkResult(game_id, run_id)] (lines 28-38). *)
Definition new_result (game_id : pystr) (run_id : Z) : stm world bench_result :=
  ts ← strftime_now;
  mret {| res_game_id := game_id; res_run_id := run_id; res_timestamp := ts;
          res_duration := None; avg_fps := None; min_fps := None; max_fps := None;
          screenshot_path := None; raw_data := [] |}.

Definition set_res_duration (d : option Z) (r : bench_result) : bench_result :=
  {| res_game_id := res_game_id r; res_run_id := res_run_id r; res_timestamp := res_timestamp r;
     res_duration := d; avg_fps := avg_fps r; min_fps := min_fps r; max_fps := max_fps r;
     screenshot_path := screenshot_path r; raw_data := raw_data r |}.

Definition set_screenshot_path (p : option pystr) (r : bench_result) : bench_result :=
  {| res_game_id := res_game_id r; res_run_id := res_run_id r; res_timestamp := res_timestamp r;
     res_duration := res_duration r; avg_fps := avg_fps r; min_fps := min_fps r; max_fps := max_fps r;
     screenshot_path := p; raw_data := raw_data r |}.

(** The file [save] writes (line 60). *)
Definition result_path (r : bench_result) : pystr :=
  lit "results/" ++ res_game_id r ++ lit "_run" ++ str_of_Z (res_run_id r) ++ lit "_"
  ++ res_timestamp r ++ lit ".json".

(** The dictionary of [to_json()] (lines 43-53), in its key order.
    [screenshot_path] is [None] when the path is empty (falsy);
    [avg_fps], [min_fps] and [max_fps] are never set by the program. *)
Definition result_json (r : bench_result) : Json.jvalue :=
  let opt_int (o : option Z) := match o with Some z => Json.JNum (str_of_Z z) | None => Json.JNull end in
  Json.JObj [(lit "game_id", Json.JStr (res_game_id r));
             (lit "run_id", Json.JNum (str_of_Z (res_run_id r)));
             (lit "timestamp", Json.JStr (res_timestamp r));
             (lit "duration", match res_duration r with
                              | Some d => Json.JNum (Json.float_repr_ms d)
                              | None => Json.JNull
                              end);
             (lit "avg_fps", opt_int (avg_fps r));
             (lit "min_fps", opt_int (min_fps r));
             (lit "max_fps", opt_int (max_fps r));
             (lit "screenshot_path", match screenshot_path r with
                                     | Some ((_ :: _) as p) => Json.JStr p
                                     | _ => Json.JNull
                                     end);
             (lit "raw_data", Json.JObj (map (fun '(k, v) => (k, Json.json_of_pyval v)) (raw_data r)))].

(** [to_json()] (lines 40-53): [json.dumps(..., indent=2)]. *)
Definition to_json (r : bench_result) : pystr := Json.json_dumps (result_json r).

(** [save()] (lines 55-65): [mkdir] and [open] raise [OSError] when the
    disk refuses the write; otherwise the file holds [to_json()]. *)
Definition save (r : bench_result) : stm world pystr := fun w =>
  if disk_ok w then (POk (result_path r), add_event (EWrite (result_path r) (to_json r)) w)
  else (PErr OSError, w).

(** ** The benchmark object *)

Record game_bench : Type := {
  game_id : pystr;
  game_name : pystr;
  window_title : pystr;
  configs : list (pystr * pyval);
  results : list bench_result;
  benchmark_start_time : option Z;
  benchmark_end_time : option Z;
  benchmark_duration : option Z
}.

(** [GameBenchmark.__init__] (lines 70-97); the directories it creates
    are not modelled. *)
Definition init_bench (game_id game_name : pystr) (window_title : option pystr)
    (configs : list (pystr * pyval)) : game_bench :=
  {| game_id := game_id; game_name := game_name;
     window_title := match window_title with Some ((_ :: _) as t) => t | _ => game_name end;
     configs := configs; results := []; benchmark_start_time := None;
     benchmark_end_time := None; benchmark_duration := None |}.

Definition set_results (l : list bench_result) (b : game_bench) : game_bench :=
  {| game_id := game_id b; game_name := game_name b; window_title := window_title b;
     configs := configs b; results := l; benchmark_start_time := benchmark_start_time b;
     benchmark_end_time := benchmark_end_time b; benchmark_duration := benchmark_duration b |}.

Definition set_start_time (t : option Z) (b : game_bench) : game_bench :=
  {| game_id := game_id b; game_name := game_name b; window_title := window_title b;
     configs := configs b; results := results b; benchmark_start_time := t;
     benchmark_end_time := benchmark_end_time b; benchmark_duration := benchmark_duration b |}.

Definition set_end_time (t : option Z) (b : game_bench) : game_bench :=
  {| game_id := game_id b; game_name := game_name b; window_title := window_title b;
     configs := configs b; results := results b; benchmark_start_time := benchmark_start_time b;
     benchmark_end_time := t; benchmark_duration := benchmark_duration b |}.

Definition set_duration (d : option Z) (b : game_bench) : game_bench :=
  {| game_id := game_id b; game_name := game_name b; window_title := window_title b;
     configs := configs b; results := results b; benchmark_start_time := benchmark_start_time b;
     benchmark_end_time := benchmark_end_time b; benchmark_duration := d |}.

(** [self.configs.get(key, default)]. *)
Fixpoint cfg_get (key : pystr) (default : pyval) (cfg : list (pystr * pyval)) : pyval :=
  match cfg with
  | [] => default
  | (k, v) :: rest => if bool_decide (k = key) then v else cfg_get key default rest
  end.

(** [check_assets(required_assets)] (lines 99-116): whether every
    required asset is a file of the assets directory. *)
Definition check_assets (present : list pystr) (required_assets : list pystr) : bool :=
  bool_decide (Forall (fun f => f ∈ present) required_assets).

(** The object and the machine. *)
Record sys : Type := { bench : game_bench; machine : world }.

Definition gets {A} (f : game_bench -> A) : stm sys A := fun s => (POk (f (bench s)), s).

Definition modify_bench (f : game_bench -> game_bench) : stm sys unit := fun s =>
  (POk tt, {| bench := f (bench s); machine := machine s |}).

Definition on_world {A} (m : stm world A) : stm sys A := fun s =>
  let '(r, w') := m (machine s) in (r, {| bench := bench s; machine := w' |}).

(** [time.sleep(v)] for a configuration value: seconds as an [int]
    (a [bool] is the [int] 0 or 1); a string or [None] raises
    [TypeError]. *)
Definition sleep_val (v : pyval) : stm world unit :=
  match v with
  | VInt z => sleep (1000 * z)
  | VBool b => sleep (if b then 1000 else 0)
  | _ => throw TypeError
  end.

(** ** Generic methods *)

(** [launch_steam_game()] (lines 118-123). *)
Definition launch_steam_game : stm sys unit :=
  b ← gets id;
  on_world (emit (ELaunch (lit "steam://rungameid/" ++ game_id b)));;
  on_world (sleep_val (cfg_get (lit "launch_wait_time") (VInt 30) (configs b))).

(** [launch()] (lines 125-132). *)
Definition launch : stm sys unit :=
  b ← gets id;
  if bool_decide (cfg_get (lit "launcher") (VStr (lit "steam")) (configs b) = VStr (lit "steam"))
  then launch_steam_game
  else throw NotImplementedError.

(** The abstract methods (lines 134-169). *)
Class GameSteps : Type := {
  focus_game_window : stm sys bool;
  wait_until_ready : stm sys bool;
  navigate_to_benchmark : stm sys bool;
  start_benchmark : stm sys bool;
  collect_results : Z -> stm sys (option bench_result);
  teardown : stm sys bool
}.

Section Generic.
Context `{GameSteps}.

(** The log line of a dry run, [f"{self.benchmark_duration:.2f}"]
    (lines 192-193): formatting [None] raises [TypeError]. *)
Definition log_dry_duration (is_dry_run : bool) : stm sys unit :=
  if is_dry_run then
    d ← gets benchmark_duration;
    match d with Some _ => mret tt | None => throw TypeError end
  else mret tt.

(** [execute_benchmark_run(run_id, is_dry_run)] (lines 171-207).  The
    results of the steps are not looked at; an exception anywhere ends
    the run with [None], keeping what was done before it. *)
Definition execute_benchmark_run (run_id : Z) (is_dry_run : bool) : stm sys (option bench_result) :=
  catch
    (launch;;
     focus_game_window;;
     wait_until_ready;;
     navigate_to_benchmark;;
     start_benchmark;;
     result ← collect_results run_id;
     log_dry_duration is_dry_run;;
     teardown;;
     match result with
     | Some r =>
         modify_bench (fun b => set_results (results b ++ [r]) b);;
         on_world (save r);;
         mret (Some r)
     | None => mret None
     end)
    (fun _ => mret None).

(** The [for i in range(1, run_count + 1)] loop (lines 235-240). *)
Fixpoint series_loop (run_count cooldown : Z) (ids : list Z) : stm sys unit :=
  match ids with
  | [] => mret tt
  | i :: rest =>
      execute_benchmark_run i false;;
      (if bool_decide (i < run_count) then on_world (sleep (1000 * cooldown)) else mret tt);;
      series_loop run_count cooldown rest
  end.

Definition run_ids (run_count : Z) : list Z :=
  map (fun k => Z.of_nat k + 1) (seq 0 (Z.to_nat run_count)).

(** [run_benchmark_series(run_count, cooldown)] (lines 209-243). *)
Definition run_benchmark_series (run_count cooldown : Z) : stm sys (list bench_result) :=
  execute_benchmark_run 0 true;;
  d ← gets benchmark_duration;
  match d with
  | None => gets results
  | Some _ =>
      on_world (sleep (1000 * cooldown));;
      series_loop run_count cooldown (run_ids run_count);;
      gets results
  end.

End Generic.

(** ** What the generic methods need of the steps

    A step may change the machine only forward ([world_le]: it launches
    nothing, changes no environment, does not turn the clock back) and
    may change the times of the object, but not its identity, its
    configuration or its results. *)

Definition bench_le (b b' : game_bench) : Prop :=
  game_id b' = game_id b /\ configs b' = configs b /\ results b' = results b.

#[export] Instance bench_le_preorder : PreOrder bench_le.
Proof. split; [by intros b | intros b1 b2 b3 (? & ? & ?) (? & ? & ?); split_and!; congruence]. Qed.

Definition keeps {A} (m : stm sys A) : Prop :=
  forall s r s', m s = (r, s') -> bench_le (bench s) (bench s') /\ world_le (machine s) (machine s').

Class GameStepsLaws `{GameSteps} : Prop := {
  focus_keeps : keeps focus_game_window;
  wait_keeps : keeps wait_until_ready;
  navigate_keeps : keeps navigate_to_benchmark;
  start_keeps : keeps start_benchmark;
  collect_keeps i : keeps (collect_results i);
  teardown_keeps : keeps teardown;
  collect_run_id i s x s' : collect_results i s = (POk (Some x), s') -> res_run_id x = i
}.

(** ** Lemmas *)

Create HintDb keeps discriminated.

Lemma keeps_ret {A} (a : A) : keeps (mret a).
Proof. intros s r s' [= _ <-]. split; reflexivity. Qed.

Lemma keeps_bind {A B} (m : stm sys A) (f : A -> stm sys B) :
  keeps m -> (forall a, keeps (f a)) -> keeps (m ≫= f).
Proof.
  intros Hm Hf s r s'. rewrite stm_bind_run. destruct (m s) as [[a|e] s1] eqn:E; intros Hr.
  - destruct (Hm _ _ _ E), (Hf a _ _ _ Hr). split; etrans; eauto.
  - injection Hr as _ <-. by eapply Hm.
Qed.

Lemma keeps_throw {A} e : keeps (throw e : stm sys A).
Proof. intros s r s' [= _ <-]. split; reflexivity. Qed.

Lemma keeps_gets {A} (f : game_bench -> A) : keeps (gets f).
Proof. intros s r s' [= _ <-]. split; reflexivity. Qed.

Lemma keeps_on_world {A} (m : stm world A) : tame m -> keeps (on_world m).
Proof.
  intros Hm s r s'. unfold on_world. destruct (m (machine s)) as [r1 w1] eqn:E.
  intros [= _ <-]. split; [reflexivity | by eapply Hm].
Qed.

Lemma keeps_if {A} (b : bool) (m1 m2 : stm sys A) : keeps m1 -> keeps m2 -> keeps (if b then m1 else m2).
Proof. by destruct b. Qed.

(** Changing the times of the object keeps it. *)
Lemma keeps_modify_times f :
  (forall b, bench_le b (f b)) -> keeps (modify_bench f).
Proof. intros Hf s r s' [= _ <-]. split; [apply Hf | reflexivity]. Qed.

Lemma set_start_time_le t b : bench_le b (set_start_time t b).
Proof. by split_and!. Qed.
Lemma set_end_time_le t b : bench_le b (set_end_time t b).
Proof. by split_and!. Qed.
Lemma set_duration_le t b : bench_le b (set_duration t b).
Proof. by split_and!. Qed.

#[export] Hint Resolve keeps_ret keeps_bind keeps_throw keeps_gets keeps_on_world keeps_if
  keeps_modify_times set_start_time_le set_end_time_le set_duration_le : keeps.

(** [keeps_tac]: split a method into steps that keep the object, by the
    shape of the goal. *)
Ltac keeps_tac :=
  repeat (match goal with
    | |- keeps (_ ≫= _) => apply keeps_bind
    | |- keeps (mret _) => apply keeps_ret
    | |- keeps (throw _) => apply keeps_throw
    | |- keeps (gets _) => apply keeps_gets
    | |- keeps (if _ then _ else _) => apply keeps_if
    | |- keeps (modify_bench _) => apply keeps_modify_times; eauto with keeps
    | |- keeps (on_world _) => apply keeps_on_world; tame_tac
    | |- keeps (match ?x with _ => _ end) => destruct x
    | |- forall _, keeps _ => intro
    end).

Lemma keeps_log_dry_duration `{GameSteps} d : keeps (log_dry_duration d).
Proof. unfold log_dry_duration. destruct d; [| apply keeps_ret]. apply keeps_bind; [apply keeps_gets |].
  intros [?|]; [apply keeps_ret | apply keeps_throw]. Qed.

Lemma tame_save r : tame (save r).
Proof.
  intros w x w'. unfold save. destruct (disk_ok w); intros [= _ <-]; [by apply add_event_le | reflexivity].
Qed.

Lemma tame_sleep_val v : tame (sleep_val v).
Proof. destruct v; cbn; tame_tac. Qed.

#[export] Hint Resolve tame_sleep_val tame_save : tame.

Definition launcher_steam (cfg : list (pystr * pyval)) : bool :=
  bool_decide (cfg_get (lit "launcher") (VStr (lit "steam")) cfg = VStr (lit "steam")).

(** [launch] with the steam launcher and an [int] wait. *)
Lemma launch_run s z :
  launcher_steam (configs (bench s)) = true ->
  cfg_get (lit "launch_wait_time") (VInt 30) (configs (bench s)) = VInt z -> 0 <= z ->
  launch s = (POk tt, {| bench := bench s;
    machine := add_event (ESleep (1000 * z))
                 (set_clock (clock (machine s) + 1000 * z)
                    (add_event (ELaunch (lit "steam://rungameid/" ++ game_id (bench s))) (machine s))) |}).
Proof.
  unfold launcher_steam. intros Hst Hw Hz. unfold launch. rewrite stm_bind_run. cbn -[lit cfg_get].
  rewrite Hst. unfold launch_steam_game. rewrite !stm_bind_run. cbn -[lit cfg_get].
  rewrite stm_bind_run. cbn -[lit cfg_get]. rewrite Hw. cbn -[lit sleep]. unfold on_world. cbn -[lit sleep]. by rewrite sleep_ok by lia.
Qed.

(** [launch] launches the game once and then only moves forward, or
    refuses an unknown launcher without doing anything. *)
Lemma launch_spec s r s' :
  launch s = (r, s') ->
  bench s' = bench s /\
  if launcher_steam (configs (bench s))
  then exists u, world_le (add_event (ELaunch u) (machine s)) (machine s')
  else r = PErr NotImplementedError /\ machine s' = machine s.
Proof.
  unfold launch, launcher_steam. rewrite stm_bind_run. cbn.
  case_bool_decide; [| by intros [= <- <-]].
  unfold launch_steam_game. rewrite !stm_bind_run. cbn. rewrite !stm_bind_run. cbn.
  set (w0 := add_event _ (machine s)). unfold on_world. cbn [machine bench].
  match goal with |- context [sleep_val ?v w0] => destruct (sleep_val v w0) as [r1 w1] eqn:E end.
  intros [= <- <-]. split; [done |]. eexists. exact (tame_sleep_val _ _ _ _ E).
Qed.

(** ** Methods that run through

    [runs_in I m]: from a state satisfying [I], [m] does not raise and
    ends in a state satisfying [I]. *)

Definition runs_in (I : sys -> Prop) {A} (m : stm sys A) : Prop := hoare I m (fun _ => I) (fun _ _ => False).

Section RunsIn.
Variable I : sys -> Prop.
(** The invariant is about a machine that accepts every call, and it
    survives the machine moving forward. *)
Hypothesis I_gui : forall s, I s -> gui_up (machine s).
Hypothesis I_world : forall s w', world_le (machine s) w' -> I s -> I {| bench := bench s; machine := w' |}.

Lemma runs_bind {A B} (m : stm sys A) (f : A -> stm sys B) :
  runs_in I m -> (forall a, runs_in I (f a)) -> runs_in I (m ≫= f).
Proof. intros. by eapply hoare_bind. Qed.

Lemma runs_ret {A} (a : A) : runs_in I (mret a).
Proof. apply hoare_ret. by intros. Qed.

Lemma runs_gets {A} (f : game_bench -> A) : runs_in I (gets f).
Proof. by intros s Hs. Qed.

Lemma runs_if {A} (b : bool) (m1 m2 : stm sys A) : runs_in I m1 -> runs_in I m2 -> runs_in I (if b then m1 else m2).
Proof. apply hoare_if. Qed.

Lemma runs_on_world {A} (m : stm world A) : safe m -> tame m -> runs_in I (on_world m).
Proof.
  intros Hs Ht s Hi. unfold on_world. destruct (Hs _ (I_gui s Hi)) as (a & w' & E). rewrite E.
  cbn. apply I_world; [by eapply Ht | done].
Qed.

Lemma runs_catch {A} (m : stm sys A) h : runs_in I m -> runs_in I (catch m h).
Proof. intros Hm. eapply hoare_catch; [exact Hm | intros e s []]. Qed.

Lemma runs_modify (f : game_bench -> game_bench) :
  (forall s, I s -> I {| bench := f (bench s); machine := machine s |}) -> runs_in I (modify_bench f).
Proof. intros Hf s Hs. by apply Hf. Qed.

End RunsIn.

Ltac runs_tac :=
  repeat (match goal with
    | |- runs_in _ (_ ≫= _) => apply runs_bind
    | |- runs_in _ (mret _) => apply runs_ret
    | |- runs_in _ (gets _) => apply runs_gets
    | |- runs_in _ (if _ then _ else _) => apply runs_if
    | |- runs_in _ (catch _ _) => apply runs_catch
    | |- runs_in _ (on_world _) => apply runs_on_world; [| | safe_tac | tame_tac]
    | |- runs_in _ (match ?x with _ => _ end) => destruct x
    | |- forall _, runs_in _ _ => intro
    end).

(** ** Specification of a run *)

(** The results grew by nothing or by one result of run [i]. *)
Definition grows_by_run (i : Z) (l l' : list bench_result) : Prop :=
  l' = l \/ exists x, l' = l ++ [x] /\ res_run_id x = i.

(** After the launch of run [i]: the same game and configuration, the
    machine moved forward from [wl], results grown by one at most. *)
Definition after_launch (wl : world) (b0 : game_bench) (i : Z) (s : sys) : Prop :=
  game_id (bench s) = game_id b0 /\ configs (bench s) = configs b0 /\
  world_le wl (machine s) /\ grows_by_run i (results b0) (results (bench s)).

Definition inv (wl : world) (b0 : game_bench) (s : sys) : Prop :=
  bench_le b0 (bench s) /\ world_le wl (machine s).

Lemma inv_after_launch wl b0 i s : inv wl b0 s -> after_launch wl b0 i s.
Proof. intros [(? & ? & Hr) ?]. split_and!; try done. left. done. Qed.

Lemma keeps_hoare {A} (m : stm sys A) wl b0 :
  keeps m -> hoare (inv wl b0) m (fun _ => inv wl b0) (fun _ => inv wl b0).
Proof.
  intros Hm s [Hb Hw]. destruct (m s) as [[a|e] s'] eqn:E;
    destruct (Hm _ _ _ E); split; etrans; eauto.
Qed.

(** A step inside a run: it keeps the invariant, and its exceptions end
    the run in a state after the launch. *)
Lemma step_hoare {A} (m : stm sys A) wl b0 i :
  keeps m -> hoare (inv wl b0) m (fun _ => inv wl b0) (fun _ => after_launch wl b0 i).
Proof.
  intros Hm. eapply hoare_conseq; [by apply keeps_hoare | done | done |].
  intros e s. apply inv_after_launch.
Qed.

Lemma hoare_on_world {A} (m : stm world A) (P : sys -> Prop) :
  tame m -> (forall s w', world_le (machine s) w' -> P s -> P {| bench := bench s; machine := w' |}) ->
  hoare P (on_world m) (fun _ => P) (fun _ => P).
Proof.
  intros Hm HP s Hs. unfold on_world. destruct (m (machine s)) as [[a|e] w'] eqn:E;
    (apply HP; [by eapply Hm | done]).
Qed.

Lemma hoare_exists_pre {S A X} (P : X -> S -> Prop) (m : stm S A) Q E :
  (forall x, hoare (P x) m Q E) -> hoare (fun s => exists x, P x s) m Q E.
Proof. intros H s [x Hs]. by apply (H x). Qed.

Section Laws.
Context `{GameStepsLaws}.

Lemma collect_hoare i wl b0 :
  hoare (inv wl b0) (collect_results i)
    (fun r s => (forall x, r = Some x -> res_run_id x = i) /\ inv wl b0 s)
    (fun _ => after_launch wl b0 i).
Proof.
  intros s Hs. pose proof (step_hoare (collect_results i) wl b0 i (collect_keeps i) s Hs) as Hh.
  destruct (collect_results i s) as [[a|e] s'] eqn:E; [| done].
  split; [| done]. intros x ->. by eapply collect_run_id.
Qed.

(** The end of a run that collected a result: append it and save it. *)
Lemma append_save_hoare x wl b0 i :
  res_run_id x = i ->
  hoare (inv wl b0)
    (modify_bench (fun b => set_results (results b ++ [x]) b);; on_world (save x);; mret (Some x))
    (fun r s => after_launch wl b0 i s /\ (forall y, r = Some y -> results (bench s) = results b0 ++ [y]))
    (fun _ => after_launch wl b0 i).
Proof.
  intros Hx s [(Hg & Hc & Hr) Hw]. rewrite !stm_bind_run. cbn. unfold on_world. cbn.
  assert (Hal : forall w', world_le (machine s) w' ->
            after_launch wl b0 i {| bench := set_results (results (bench s) ++ [x]) (bench s); machine := w' |}).
  { intros w' Hw'. split_and!; try done; [etrans; eauto | right; exists x; by rewrite Hr]. }
  rewrite stm_bind_run. cbn.
  destruct (save x (machine s)) as [[a|e] w'] eqn:E; pose proof (tame_save x _ _ _ E) as Hw';
    cbn; [split; [by apply Hal | intros y [= <-]; by rewrite Hr] | by apply Hal].
Qed.

(** With an unknown launcher a run does nothing and returns [None]. *)
Lemma execute_unsupported i d s :
  launcher_steam (configs (bench s)) = false -> execute_benchmark_run i d s = (POk None, s).
Proof.
  intros Hst. unfold execute_benchmark_run, catch. rewrite stm_bind_run.
  destruct (launch s) as [r1 s1] eqn:E. apply launch_spec in E as [Hb Hl].
  rewrite Hst in Hl. destruct Hl as [-> Hm]. cbn. destruct s, s1. cbn in *. by subst.
Qed.

(** With the steam launcher a run never raises; it launches the game
    once, moves the machine forward and adds to the results at most one
    result, of its own run, which is the result it returns when it
    returns one. *)
Lemma execute_steam i d s r s' :
  launcher_steam (configs (bench s)) = true ->
  execute_benchmark_run i d s = (r, s') ->
  exists res, r = POk res /\ exists u,
    after_launch (add_event (ELaunch u) (machine s)) (bench s) i s' /\
    (forall x, res = Some x -> results (bench s') = results (bench s) ++ [x]).
Proof.
  intros Hst Hrun.
  set (AL := fun u => after_launch (add_event (ELaunch u) (machine s)) (bench s) i).
  set (Q := fun (res : option bench_result) s0 => exists u, AL u s0 /\
              (forall x, res = Some x -> results (bench s0) = results (bench s) ++ [x])).
  cut (hoare (fun s0 => s0 = s) (execute_benchmark_run i d) Q (fun _ _ => False)).
  { intros Hh. specialize (Hh s eq_refl). rewrite Hrun in Hh. destruct r; [by eexists | done]. }
  unfold execute_benchmark_run.
  apply hoare_catch with (E := fun _ s0 => exists u, AL u s0); cycle 1.
  { intros e. apply hoare_ret. intros s0 [u Hu]. exists u. split; [done | discriminate]. }
  apply hoare_bind with (Q := fun _ s1 => exists u, inv (add_event (ELaunch u) (machine s)) (bench s) s1).
  { intros s0 ->. destruct (launch s) as [r1 s1] eqn:E. apply launch_spec in E as [Hb Hl].
    rewrite Hst in Hl. destruct Hl as [u Hu].
    assert (inv (add_event (ELaunch u) (machine s)) (bench s) s1) by (split; [rewrite Hb; reflexivity | done]).
    destruct r1; exists u; [done | by apply inv_after_launch]. }
  intros _. apply hoare_exists_pre. intros u.
  eapply hoare_conseq with (P' := inv (add_event (ELaunch u) (machine s)) (bench s))
    (Q' := fun res s0 => AL u s0 /\ (forall x, res = Some x -> results (bench s0) = results (bench s) ++ [x]))
    (E' := fun _ => AL u); [| done | intros; by exists u | intros; by exists u].
  do 4 (eapply hoare_bind; [apply step_hoare;
    solve [apply focus_keeps | apply wait_keeps | apply navigate_keeps | apply start_keeps] | intros ?]).
  eapply hoare_bind; [apply collect_hoare | intros result; cbv beta].
  apply hoare_pre_intro. intros Hid.
  eapply hoare_bind; [apply step_hoare, keeps_log_dry_duration | intros ?].
  eapply hoare_bind; [apply step_hoare, teardown_keeps | intros ?].
  destruct result as [x|]; [by apply append_save_hoare, Hid |].
  apply hoare_ret. intros s0 Hs0. split; [by apply inv_after_launch | done].
Qed.

(** What one run of the series leaves, as the loop uses it. *)
Definition run_step (ids : list Z) (s s' : sys) : Prop :=
  game_id (bench s') = game_id (bench s) /\ configs (bench s') = configs (bench s) /\
  exists xs, results (bench s') = results (bench s) ++ xs /\ map res_run_id xs `sublist_of` ids.

Lemma execute_step i d s r s' :
  launcher_steam (configs (bench s)) = true -> execute_benchmark_run i d s = (r, s') ->
  run_step [i] s s' /\ launch_count (machine s') = S (launch_count (machine s)) /\
  exists res, r = POk res.
Proof.
  intros Hst Hrun. destruct (execute_steam i d s r s' Hst Hrun) as (res & -> & u & (Hg & Hc & Hw & Hgr) & _).
  split; [| split; [| by eexists]].
  - split_and!; [done | done |].
    destruct Hgr as [Hr | (x & Hr & Hx)]; [exists [] | exists [x]]; rewrite Hr; split.
    + by rewrite app_nil_r.
    + apply sublist_nil_l.
    + done.
    + cbn. rewrite Hx. by apply sublist_skip, sublist_nil.
  - by rewrite (world_le_launch_count _ _ Hw), launch_count_add_launch.
Qed.

Lemma on_world_sleep_step ms s r s' :
  on_world (sleep ms) s = (r, s') ->
  bench s' = bench s /\ launch_count (machine s') = launch_count (machine s) /\ (0 <= ms -> r = POk tt).
Proof.
  unfold on_world. destruct (sleep ms (machine s)) as [r1 w1] eqn:E. intros [= <- <-]. cbn.
  split_and!; [done | by rewrite (world_le_launch_count _ _ (tame_sleep _ _ _ _ E)) |].
  intros Hms. rewrite sleep_ok in E by done. by injection E as <-.
Qed.

Lemma cooldown_step (i n c : Z) s r s' :
  (if bool_decide (i < n) then on_world (sleep (1000 * c)) else mret tt) s = (r, s') ->
  bench s' = bench s /\ launch_count (machine s') = launch_count (machine s) /\ (0 <= c -> r = POk tt).
Proof.
  case_bool_decide; [| by intros [= <- <-]].
  intros (? & ? & Hr)%on_world_sleep_step. split_and!; [done | done |]. intros; apply Hr; lia.
Qed.

Lemma sublist_run (xs : list Z) (i : Z) (ids : list Z) (ys : list Z) :
  xs `sublist_of` [i] -> ys `sublist_of` ids -> xs ++ ys `sublist_of` i :: ids.
Proof. intros Hx Hy. by apply (sublist_app xs [i] ys ids). Qed.

(** The loop of the series: each run adds at most its own result, in
    order; with a cooldown that is not negative nothing raises and the
    game is launched once per run. *)
Lemma series_loop_spec n c ids s r s' :
  launcher_steam (configs (bench s)) = true -> series_loop n c ids s = (r, s') ->
  run_step ids s s' /\
  (0 <= c -> r = POk tt /\ launch_count (machine s') = (launch_count (machine s) + length ids)%nat).
Proof.
  revert s r. induction ids as [|i ids IH]; intros s r Hst Hrun.
  { injection Hrun as <- <-. split; [split_and!; [done | done | exists []] | done].
    split; [by rewrite app_nil_r | constructor]. }
  cbn [series_loop] in Hrun. rewrite stm_bind_run in Hrun.
  destruct (execute_benchmark_run i false s) as [r1 s1] eqn:E1.
  destruct (execute_step _ _ _ _ _ Hst E1) as ((Hg1 & Hc1 & xs1 & Hr1 & Hx1) & Hl1 & res & ->).
  rewrite stm_bind_run in Hrun.
  destruct ((if bool_decide (i < n) then on_world (sleep (1000 * c)) else mret tt) s1)
    as [r2 s2] eqn:E2.
  apply cooldown_step in E2 as (Hb2 & Hl2 & Hok2).
  destruct r2 as [[]|e].
  - assert (Hst2 : launcher_steam (configs (bench s2)) = true) by (by rewrite Hb2, Hc1).
    destruct (IH s2 r Hst2 Hrun) as ((Hg & Hc & xs2 & Hr & Hx) & Hok).
    split.
    + split_and!; [by rewrite Hg, Hb2 | by rewrite Hc, Hb2, Hc1 |].
      exists (xs1 ++ xs2). rewrite Hr, Hb2, Hr1, app_assoc, map_app.
      split; [done | by apply sublist_run].
    + intros Hc0. destruct (Hok Hc0) as [-> Hl]. split; [done |]. cbn. lia.
  - injection Hrun as <- <-. split.
    + split_and!; [by rewrite Hb2 | by rewrite Hb2 |]. exists xs1. rewrite Hb2, Hr1.
      split; [done |]. rewrite <- (app_nil_r (map res_run_id xs1)).
      apply sublist_run; [done | apply sublist_nil_l].
    + intros Hc0. by specialize (Hok2 Hc0).
Qed.

End Laws.

(** ** What a series stores

    Whatever property [P] the results [collect_results] returns have,
    and whatever state invariant [J] the steps keep (that the machine
    moving forward, an event and a new results list leave alone), every
    result a series stores, and the list it returns, have [P]: the
    series stores only what [collect_results] returned. *)
Section ResultTyping.
Context `{GameStepsLaws}.
Variable J : sys -> Prop.
Variable P : bench_result -> Prop.
Hypothesis J_world : forall s w', J s -> world_le (machine s) w' -> J {| bench := bench s; machine := w' |}.
Hypothesis J_emit : forall s e, J s -> J {| bench := bench s; machine := add_event e (machine s) |}.
Hypothesis J_results : forall s l, J s -> J {| bench := set_results l (bench s); machine := machine s |}.
Hypothesis J_focus : hoare J focus_game_window (fun _ => J) (fun _ => J).
Hypothesis J_wait : hoare J wait_until_ready (fun _ => J) (fun _ => J).
Hypothesis J_navigate : hoare J navigate_to_benchmark (fun _ => J) (fun _ => J).
Hypothesis J_start : hoare J start_benchmark (fun _ => J) (fun _ => J).
Hypothesis J_teardown : hoare J teardown (fun _ => J) (fun _ => J).
Hypothesis J_collect : forall i,
  hoare J (collect_results i) (fun r s => J s /\ forall x, r = Some x -> P x) (fun _ => J).

Definition typed (s : sys) : Prop := J s /\ Forall P (results (bench s)).

Local Abbreviation typed_by m := (hoare typed m (fun _ => typed) (fun _ => typed)).

Lemma typed_keeps {A} (m : stm sys A) :
  keeps m -> hoare J m (fun _ => J) (fun _ => J) -> typed_by m.
Proof.
  intros Hk Hm s [HJ HP]. specialize (Hm s HJ).
  destruct (m s) as [[a|e] s'] eqn:E; destruct (Hk _ _ _ E) as [(_ & _ & Hr) _];
    (split; [done | by rewrite Hr]).
Qed.

Lemma typed_bind {A B} (m : stm sys A) (f : A -> stm sys B) :
  typed_by m -> (forall a, typed_by (f a)) -> typed_by (m ≫= f).
Proof. intros. by eapply hoare_bind. Qed.

Lemma typed_on_world {A} (m : stm world A) : tame m -> typed_by (on_world m).
Proof. intros Hm. apply hoare_on_world; [done |]. intros s w' Hw [HJ HP]. split; [by apply J_world | done]. Qed.

Lemma typed_emit e : typed_by (on_world (emit e)).
Proof. intros s [HJ HP]. split; [by apply J_emit | done]. Qed.

Lemma typed_append x : P x -> typed_by (modify_bench (fun b => set_results (results b ++ [x]) b)).
Proof. intros Hx s [HJ HP]. split; [by apply J_results | apply Forall_app_2; [done | by constructor]]. Qed.

Lemma typed_collect i :
  hoare typed (collect_results i) (fun r s => typed s /\ forall x, r = Some x -> P x) (fun _ => typed).
Proof.
  intros s [HJ HP]. pose proof (J_collect i s HJ) as Hc.
  destruct (collect_results i s) as [[a|e] s'] eqn:E; destruct (collect_keeps i _ _ _ E) as [(_ & _ & Hr) _];
    unfold typed; rewrite Hr; [destruct Hc; by split_and! | by split].
Qed.

Ltac typed_tac :=
  repeat (match goal with
    | |- typed_by (collect_results _ ≫= _) =>
        eapply hoare_bind; [apply typed_collect | intros ?; cbv beta; apply hoare_pre_intro_r; intros ?]
    | |- typed_by (_ ≫= _) => apply typed_bind
    | |- typed_by (modify_bench _) => apply typed_append; eauto
    | |- typed_by (mret _) => apply hoare_ret; by intros
    | |- typed_by (throw _) => by apply hoare_throw
    | |- typed_by (gets _) => by intros ? ?
    | |- typed_by (if _ then _ else _) => apply hoare_if
    | |- typed_by (on_world (emit _)) => apply typed_emit
    | |- typed_by (on_world _) => apply typed_on_world; tame_tac
    | |- typed_by focus_game_window => apply typed_keeps; [apply focus_keeps | done]
    | |- typed_by wait_until_ready => apply typed_keeps; [apply wait_keeps | done]
    | |- typed_by navigate_to_benchmark => apply typed_keeps; [apply navigate_keeps | done]
    | |- typed_by start_benchmark => apply typed_keeps; [apply start_keeps | done]
    | |- typed_by teardown => apply typed_keeps; [apply teardown_keeps | done]
    | |- typed_by (match ?x with _ => _ end) => destruct x
    | |- forall _, typed_by _ => intro
    end).

Lemma typed_execute i d : typed_by (execute_benchmark_run i d).
Proof.
  unfold execute_benchmark_run. apply hoare_catch with (E := fun _ => typed); [| intros; by apply hoare_ret].
  unfold launch, launch_steam_game, log_dry_duration. typed_tac.
Qed.

Lemma typed_series n c :
  hoare typed (run_benchmark_series n c) (fun l s => typed s /\ Forall P l) (fun _ => typed).
Proof.
  assert (Hl : forall ids, typed_by (series_loop n c ids)).
  { induction ids; cbn [series_loop]; typed_tac; [apply typed_execute | done]. }
  assert (Hg : hoare typed (gets results) (fun l s => typed s /\ Forall P l) (fun _ => typed)).
  { intros s [HJ HP]. by split. }
  unfold run_benchmark_series. apply hoare_bind with (Q := fun _ => typed); [apply typed_execute | intros _].
  apply hoare_bind with (Q := fun _ => typed); [by intros ? ? | intros [d|]; [| done]].
  apply hoare_bind with (Q := fun _ => typed); [apply typed_on_world; tame_tac | intros _].
  by apply hoare_bind with (Q := fun _ => typed); [apply Hl | intros _].
Qed.

(** The series, from a state with [J] whose results have [P]. *)
Theorem series_results_typed n c s r s' :
  J s -> Forall P (results (bench s)) -> run_benchmark_series n c s = (r, s') ->
  Forall P (results (bench s')) /\ (forall l, r = POk l -> Forall P l).
Proof.
  intros HJ HP Hrun. pose proof (typed_series n c s (conj HJ HP)) as Hh. rewrite Hrun in Hh.
  destruct r as [l|e]; [destruct Hh as [[_ ?] ?]; split; [done | by intros ? [= <-]] | by destruct Hh].
Qed.

End ResultTyping.

(** The numbers of a result's dictionary are JSON numbers. *)
Lemma wf_result_json r : Json.wf_json (result_json r) = true.
Proof.
  assert (Hi : forall o : option Z,
    Json.wf_json (match o with Some z => Json.JNum (str_of_Z z) | None => Json.JNull end) = true).
  { intros [z|]; [apply Json.wf_str_of_Z | done]. }
  assert (Hr : forall l : list (pystr * pyval),
    forallb (fun '(_, x) => Json.wf_json x) (map (fun '(k, v) => (k, Json.json_of_pyval v)) l) = true).
  { induction l as [|[k []] l IH]; cbn [map forallb]; [done | | | |]; rewrite IH; cbn [Json.json_of_pyval Json.wf_json];
      rewrite ?Json.wf_str_of_Z; done. }
  unfold result_json. cbn [Json.wf_json forallb]. cbv beta iota. rewrite !Hi, Json.wf_str_of_Z.
  cbn [Json.wf_json]. rewrite Hr.
  destruct (res_duration r); cbn [Json.wf_json]; [rewrite Json.wf_float_repr_ms |];
    destruct (screenshot_path r) as [[|]|]; done.
Qed.

(** ** Properties *)

Lemma execute_ok `{GameSteps} i d s :
  exists res s', execute_benchmark_run i d s = (POk res, s').
Proof.
  unfold execute_benchmark_run, catch.
  match goal with |- context [match ?b s with _ => _ end] => destruct (b s) as [[a|e] s1] end;
    eauto.
Qed.

(** C15: when the dry run leaves [benchmark_duration] unset (its end
    screen was not seen, or it raised), [run_benchmark_series] returns
    the results as they are right after the dry run: no cooldown and no
    further run. *)
Theorem run_benchmark_series_dry_fail `{GameSteps} n c s s1 r1 :
  execute_benchmark_run 0 true s = (r1, s1) -> benchmark_duration (bench s1) = None ->
  run_benchmark_series n c s = (POk (results (bench s1)), s1).
Proof.
  intros Hd Hn. destruct (execute_ok 0 true s) as (res & s2 & Hok). rewrite Hok in Hd.
  injection Hd as <- <-. unfold run_benchmark_series. rewrite stm_bind_run, Hok, stm_bind_run.
  cbn. by rewrite Hn.
Qed.

(** [peel H]: run one step of the same program in the hypothesis [H]
    and in the goal. *)
Ltac peel H :=
  rewrite stm_bind_run in H |- *;
  match type of H with
  | context [match ?m ?st with _ => _ end] =>
      let E := fresh "E" in
      destruct (m st) as [[?|?] ?] eqn:E; [cbn beta iota in H |- * | discriminate H]
  end.

(** C16: a dry run in which [collect_results] leaves the duration unset
    (the end screen was not seen) ends where [collect_results] left it,
    with [None]: formatting the unset duration raises [TypeError], so
    [teardown] never runs and the game is not closed. *)
Theorem dry_run_unmeasured_skips_teardown `{GameSteps} s r s1 :
  (launch;; focus_game_window;; wait_until_ready;; navigate_to_benchmark;; start_benchmark;;
   collect_results 0) s = (POk r, s1) ->
  benchmark_duration (bench s1) = None ->
  execute_benchmark_run 0 true s = (POk None, s1).
Proof.
  intros Hpre Hd. unfold execute_benchmark_run, catch.
  do 5 peel Hpre. rewrite stm_bind_run, Hpre. cbn beta iota.
  unfold log_dry_duration. rewrite !stm_bind_run. cbn. by rewrite Hd.
Qed.

(** C17: when [result.save()] raises, the run reports [None] although
    the result has already been appended to [self.results]: the series
    returns a result whose file was never written. *)
Theorem execute_save_fails `{GameSteps} i d s x s2 :
  (launch;; focus_game_window;; wait_until_ready;; navigate_to_benchmark;; start_benchmark;;
   result ← collect_results i; log_dry_duration d;; teardown;; mret result) s = (POk (Some x), s2) ->
  disk_ok (machine s2) = false ->
  exists s3, execute_benchmark_run i d s = (POk None, s3) /\
             results (bench s3) = results (bench s2) ++ [x].
Proof.
  intros Hpre Hdisk. unfold execute_benchmark_run, catch.
  do 5 peel Hpre. do 3 peel Hpre. injection Hpre as -> <-.
  rewrite !stm_bind_run. unfold modify_bench, on_world, save.
  cbn -[result_path]. rewrite stm_bind_run. cbn -[result_path]. rewrite Hdisk. by eexists.
Qed.

(** C21: a negative cooldown (which [prompt_for_cooldown] refuses but the
    [--cooldown] flag lets through) makes [run_benchmark_series] raise
    [ValueError] from [time.sleep] right after a dry run that measured
    the duration: no measured run is made. *)
Theorem run_benchmark_series_negative_cooldown `{GameSteps} run_count cooldown s r0 s1 d :
  execute_benchmark_run 0 true s = (r0, s1) ->
  benchmark_duration (bench s1) = Some d ->
  cooldown < 0 ->
  run_benchmark_series run_count cooldown s = (PErr ValueError, s1).
Proof.
  intros Hdry Hd Hc. destruct (execute_ok 0 true s) as (res & s2 & Hok). rewrite Hok in Hdry.
  injection Hdry as <- <-. unfold run_benchmark_series. rewrite stm_bind_run, Hok, stm_bind_run.
  cbn. rewrite Hd. unfold on_world.
  rewrite stm_bind_run, sleep_neg by lia. by destruct s2.
Qed.

(** The file [save()] writes for a result is [result_path] and
    holds [to_json()]; that text is JSON which decodes to the dictionary
    of [to_json()]: the result's game id, run id, timestamp, duration (in
    seconds), screenshot path and raw data, in that order. *)
Theorem save_writes_json r w p w' :
  save r w = (POk p, w') ->
  p = result_path r /\ trace w' = trace w ++ [EWrite p (to_json r)] /\
  Json.json_loads (to_json r) = Some (result_json r).
Proof.
  unfold save. destruct (disk_ok w); intros [= <- <-]. split_and!; [done | done |].
  apply Json.json_loads_dumps, wf_result_json.
Qed.

Section SeriesProperties.
Context `{GameStepsLaws}.

(** C11: whatever happens in the runs, [run_benchmark_series(run_count,
    cooldown)] only appends to [self.results], at most one result per
    run, in the order of the runs [0, 1, ..., run_count]; and what it
    returns is [self.results]. *)
Theorem run_benchmark_series_results n c s r s' :
  launcher_steam (configs (bench s)) = true ->
  run_benchmark_series n c s = (r, s') ->
  (exists xs, results (bench s') = results (bench s) ++ xs /\
              map res_run_id xs `sublist_of` 0 :: run_ids n) /\
  (forall l, r = POk l -> l = results (bench s')).
Proof.
  intros Hst Hrun. unfold run_benchmark_series in Hrun. rewrite stm_bind_run in Hrun.
  destruct (execute_benchmark_run 0 true s) as [r1 s1] eqn:E1.
  destruct (execute_step _ _ _ _ _ Hst E1) as ((Hg1 & Hc1 & xs1 & Hr1 & Hx1) & _ & res & ->).
  rewrite stm_bind_run in Hrun. cbn in Hrun.
  destruct (benchmark_duration (bench s1)).
  2: { injection Hrun as <- <-. split; [| by intros l [= <-]]. exists xs1. split; [done |].
       rewrite <- (app_nil_r (map res_run_id xs1)). apply sublist_run; [done | apply sublist_nil_l]. }
  rewrite stm_bind_run in Hrun. destruct (on_world (sleep (1000 * c)) s1) as [r2 s2] eqn:E2.
  apply on_world_sleep_step in E2 as (Hb2 & _ & _). destruct r2 as [[]|e].
  2: { injection Hrun as <- <-. split; [| done]. exists xs1. rewrite Hb2. split; [done |].
       rewrite <- (app_nil_r (map res_run_id xs1)). apply sublist_run; [done | apply sublist_nil_l]. }
  rewrite stm_bind_run in Hrun.
  destruct (series_loop n c (run_ids n) s2) as [r3 s3] eqn:E3.
  assert (Hst2 : launcher_steam (configs (bench s2)) = true) by (by rewrite Hb2, Hc1).
  destruct (series_loop_spec _ _ _ _ _ _ Hst2 E3) as ((_ & _ & xs3 & Hr3 & Hx3) & _).
  assert (Hres : exists xs, results (bench s3) = results (bench s) ++ xs /\
                 map res_run_id xs `sublist_of` 0 :: run_ids n).
  { exists (xs1 ++ xs3). rewrite Hr3, Hb2, Hr1, app_assoc, map_app. split; [done | by apply sublist_run]. }
  destruct r3 as [[]|e]; injection Hrun as <- <-; [split; [done | by intros l [= <-]] | by split].
Qed.

(** C10: with the steam launcher, a cooldown that is not negative and a
    dry run that measured the duration, [run_benchmark_series(run_count,
    cooldown)] launches the game [run_count + 1] times: the dry run and
    [run_count] measured runs. *)
Theorem run_benchmark_series_launches n c s r s' r1 s1 :
  launcher_steam (configs (bench s)) = true -> 0 <= c ->
  execute_benchmark_run 0 true s = (r1, s1) -> is_Some (benchmark_duration (bench s1)) ->
  run_benchmark_series n c s = (r, s') ->
  launch_count (machine s') = (launch_count (machine s) + 1 + Z.to_nat n)%nat.
Proof.
  intros Hst Hc E1 [d Hd] Hrun. unfold run_benchmark_series in Hrun.
  rewrite stm_bind_run, E1 in Hrun.
  destruct (execute_step _ _ _ _ _ Hst E1) as ((_ & Hc1 & _) & Hl1 & res & ->).
  rewrite stm_bind_run in Hrun. cbn in Hrun. rewrite Hd, stm_bind_run in Hrun.
  destruct (on_world (sleep (1000 * c)) s1) as [r2 s2] eqn:E2.
  apply on_world_sleep_step in E2 as (Hb2 & Hl2 & Hok2). rewrite Hok2 in Hrun by lia.
  rewrite stm_bind_run in Hrun.
  destruct (series_loop n c (run_ids n) s2) as [r3 s3] eqn:E3.
  assert (Hst2 : launcher_steam (configs (bench s2)) = true) by (by rewrite Hb2, Hc1).
  destruct (series_loop_spec _ _ _ _ _ _ Hst2 E3) as (_ & Hok3).
  destruct (Hok3 Hc) as [-> Hl3]. injection Hrun as _ <-.
  unfold run_ids in Hl3. rewrite length_map, length_seq in Hl3. lia.
Qed.

End SeriesProperties.

End Benchmark.
