(* ===== verification/Cs2Benchmark.v ===== *)
(** * Cs2Benchmark: [CS2Benchmark] of [katana/games/cs2/benchmark.py]

    The six steps of the CS2 benchmark as an instance of
    [Benchmark.GameSteps], over the interactor of [Interaction] and the
    detector of [World]; the constants of [katana/games/cs2/config.py].
    The instance discharges [Benchmark.GameStepsLaws], so every theorem
    of [Benchmark] holds of CS2; the theorems of this file are the ones
    that depend on what the CS2 steps do.

    [detector.wait_for_template] is called without [check_interval] by
    [wait_until_ready] and [teardown]; the detector is not part of the
    repository and its default interval is taken to be one second. *)

From S2P Require Import Prelude PyStr Json World Interaction Benchmark.

Local Open Scope Z_scope.

Module Cs2Benchmark.
Import Benchmark GameInteractor.

(** ** [config.py] *)

Definition GAME_ID : pystr := lit "730".
Definition GAME_NAME : pystr := lit "Counter-Strike 2".
Definition WINDOW_TITLE : pystr := lit "Counter-Strike 2".

Definition REQUIRED_ASSETS : list pystr :=
  [lit "play_tab.png"; lit "workshop_tab.png"; lit "cs2_fps_benchmark.png"; lit "go_button.png";
   lit "benchmark_first_frame.png"; lit "benchmark_end_screen.png"; lit "power_button.png";
   lit "quit_button.png"].

(** The entries of [CONFIG] the code reads (the others, strings and a
    float, are never read). *)
Definition CONFIG : list (pystr * pyval) :=
  [(lit "launcher", VStr (lit "steam")); (lit "launch_wait_time", VInt 40);
   (lit "cooldown", VInt 120); (lit "default_runs", VInt 4); (lit "template_timeout", VInt 30)].

(** The detector's default [check_interval] (see the header). *)
Definition default_interval : Z := 1000.

(** [CONFIG.get("template_timeout", 40)], an [int]. *)
Definition template_timeout : Z :=
  match cfg_get (lit "template_timeout") (VInt 40) CONFIG with VInt z => z | _ => 40 end.

(** [CS2Benchmark.__init__] (lines 21-38): the object of the generic
    constructor; the result of [check_assets] is not used. *)
Definition init_cs2 : game_bench := init_bench GAME_ID GAME_NAME (Some WINDOW_TITLE) CONFIG.

(** ** The steps *)

(** [focus_game_window()] (lines 40-42). *)
Definition focus_game_window : stm sys bool :=
  b ← gets id; on_world (focus_window (window_title b)).

(** [wait_until_ready()] (lines 44-62). *)
Definition wait_until_ready : stm sys bool :=
  on_world (press_key (lit "esc") 3;;
            wait_for_template (lit "play_tab.png") (1000 * template_timeout) default_interval).

(** [navigate_to_benchmark()] (lines 64-103). *)
Definition navigate_to_benchmark : stm sys bool :=
  on_world (
    play_clicked ← click_template_with_retry (lit "play_tab.png") 3;
    if negb play_clicked then mret false else
    workshop_found ← wait_for_template (lit "workshop_tab.png") 20000 2000;
    if negb workshop_found then mret false else
    click_template_default (lit "workshop_tab.png");;
    benchmark_found ← wait_for_template (lit "cs2_fps_benchmark.png") 20000 2000;
    if negb benchmark_found then mret false else
    click_template_default (lit "cs2_fps_benchmark.png");;
    mret true).

(** [start_benchmark()] (lines 105-136). *)
Definition start_benchmark : stm sys bool :=
  go_found ← on_world (wait_for_template (lit "go_button.png") 15000 2000);
  if negb go_found then mret false else
  on_world (click_template_default (lit "go_button.png"));;
  benchmark_started ← on_world (wait_for_template (lit "benchmark_first_frame.png") 20000 1000);
  if negb benchmark_started then mret false else
  t ← on_world now;
  modify_bench (set_start_time (Some t));;
  mret true.

Definition screenshot_name (run_id : Z) (timestamp : pystr) : pystr :=
  lit "cs2_benchmark_result_run" ++ str_of_Z run_id ++ lit "_" ++ timestamp ++ lit ".png".

(** The dry run of [collect_results] (lines 153-180): the end screen
    gives the duration, [benchmark_end_time - benchmark_start_time],
    which raises [TypeError] when the start was never seen. *)
Definition collect_dry (run_id : Z) (result : bench_result) : stm sys (option bench_result) :=
  benchmark_end ← on_world (wait_for_template (lit "benchmark_end_screen.png") 124000 3000);
  if negb benchmark_end then mret None else
  t ← on_world now;
  modify_bench (set_end_time (Some t));;
  start ← gets benchmark_start_time;
  match start with
  | None => throw TypeError
  | Some t0 =>
      modify_bench (set_duration (Some (t - t0)));;
      on_world (sleep 12000);;
      timestamp ← on_world strftime_now;
      path ← on_world (take_screenshot (Some (screenshot_name run_id timestamp)));
      mret (Some (set_screenshot_path path (set_res_duration (Some (t - t0)) result)))
  end.

(** A measured run of [collect_results] (lines 183-203): sleep the known
    duration and twelve seconds, then take the screenshot. *)
Definition collect_timed (run_id : Z) (result : bench_result) : stm sys (option bench_result) :=
  d ← gets benchmark_duration;
  match d with
  | None => mret None
  | Some known_duration =>
      on_world (sleep (known_duration + 12000));;
      timestamp ← on_world strftime_now;
      path ← on_world (take_screenshot (Some (screenshot_name run_id timestamp)));
      mret (Some (set_res_duration (Some known_duration) (set_screenshot_path path result)))
  end.

(** [collect_results(run_id)] (lines 138-205). *)
Definition collect_results (run_id : Z) : stm sys (option bench_result) :=
  b ← gets id;
  result ← on_world (new_result (game_id b) run_id);
  if bool_decide (run_id = 0) then collect_dry run_id result else collect_timed run_id result.

(** [teardown()] (lines 207-254); [pyautogui.hotkey] is not guarded. *)
Definition teardown : stm sys bool :=
  on_world (
    sleep 10000;;
    press_key (lit "`") 1;;
    sleep 1000;;
    sleep 3000;;
    power_found ← wait_for_template (lit "power_button.png") 10000 default_interval;
    (if (power_found : bool) then click_template_default (lit "power_button.png");; sleep 2000 else mret tt);;
    quit_found ← wait_for_template (lit "quit_button.png") 10000 default_interval;
    (if (quit_found : bool) then click_template_default (lit "quit_button.png");; mret tt
     else gui (EHotkey [lit "alt"; lit "f4"]));;
    sleep 5000;;
    mret true).

#[export] Instance cs2_steps : GameSteps := {|
  Benchmark.focus_game_window := focus_game_window;
  Benchmark.wait_until_ready := wait_until_ready;
  Benchmark.navigate_to_benchmark := navigate_to_benchmark;
  Benchmark.start_benchmark := start_benchmark;
  Benchmark.collect_results := collect_results;
  Benchmark.teardown := teardown
|}.

(** ** The laws of the steps *)

(** [triv_hoare]: follow the returned value through a method whose
    intermediate states do not matter. *)
Ltac triv_hoare :=
  repeat first
    [ apply hoare_if
    | (apply hoare_throw; done)
    | (eapply hoare_bind; [apply hoare_any | intros ?])
    | (apply hoare_ret; intros ? ? ? [= <-]; reflexivity)
    | (apply hoare_ret; intros ? ? ? [=])
    | match goal with |- hoare _ (match ?x with _ => _ end) _ _ => destruct x end ].

Lemma collect_dry_run_id i r :
  hoare (fun _ => True) (collect_dry i r)
    (fun o _ => forall x, o = Some x -> res_run_id x = res_run_id r) (fun _ _ => True).
Proof. unfold collect_dry. triv_hoare. Qed.

Lemma collect_timed_run_id i r :
  hoare (fun _ => True) (collect_timed i r)
    (fun o _ => forall x, o = Some x -> res_run_id x = res_run_id r) (fun _ _ => True).
Proof. unfold collect_timed. triv_hoare. Qed.

Lemma collect_results_run_id i s x s' :
  collect_results i s = (POk (Some x), s') -> res_run_id x = i.
Proof.
  unfold collect_results. rewrite stm_bind_run. cbn. rewrite stm_bind_run.
  unfold on_world at 1, new_result. rewrite stm_bind_run. cbn.
  case_bool_decide; intros E;
    match type of E with
    | collect_dry i ?r ?s0 = _ => pose proof (collect_dry_run_id i r s0 I) as Hh
    | collect_timed i ?r ?s0 = _ => pose proof (collect_timed_run_id i r s0 I) as Hh
    end; rewrite E in Hh; by rewrite (Hh x eq_refl).
Qed.

Lemma keeps_focus_game_window : keeps focus_game_window.
Proof. unfold focus_game_window. keeps_tac. Qed.
Lemma keeps_wait_until_ready : keeps wait_until_ready.
Proof. unfold wait_until_ready. keeps_tac. Qed.
Lemma keeps_navigate_to_benchmark : keeps navigate_to_benchmark.
Proof. unfold navigate_to_benchmark. keeps_tac. Qed.
Lemma keeps_start_benchmark : keeps start_benchmark.
Proof. unfold start_benchmark. keeps_tac. Qed.
Lemma keeps_collect_results i : keeps (collect_results i).
Proof. unfold collect_results, collect_dry, collect_timed. keeps_tac. Qed.
Lemma keeps_teardown : keeps teardown.
Proof. unfold teardown. keeps_tac. Qed.

#[export] Instance cs2_steps_laws : GameStepsLaws.
Proof.
  split; [exact keeps_focus_game_window | exact keeps_wait_until_ready | exact keeps_navigate_to_benchmark
         | exact keeps_start_benchmark | exact keeps_collect_results | exact keeps_teardown
         | exact collect_results_run_id].
Qed.

(** ** The time invariant

    The recorded start and end times are never in the future and the
    measured duration is never negative. *)

Definition time_inv (s : sys) : Prop :=
  (forall t, benchmark_start_time (bench s) = Some t -> t <= clock (machine s)) /\
  (forall t, benchmark_end_time (bench s) = Some t -> t <= clock (machine s)) /\
  (forall d, benchmark_duration (bench s) = Some d -> 0 <= d).

Definition preserves {A} (m : stm sys A) : Prop := hoare time_inv m (fun _ => time_inv) (fun _ => time_inv).

Lemma time_inv_world s w' :
  time_inv s -> world_le (machine s) w' -> time_inv {| bench := bench s; machine := w' |}.
Proof.
  intros (Hs & He & Hd) (_ & _ & _ & _ & _ & Hc & _). unfold time_inv. cbn.
  split_and!; [intros t Ht; specialize (Hs t Ht); lia | intros t Ht; specialize (He t Ht); lia | done].
Qed.

Lemma preserves_bind {A B} (m : stm sys A) (f : A -> stm sys B) :
  preserves m -> (forall a, preserves (f a)) -> preserves (m ≫= f).
Proof. intros. by eapply hoare_bind. Qed.

Lemma preserves_on_world {A} (m : stm world A) : tame m -> preserves (on_world m).
Proof. intros Hm. apply hoare_on_world; [done |]. intros s w' Hw Hs. by apply time_inv_world. Qed.

Lemma preserves_gets {A} (f : game_bench -> A) : preserves (gets f).
Proof. by intros s Hs. Qed.

(** [t ← time.time(); k t]: the continuation knows [t] is the clock. *)
Lemma preserves_now_bind {A} (k : Z -> stm sys A) :
  (forall t, hoare (fun s => time_inv s /\ t = clock (machine s)) (k t) (fun _ => time_inv) (fun _ => time_inv)) ->
  preserves (on_world now ≫= k).
Proof. intros Hk. eapply hoare_bind; [| exact Hk]. by intros s Hs. Qed.

Lemma preserves_catch {A} (m : stm sys A) (h : pyexc -> stm sys A) :
  preserves m -> (forall e, preserves (h e)) -> preserves (catch m h).
Proof. intros. by eapply hoare_catch. Qed.

(** Emitting an event (a launch included) leaves the clock alone. *)
Lemma preserves_emit e : preserves (on_world (emit e)).
Proof.
  intros s (Hs & He & Hd). unfold time_inv. cbn. split_and!; [exact Hs | exact He | exact Hd].
Qed.

Lemma preserves_set_results (f : game_bench -> list bench_result) :
  preserves (modify_bench (fun b => set_results (f b) b)).
Proof. intros s Hs. exact Hs. Qed.

Ltac pres_tac :=
  repeat (match goal with
    | |- hoare time_inv ?m (fun _ => time_inv) (fun _ => time_inv) => change (preserves m)
    | |- preserves (on_world now ≫= _) => apply preserves_now_bind
    | |- preserves (_ ≫= _) => apply preserves_bind
    | |- preserves (mret _) => apply hoare_ret; by intros
    | |- preserves (throw _) => by apply hoare_throw
    | |- preserves (gets _) => apply preserves_gets
    | |- preserves (catch _ _) => apply preserves_catch
    | |- preserves (modify_bench (fun b => set_results _ b)) => apply preserves_set_results
    | |- preserves _ => solve [eauto with pres]
    | |- preserves (if _ then _ else _) => apply hoare_if
    | |- preserves (on_world (emit _)) => apply preserves_emit
    | |- preserves (on_world _) => apply preserves_on_world; tame_tac
    | |- preserves (match ?x with _ => _ end) => destruct x
    | |- forall _, preserves _ => intro
    | |- forall _, hoare _ _ _ _ => intro
    end).

Lemma preserves_start_benchmark : preserves start_benchmark.
Proof.
  unfold start_benchmark. pres_tac. intros s [(Hs & He & Hd) ->]. rewrite stm_bind_run.
  unfold time_inv. cbn.
  split_and!; [intros t' [= <-]; lia | done | done].
Qed.

(** A result of game [g] with a measured duration that is set and not
    negative. *)
Definition measured_result (g : pystr) (x : bench_result) : Prop :=
  res_game_id x = g /\ exists d, res_duration x = Some d /\ 0 <= d.

(** [measured_tail]: the sleep, the timestamp and the screenshot that end
    both branches of [collect_results], then the result they return. *)
Ltac measured_tail :=
  repeat (apply hoare_bind with (Q := fun _ => time_inv); [pres_tac | intros ?]);
  apply hoare_ret; intros ? ?; split; [done |];
  intros ? [= <-]; split; [done | eexists; split; [done | lia]].

Lemma collect_dry_spec i r :
  hoare time_inv (collect_dry i r)
    (fun o s => time_inv s /\ forall x, o = Some x -> measured_result (res_game_id r) x) (fun _ => time_inv).
Proof.
  unfold collect_dry. apply hoare_bind with (Q := fun _ => time_inv); [pres_tac | intros found].
  apply hoare_if; [apply hoare_ret; intros s Hs; split; [done | discriminate] |].
  apply hoare_bind with (Q := fun t s => time_inv s /\ t = clock (machine s)); [by intros s Hs | intros t].
  apply hoare_bind with (Q := fun _ s => time_inv s /\ t = clock (machine s)).
  { intros s [(Hs & He & Hd) ->]. cbn. unfold time_inv. cbn.
    split_and!; [done | intros t' [= <-]; lia | done | done]. }
  intros _. apply hoare_bind with
    (Q := fun v s => v = benchmark_start_time (bench s) /\ time_inv s /\ t = clock (machine s)).
  { by intros s Hs. }
  intros [t0|]; [| apply hoare_throw; by intros s (_ & ? & _)].
  apply hoare_bind with (Q := fun _ s => time_inv s /\ 0 <= t - t0).
  { intros s (Hv & (Hs & He & Hd) & ->). unfold time_inv. cbn. pose proof (Hs t0 (eq_sym Hv)).
    split_and!; [intros t' Ht'; by apply Hs | intros t' Ht'; by apply He | intros d [= <-]; lia | lia]. }
  intros _. apply hoare_pre_intro_r. intros Ht. measured_tail.
Qed.

Lemma collect_timed_spec i r :
  hoare time_inv (collect_timed i r)
    (fun o s => time_inv s /\ forall x, o = Some x -> measured_result (res_game_id r) x) (fun _ => time_inv).
Proof.
  unfold collect_timed.
  apply hoare_bind with (Q := fun v s => v = benchmark_duration (bench s) /\ time_inv s); [by intros s Hs |].
  intros [k|]; [| apply hoare_ret; intros s [_ Hs]; split; [done | discriminate]].
  apply hoare_pre with (P' := fun s => time_inv s /\ 0 <= k);
    [| intros s [Hk (? & ? & Hd)]; split; [done | by apply Hd]].
  apply hoare_pre_intro_r. intros Hk. measured_tail.
Qed.

(** What [collect_results] returns, when it returns a result, is a
    result of the object's game with a measured duration. *)
Lemma collect_results_spec i g :
  hoare (fun s => time_inv s /\ game_id (bench s) = g) (collect_results i)
    (fun o s => time_inv s /\ forall x, o = Some x -> measured_result g x) (fun _ => time_inv).
Proof.
  unfold collect_results.
  apply hoare_bind with (Q := fun b s => game_id b = g /\ time_inv s); [by intros s [? ?] | intros b].
  apply hoare_bind with (Q := fun r s => res_game_id r = g /\ time_inv s).
  { intros s [Hg Hs]. unfold on_world, new_result. rewrite stm_bind_run. by cbn. }
  intros r. apply hoare_pre_intro. intros <-.
  apply hoare_if; [apply collect_dry_spec | apply collect_timed_spec].
Qed.

Lemma preserves_collect_results i : preserves (collect_results i).
Proof.
  unfold collect_results. pres_tac.
  eapply hoare_conseq; [apply collect_dry_spec | done | by intros ? ? [] | done].
  unfold collect_timed. pres_tac.
Qed.

Create HintDb pres discriminated.
Lemma preserves_focus_game_window : preserves focus_game_window.
Proof. unfold focus_game_window. pres_tac. Qed.
Lemma preserves_wait_until_ready : preserves wait_until_ready.
Proof. unfold wait_until_ready. pres_tac. Qed.
Lemma preserves_navigate_to_benchmark : preserves navigate_to_benchmark.
Proof. unfold navigate_to_benchmark. pres_tac. Qed.
Lemma preserves_teardown : preserves teardown.
Proof. unfold teardown. pres_tac. Qed.

#[export] Hint Resolve preserves_start_benchmark preserves_collect_results preserves_focus_game_window
  preserves_wait_until_ready preserves_navigate_to_benchmark preserves_teardown : pres.

Lemma preserves_execute i d : preserves (execute_benchmark_run i d).
Proof.
  unfold execute_benchmark_run, launch, launch_steam_game, log_dry_duration. cbn -[stm_bind].
  pres_tac.
Qed.

#[export] Hint Resolve preserves_execute : pres.

Lemma preserves_series n c : preserves (run_benchmark_series n c).
Proof.
  unfold run_benchmark_series. pres_tac.
  generalize (run_ids n). intros ids. induction ids; cbn [series_loop]; pres_tac.
Qed.

(** ** The results a series stores

    The time invariant, and the object being the one of game [730]. *)
Definition cs2_inv (s : sys) : Prop := time_inv s /\ game_id (bench s) = GAME_ID.

Lemma cs2_inv_step {A} (m : stm sys A) :
  keeps m -> preserves m -> hoare cs2_inv m (fun _ => cs2_inv) (fun _ => cs2_inv).
Proof.
  intros Hk Hp s [Ht Hg]. specialize (Hp s Ht).
  destruct (m s) as [[a|e] s'] eqn:E; destruct (Hk _ _ _ E) as [(Hg' & _) _]; (split; [done | congruence]).
Qed.

Lemma cs2_inv_collect i :
  hoare cs2_inv (collect_results i)
    (fun r s => cs2_inv s /\ forall x, r = Some x -> measured_result GAME_ID x) (fun _ => cs2_inv).
Proof.
  intros s [Ht Hg]. pose proof (collect_results_spec i GAME_ID s (conj Ht Hg)) as Hc.
  destruct (collect_results i s) as [[a|e] s'] eqn:E; destruct (keeps_collect_results i _ _ _ E) as [(Hg' & _) _].
  - destruct Hc as [Ht' Hx]. split; [split; [done | congruence] | done].
  - split; [done | congruence].
Qed.

(** The hypotheses of [series_results_typed] for [cs2_inv]. *)
Ltac cs2_inv_tac :=
  match goal with
  | |- forall s w', cs2_inv s -> world_le _ _ -> _ => intros s w' [Ht Hg] Hw; split; [by apply time_inv_world | done]
  | |- forall s e, cs2_inv s -> _ => intros s e [Ht Hg]; split; [apply (preserves_emit e s Ht) | done]
  | |- forall s l, cs2_inv s -> _ => intros s l [Ht Hg]; split; [exact Ht | done]
  | |- hoare cs2_inv _ _ _ =>
      apply cs2_inv_step; [solve [apply focus_keeps | apply wait_keeps | apply navigate_keeps
                                  | apply start_keeps | apply teardown_keeps] |];
      cbn -[focus_game_window wait_until_ready navigate_to_benchmark start_benchmark teardown];
      solve [eauto with pres]
  end.

(** ** Measured runs *)

(** A measured run of the series: a machine that accepts every GUI call
    and every write, the object's configuration, a known duration, and
    the results so far. *)
Definition run_env (k : Z) (l0 : list bench_result) (s : sys) : Prop :=
  gui_up (machine s) /\ disk_ok (machine s) = true /\ configs (bench s) = CONFIG /\
  benchmark_duration (bench s) = Some k /\ results (bench s) = l0.

Lemma run_env_gui k l0 s : run_env k l0 s -> gui_up (machine s).
Proof. by intros []. Qed.

Lemma run_env_world k l0 s w' :
  world_le (machine s) w' -> run_env k l0 s -> run_env k l0 {| bench := bench s; machine := w' |}.
Proof.
  intros Hw (Hg & Hd & Hc & Hk & Hr). pose proof (gui_up_le _ _ Hw Hg) as Hg'.
  destruct Hw as (_ & _ & _ & Hd' & _). unfold run_env. cbn. split_and!; congruence.
Qed.

#[local] Hint Extern 1 (0 <= default_interval) => (unfold default_interval; lia) : safe.

Ltac run_env_tac :=
  runs_tac; try (apply run_env_gui || apply run_env_world).

Lemma runs_focus k l0 : runs_in (run_env k l0) focus_game_window.
Proof. unfold focus_game_window. run_env_tac. Qed.

Lemma runs_wait k l0 : runs_in (run_env k l0) wait_until_ready.
Proof. unfold wait_until_ready. run_env_tac. Qed.

Lemma runs_navigate k l0 : runs_in (run_env k l0) navigate_to_benchmark.
Proof. unfold navigate_to_benchmark. run_env_tac. Qed.

Lemma runs_teardown k l0 : runs_in (run_env k l0) teardown.
Proof. unfold teardown. run_env_tac. Qed.

Lemma runs_start k l0 : runs_in (run_env k l0) start_benchmark.
Proof.
  unfold start_benchmark. run_env_tac.
  apply runs_modify. intros s (Hg & Hd & Hc & Hk & Hr). by split_and!.
Qed.

Lemma runs_launch k l0 : runs_in (run_env k l0) launch.
Proof.
  intros s (Hg & Hd & Hc & Hk & Hr).
  rewrite (launch_run s 40); [| by rewrite Hc | by rewrite Hc | lia].
  unfold run_env. cbn. by split_and!.
Qed.

(** The result of a measured run, whatever the steps before found. *)
Lemma collect_measured k l0 i :
  i <> 0 -> 0 <= k ->
  hoare (run_env k l0) (collect_results i)
    (fun r s => run_env k l0 s /\ exists x, r = Some x /\ res_duration x = Some k /\ res_run_id x = i)
    (fun _ _ => False).
Proof.
  intros Hi Hk0. unfold collect_results.
  eapply hoare_bind; [apply runs_gets | intros b].
  eapply hoare_bind with (Q := fun r s => res_run_id r = i /\ run_env k l0 s).
  { intros s Hs. cbn. by split. }
  intros r. apply hoare_pre_intro. intros Hr. rewrite bool_decide_eq_false_2 by done.
  unfold collect_timed.
  eapply hoare_bind with (Q := fun d s => d = Some k /\ run_env k l0 s).
  { intros s Hs. split; [apply Hs | done]. }
  intros d. apply hoare_pre_intro. intros ->.
  do 3 (apply (hoare_bind (run_env k l0) _ _ (fun _ => run_env k l0));
        [match goal with |- hoare ?I ?m _ _ => change (runs_in I m) end; run_env_tac | intros ?]).
  apply hoare_ret. intros s Hs. split; [done |]. eexists. split_and!; [done | done | done].
Qed.

(** ** Properties *)

(** C12: from the object [CS2Benchmark()] creates, on any machine, every
    state [run_benchmark_series] reaches, normal end or exception, has
    its recorded start and end times in the past and a duration that is
    not negative; so the wait [known_duration + 12] of a measured run
    never raises. *)
Theorem cs2_series_time_inv n c w r s' :
  run_benchmark_series n c {| bench := init_cs2; machine := w |} = (r, s') -> time_inv s'.
Proof.
  intros Hrun. pose proof (preserves_series n c {| bench := init_cs2; machine := w |}) as Hp.
  unfold preserves, hoare in Hp. rewrite Hrun in Hp.
  assert (Hi : time_inv {| bench := init_cs2; machine := w |}) by (unfold time_inv; cbn; split_and!; discriminate).
  destruct r; by apply Hp.
Qed.

(** C13: every result a CS2 series stores in [self.results], and every
    result of the list it returns, is a [BenchmarkResult] of the game
    [730] whose [duration] is set and not negative: the dry run's is
    [benchmark_end_time - benchmark_start_time], a measured run's the
    known duration. *)
Theorem cs2_series_results_typed n c w r s' :
  run_benchmark_series n c {| bench := init_cs2; machine := w |} = (r, s') ->
  Forall (measured_result GAME_ID) (results (bench s')) /\
  (forall l, r = POk l -> Forall (measured_result GAME_ID) l).
Proof.
  apply (series_results_typed cs2_inv); [cs2_inv_tac .. | exact cs2_inv_collect | | constructor].
  split; [unfold time_inv; cbn; split_and!; discriminate | done].
Qed.

(** C9: a measured run ([run_id > 0]) of CS2 with a GUI that accepts
    every call and a writable disk always returns a result, with the
    known duration, and appends it to [self.results], whatever the
    screen shows: none of the steps' results is looked at, so a run in
    which the game never reached the benchmark map is recorded as a
    measurement. *)
Theorem measured_run_records_result i k s :
  i <> 0 -> 0 <= k -> gui_up (machine s) -> disk_ok (machine s) = true ->
  configs (bench s) = CONFIG -> benchmark_duration (bench s) = Some k ->
  exists x s', execute_benchmark_run i false s = (POk (Some x), s') /\
    res_duration x = Some k /\ res_run_id x = i /\ results (bench s') = results (bench s) ++ [x].
Proof.
  intros Hi Hk Hg Hd Hc Hdur. set (l0 := results (bench s)).
  assert (Hh : hoare (run_env k l0) (execute_benchmark_run i false)
    (fun r s' => exists x, r = Some x /\ res_duration x = Some k /\ res_run_id x = i /\
                           results (bench s') = l0 ++ [x]) (fun _ _ => False)).
  { unfold execute_benchmark_run. apply hoare_catch with (E := fun _ _ => False); [| intros e s0 []].
    apply (hoare_bind _ _ _ (fun _ => run_env k l0)); [apply runs_launch | intros ?].
    apply (hoare_bind _ _ _ (fun _ => run_env k l0)); [apply runs_focus | intros ?].
    apply (hoare_bind _ _ _ (fun _ => run_env k l0)); [apply runs_wait | intros ?].
    apply (hoare_bind _ _ _ (fun _ => run_env k l0)); [apply runs_navigate | intros ?].
    apply (hoare_bind _ _ _ (fun _ => run_env k l0)); [apply runs_start | intros ?].
    eapply hoare_bind; [by apply collect_measured | intros result].
    apply hoare_pre_intro_r. intros (x & -> & Hx1 & Hx2).
    apply (hoare_bind _ _ _ (fun _ => run_env k l0)); [apply runs_ret | intros ?].
    apply (hoare_bind _ _ _ (fun _ => run_env k l0)); [apply runs_teardown | intros ?].
    intros s0 (Hg0 & Hd0 & _ & _ & Hr0). rewrite !stm_bind_run. cbn. unfold on_world, save. cbn.
    rewrite stm_bind_run. cbn. rewrite Hd0. cbn. exists x. by rewrite Hr0. }
  specialize (Hh s (conj Hg (conj Hd (conj Hc (conj Hdur eq_refl))))).
  destruct (execute_benchmark_run i false s) as [[r|e] s'] eqn:E; [| done].
  destruct Hh as (x & -> & Hx). by exists x, s'.
Qed.

(** ** Witnesses *)

(** A machine on which every template is on screen, except those listed
    in [hidden]. *)
Definition ex_world (hidden : list pystr) (disk : bool) : world := {|
  clock := 0;
  screen := fun _ name => if bool_decide (name ∈ hidden) then None else Some (960, 540);
  windows := fun _ => Activates;
  gui_ok := fun _ => true;
  disk_ok := disk;
  stamp := fun _ => lit "20261109_120000";
  trace := []
|}.

Definition ex_sys (hidden : list pystr) (disk : bool) : sys :=
  {| bench := init_cs2; machine := ex_world hidden disk |}.

Definition ex_ok : sys := ex_sys [] true.
Definition ex_no_end : sys := ex_sys [lit "benchmark_end_screen.png"] true.

Definition ex_blind : sys := ex_sys REQUIRED_ASSETS true.

(** A machine on which no template ever shows. *)
Definition ex_measured : sys :=
  {| bench := set_duration (Some 60000) init_cs2; machine := ex_world REQUIRED_ASSETS true |}.

(** The dry run measured 60 s; every template shows, the disk is full. *)
Definition ex_disk_full : sys :=
  {| bench := set_duration (Some 60000) init_cs2; machine := ex_world [] false |}.

Lemma cs2_series_time_inv_witness : time_inv (run_benchmark_series 4 120 ex_ok).2.
Proof.
  apply (cs2_series_time_inv 4 120 (ex_world [] true) (run_benchmark_series 4 120 ex_ok).1).
  apply surjective_pairing.
Defined.

Lemma cs2_series_results_typed_witness :
  Forall (measured_result GAME_ID) (results (bench (run_benchmark_series 4 120 ex_ok).2)).
Proof.
  apply (cs2_series_results_typed 4 120 (ex_world [] true) (run_benchmark_series 4 120 ex_ok).1).
  apply surjective_pairing.
Defined.

Lemma measured_run_records_result_witness :
  exists x s', execute_benchmark_run 1 false ex_measured = (POk (Some x), s') /\
    res_duration x = Some 60000 /\ res_run_id x = 1 /\ results (bench s') = results (bench ex_measured) ++ [x].
Proof.
  apply (measured_run_records_result 1 60000 ex_measured); [lia | lia | intros t; reflexivity | reflexivity | reflexivity | reflexivity].
Defined.

Lemma run_benchmark_series_dry_fail_witness :
  run_benchmark_series 4 120 ex_no_end
  = (POk (results (bench (execute_benchmark_run 0 true ex_no_end).2)),
     (execute_benchmark_run 0 true ex_no_end).2).
Proof.
  apply (run_benchmark_series_dry_fail 4 120 ex_no_end _ (execute_benchmark_run 0 true ex_no_end).1);
    [apply surjective_pairing | vm_compute; reflexivity].
Defined.

Lemma run_benchmark_series_results_witness :
  exists xs, results (bench (run_benchmark_series 4 120 ex_ok).2) = results (bench ex_ok) ++ xs /\
             map res_run_id xs `sublist_of` 0 :: run_ids 4.
Proof.
  apply (run_benchmark_series_results 4 120 ex_ok (run_benchmark_series 4 120 ex_ok).1);
    [reflexivity | apply surjective_pairing].
Defined.

(** Four runs by the default configuration are five launches. *)
Lemma run_benchmark_series_launches_witness :
  launch_count (machine (run_benchmark_series 4 120 ex_ok).2) = 5%nat.
Proof.
  apply (run_benchmark_series_launches 4 120 ex_ok (run_benchmark_series 4 120 ex_ok).1 _
           (execute_benchmark_run 0 true ex_ok).1 (execute_benchmark_run 0 true ex_ok).2);
    [reflexivity | lia | apply surjective_pairing | vm_compute; eexists; reflexivity | apply surjective_pairing].
Defined.

(** The dry run on a machine that never shows the end screen stops right
    after [collect_results]. *)
Lemma dry_run_unmeasured_skips_teardown_witness :
  execute_benchmark_run 0 true ex_no_end
  = (POk None, ((launch;; focus_game_window;; wait_until_ready;; navigate_to_benchmark;;
                start_benchmark;; collect_results 0) ex_no_end).2).
Proof.
  eapply dry_run_unmeasured_skips_teardown; [vm_compute; reflexivity | vm_compute; reflexivity].
Defined.

(** A measured run after the dry run, on a machine whose disk refuses
    the write of the result file. *)
Lemma execute_save_fails_witness :
  exists s3, execute_benchmark_run 1 false ex_disk_full = (POk None, s3) /\
    length (results (bench s3)) = 1%nat.
Proof.
  edestruct (execute_save_fails 1 false ex_disk_full) as (s3 & E & R);
    [vm_compute; reflexivity | vm_compute; reflexivity |].
  exists s3. split; [exact E | rewrite R; vm_compute; reflexivity].
Defined.

(** A cooldown of -5 s after the measured dry run of [ex_ok]. *)
Lemma run_benchmark_series_negative_cooldown_witness :
  run_benchmark_series 4 (-5) ex_ok = (PErr ValueError, (execute_benchmark_run 0 true ex_ok).2).
Proof.
  eapply (run_benchmark_series_negative_cooldown 4 (-5) ex_ok (execute_benchmark_run 0 true ex_ok).1);
    [apply surjective_pairing | vm_compute; reflexivity | lia].
Defined.

End Cs2Benchmark.
