(* ===== verification/Cli.v ===== *)
(** * Cli: the command line of [katana/main.py]

    Standard input is the list of lines still to be read; [input()] at
    its end raises [EOFError].  The prompt loops of [main.py] read one
    line per iteration, so they are structural recursions on that list
    and always terminate; they share the combinator [prompt_until].
    [main()] is modelled from the parsed arguments on ([argparse] itself
    is a library; its [choices] check on [--game] is kept), stage by
    stage: listing, game and preset selection, the preset application,
    and the [try] block that creates the benchmark and runs the series.
    What [main] prints is not modelled. *)

From S2P Require Import Prelude PyStr Cs2Preset Cs2Locate PresetManager Factory World Interaction Benchmark Cs2Benchmark.

Module Main.
Import GameFactory Benchmark.
Local Open Scope Z_scope.

(** ** Prompts *)

(** [while True: ... input() ...]: the first line [accept] takes gives
    the result; the others are answered by an error message and read
    past. *)
Fixpoint prompt_until {A} (accept : pystr -> option A) (inp : list pystr) : pyres A * list pystr :=
  match inp with
  | [] => (PErr EOFError, [])
  | line :: rest =>
      match accept line with
      | Some a => (POk a, rest)
      | None => prompt_until accept rest
      end
  end.

(** [prompt_for_game] (lines 108-130): [int(choice) - 1] must index
    [available_games]; a negative index is refused by the guard
    [0 <= index], a large one by [index < len(available_games)]. *)
Definition accept_game (available_games : list pystr) (line : pystr) : option pystr :=
  n ← py_int (py_strip line);
  let index := n - 1 in
  if bool_decide (0 <= index) then available_games !! Z.to_nat index else None.

Definition prompt_for_game (available_games : list pystr) : list pystr -> pyres pystr * list pystr :=
  prompt_until (accept_game available_games).

(** [prompt_for_runs] (lines 132-146). *)
Definition accept_runs (line : pystr) : option Z :=
  runs ← py_int (py_strip line); if bool_decide (runs > 0) then Some runs else None.

Definition prompt_for_runs : list pystr -> pyres Z * list pystr := prompt_until accept_runs.

(** [prompt_for_cooldown] (lines 148-162). *)
Definition accept_cooldown (line : pystr) : option Z :=
  cooldown ← py_int (py_strip line); if bool_decide (cooldown >= 0) then Some cooldown else None.

Definition prompt_for_cooldown : list pystr -> pyres Z * list pystr := prompt_until accept_cooldown.

(** The loop body of [prompt_for_preset] (lines 189-207): exactly [0]
    keeps the current settings; a number [i] picks the [i]-th preset,
    and gives [None] when its file has gone. *)
Definition accept_preset (st : preset_store) (game_id : pystr) (preset_ids : list pystr)
    (line : pystr) : option (option pystr) :=
  let choice := py_strip line in
  if bool_decide (choice = lit "0") then Some None else
  n ← py_int choice;
  let index := n - 1 in
  if bool_decide (0 <= index) then
    preset_id ← preset_ids !! Z.to_nat index;
    Some (if bool_decide (is_Some (preset_files st !! (game_id, preset_id))) then Some preset_id else None)
  else None.

(** [prompt_for_preset] (lines 164-207): no input is read when the game
    has no valid preset. *)
Definition prompt_for_preset (st : preset_store) (game_id : pystr) (inp : list pystr)
    : pyres (option pystr) * list pystr :=
  let presets := PresetManager.get_available_presets st game_id in
  if bool_decide (presets = []) then (POk None, inp)
  else prompt_until (accept_preset st game_id presets.*1) inp.

(** ** [main()] *)

(** The namespace [parse_args()] returns (lines 77-106). *)
Record cli_args : Type := {
  arg_game : option pystr;
  arg_runs : option Z;
  arg_cooldown : option Z;
  arg_list : bool;
  arg_preset : option pystr;
  arg_list_presets : bool
}.

Record cli_env : Type := {
  inp : list pystr;     (** the lines still on standard input *)
  store : preset_store; (** [katana/presets] *)
  files : fs;           (** the files the preset adapter reads and writes *)
  disk : faults;        (** the writes the disk refuses or cuts short *)
  env_world : world     (** the machine the benchmark drives *)
}.

Definition set_inp (l : list pystr) (e : cli_env) : cli_env :=
  {| inp := l; store := store e; files := files e; disk := disk e; env_world := env_world e |}.
Definition set_files (m : fs) (e : cli_env) : cli_env :=
  {| inp := inp e; store := store e; files := m; disk := disk e; env_world := env_world e |}.
Definition set_world (w : world) (e : cli_env) : cli_env :=
  {| inp := inp e; store := store e; files := files e; disk := disk e; env_world := w |}.

(** What instantiating a benchmark class gives: the object's fields and
    its game-specific steps. *)
Record game_class : Type := { class_bench : game_bench; class_steps : GameSteps }.

(** [key in benchmark.configs] and its value. *)
Definition cfg_lookup (key : pystr) (cfg : list (pystr * pyval)) : option pyval :=
  if bool_decide (key ∈ cfg.*1) then Some (cfg_get key VNone cfg) else None.

(** The runs or the cooldown (lines 291-305): the flag, else the game's
    configuration, else the prompt.  [None]: a configured value that is
    not an [int], outside the model. *)
Definition run_param (given : option Z) (cfg : list (pystr * pyval)) (key : pystr)
    (prompt : list pystr -> pyres Z * list pystr) (l : list pystr) : option (pyres Z * list pystr) :=
  match given with
  | Some v => Some (POk v, l)
  | None =>
      match cfg_lookup key cfg with
      | Some (VInt v) => Some (POk v, l)
      | Some _ => None
      | None => Some (prompt l)
      end
  end.

Section Entry.
(** The games package, the host [CS2PresetAdapter()] searches for the
    config file, and what each benchmark class builds. *)
Variable pkg : games_pkg.
Variable host : CS2Locate.host.
Variable classes : pystr -> option game_class.

(** The preset step (lines 278-284): a non-empty preset id is applied,
    with a backup stamped by the machine's clock; what the manager
    raises is not caught. *)
Definition main_apply (pm : PresetManager.manager) (game_id : pystr) (preset_id : option pystr) (e : cli_env)
    : option (pyres bool * cli_env) :=
  match preset_id with
  | Some ((_ :: _) as pid) =>
      let ts := stamp (env_world e) (clock (env_world e)) in
      '(r, m') ← PresetManager.apply_preset pm (store e) game_id pid true ts (disk e) (files e);
      Some (r, set_files m' e)
  | _ => Some (POk true, e)
  end.

(** The [try] block (lines 286-328): every exception, [EOFError] of the
    prompts included, ends [main] with [1]. *)
Definition main_run (game_id : pystr) (args : cli_args) (e : cli_env) : option (Z * cli_env) :=
  match create_benchmark pkg game_id with
  | PErr _ => Some (1, e)
  | POk cls =>
      c ← classes cls;
      '(runs_r, l1) ← run_param (arg_runs args) (configs (class_bench c)) (lit "default_runs")
                        prompt_for_runs (inp e);
      match runs_r with
      | PErr _ => Some (1, set_inp l1 e)
      | POk runs =>
          '(cooldown_r, l2) ← run_param (arg_cooldown args) (configs (class_bench c)) (lit "cooldown")
                                prompt_for_cooldown l1;
          match cooldown_r with
          | PErr _ => Some (1, set_inp l2 e)
          | POk cooldown =>
              let '(r, s') := @run_benchmark_series (class_steps c) runs cooldown
                                {| bench := class_bench c; machine := env_world e |} in
              Some (match r with POk _ => 0 | PErr _ => 1 end, set_world (machine s') (set_inp l2 e))
          end
      end
  end.

(** [sys.exit(main())] (lines 227-331): the exit status, or the
    exception that escapes [main] ([EOFError] of the game and preset
    prompts and of the search for the CS2 config, which are outside the
    [try]).  The [choices] check of [argparse] exits with status 2
    before anything else. *)
Definition main (args : cli_args) (e : cli_env) : option (pyres Z * cli_env) :=
  let available_games := get_available_games pkg in
  if (match arg_game args with Some g => bool_decide (g ∉ available_games) | None => false end)
  then Some (POk 2, e) else
  if arg_list args then Some (POk 0, e) else
  if bool_decide (available_games = []) then Some (POk 1, e) else
  let '(game_r, l1) :=
    match arg_game args with
    | Some g => (POk g, inp e)
    | None => prompt_for_game available_games (inp e)
    end in
  match game_r with
  | PErr x => Some (PErr x, set_inp l1 e)
  | POk game_id =>
      match PresetManager.get_preset_manager host game_id with
      | PErr x => Some (PErr x, set_inp l1 e)
      | POk pm =>
      if arg_list_presets args then Some (POk 0, set_inp l1 e) else
      let '(preset_r, l2) :=
        match arg_preset args with
        | Some p => (POk (Some p), l1)
        | None => prompt_for_preset (store e) game_id l1
        end in
      match preset_r with
      | PErr x => Some (PErr x, set_inp l2 e)
      | POk preset_id =>
          '(r, e3) ← main_apply pm game_id preset_id (set_inp l2 e);
          match r with
          | PErr x => Some (PErr x, e3)
          | POk ok =>
              if negb ok then Some (POk 1, e3) else
              '(code, e4) ← main_run game_id args e3;
              Some (POk code, e4)
          end
      end
      end
  end.

End Entry.

(** The classes of the shipped package: [CS2Benchmark()] (lines 18-38 of
    [katana/games/cs2/benchmark.py]). *)
Definition repo_classes (name : pystr) : option game_class :=
  if bool_decide (name = lit "CS2Benchmark")
  then Some {| class_bench := Cs2Benchmark.init_cs2; class_steps := Cs2Benchmark.cs2_steps |}
  else None.

(** ** The prompt loop *)

Section PromptUntil.
Context {A : Type} (accept : pystr -> option A).

(** The line that ends the loop is the first one [accept] takes. *)
Lemma prompt_until_ok inp a rest :
  prompt_until accept inp = (POk a, rest) <->
  exists pre line, inp = pre ++ line :: rest /\ Forall (fun l => accept l = None) pre /\ accept line = Some a.
Proof.
  split.
  - induction inp as [|l inp IH]; cbn; [done |].
    destruct (accept l) eqn:E.
    + intros [= -> ->]. by exists [], l.
    + intros (pre & line & -> & Hpre & Hl)%IH. exists (l :: pre), line. by repeat constructor.
  - intros (pre & line & -> & Hpre & Hl). induction Hpre as [|l pre Hl' _ IH]; cbn.
    + by rewrite Hl.
    + by rewrite Hl'.
Qed.

(** At the end of input, [input()] raises [EOFError]. *)
Lemma prompt_until_err inp x rest :
  prompt_until accept inp = (PErr x, rest) <->
  x = EOFError /\ rest = [] /\ Forall (fun l => accept l = None) inp.
Proof.
  split.
  - induction inp as [|l inp IH]; cbn; [by intros [= <- <-] |].
    destruct (accept l) eqn:E; [done |]. intros (-> & -> & ?)%IH. by repeat constructor.
  - intros (-> & -> & Hinp). induction Hinp as [|l inp Hl _ IH]; cbn; [done |]. by rewrite Hl.
Qed.

(** The loop ends: it returns or raises. *)
Lemma prompt_until_total inp :
  (exists a rest, prompt_until accept inp = (POk a, rest)) \/ prompt_until accept inp = (PErr EOFError, []).
Proof.
  destruct (prompt_until accept inp) as [[a|x] rest] eqn:E; [left; eauto | right].
  by apply prompt_until_err in E as (-> & -> & _).
Qed.
End PromptUntil.

Lemma accept_game_Some gs line g :
  accept_game gs line = Some g <-> exists n, py_int (py_strip line) = Some n /\ 1 <= n /\ gs !! Z.to_nat (n - 1) = Some g.
Proof.
  unfold accept_game. destruct (py_int (py_strip line)) as [n|]; cbn.
  2: { split; [done | by intros (m & ? & _)]. }
  case_bool_decide as Hn.
  - split; [intros; exists n; split_and!; auto; lia | by intros (m & [= <-] & _ & ?)].
  - split; [done | intros (m & [= <-] & ? & _); lia].
Qed.

Lemma accept_game_None gs line :
  accept_game gs line = None <->
  forall n, py_int (py_strip line) = Some n -> n < 1 \/ Z.of_nat (length gs) < n.
Proof.
  split.
  - intros Hn n Hi. destruct (decide (1 <= n <= Z.of_nat (length gs))) as [Hr|]; [| lia].
    exfalso. destruct (lookup_lt_is_Some_2 gs (Z.to_nat (n - 1))) as [g Hg]; [lia |].
    enough (accept_game gs line = Some g) by congruence. apply accept_game_Some. exists n. split_and!; auto; lia.
  - intros Hn. destruct (accept_game gs line) as [g|] eqn:E; [| done].
    apply accept_game_Some in E as (n & Hi & Hn1 & Hg). apply lookup_lt_Some in Hg.
    destruct (Hn n Hi); lia.
Qed.

(** On the listed presets, whose files exist, the loop body of
    [prompt_for_preset] is [0] or the one of [prompt_for_game]. *)
Lemma accept_preset_listed st g line :
  accept_preset st g (PresetManager.get_available_presets st g).*1 line =
  if bool_decide (py_strip line = lit "0") then Some None
  else Some <$> accept_game (PresetManager.get_available_presets st g).*1 line.
Proof.
  unfold accept_preset, accept_game. case_bool_decide; [done |].
  destruct (py_int (py_strip line)) as [n|]; cbn; [| done]. case_bool_decide; [| done].
  destruct (_ !! Z.to_nat (n - 1)) as [q|] eqn:E; cbn; [| done].
  rewrite bool_decide_eq_true_2; [done |]. apply PresetManager.get_available_presets_files.
  by eapply list_elem_of_lookup_2.
Qed.

Lemma accept_preset_listed_Some st g line r :
  accept_preset st g (PresetManager.get_available_presets st g).*1 line = Some r <->
  (py_strip line = lit "0" /\ r = None) \/
  (py_strip line <> lit "0" /\ exists n pid, py_int (py_strip line) = Some n /\ 1 <= n /\
     (PresetManager.get_available_presets st g).*1 !! Z.to_nat (n - 1) = Some pid /\ r = Some pid).
Proof.
  rewrite accept_preset_listed. case_bool_decide as H0.
  - split; [intros [= <-]; by left | intros [[_ ->] | [? _]]; [done | contradiction]].
  - rewrite fmap_Some. split.
    + intros (pid & (n & Hn & H1 & Hl)%accept_game_Some & ->). right. split; [done |].
      exists n, pid. by split_and!.
    + intros [[? _] | [_ (n & pid & Hn & H1 & Hl & ->)]]; [contradiction |].
      exists pid. split; [| done]. apply accept_game_Some. by exists n.
Qed.

Lemma accept_preset_listed_None st g line :
  accept_preset st g (PresetManager.get_available_presets st g).*1 line = None <->
  py_strip line <> lit "0" /\
  forall n, py_int (py_strip line) = Some n -> n < 1 \/ Z.of_nat (length (PresetManager.get_available_presets st g)) < n.
Proof.
  rewrite accept_preset_listed. case_bool_decide as H0; [split; [done | by intros [? _]] |].
  rewrite fmap_None, accept_game_None, length_fmap. split; [by intros H | by intros [_ H]].
Qed.

Lemma set_inp_inp e : set_inp (inp e) e = e.
Proof. by destruct e. Qed.

(** ** Properties *)

(** C24: [prompt_for_game] returns [available_games[int(line) - 1]] for
    the first line that is a number between 1 and
    [len(available_games)], having read past every line before it. *)
Theorem prompt_for_game_spec gs inp g rest :
  prompt_for_game gs inp = (POk g, rest) <->
  exists pre line n, inp = pre ++ line :: rest /\
    Forall (fun l => forall m, py_int (py_strip l) = Some m -> m < 1 \/ Z.of_nat (length gs) < m) pre /\
    py_int (py_strip line) = Some n /\ 1 <= n /\ gs !! Z.to_nat (n - 1) = Some g.
Proof.
  unfold prompt_for_game. rewrite prompt_until_ok. split.
  - intros (pre & line & -> & Hpre & (n & ? & ? & ?)%accept_game_Some).
    exists pre, line, n. split_and!; auto. eapply Forall_impl; [exact Hpre |]. intros l. apply accept_game_None.
  - intros (pre & line & n & -> & Hpre & ? & ? & ?). exists pre, line. split_and!; auto.
    + eapply Forall_impl; [exact Hpre |]. intros l. apply accept_game_None.
    + apply accept_game_Some. eauto.
Qed.

(** C25: on a game with listed presets, [prompt_for_preset] reads up
    to the first line that is [0] or a number [i] from 1 to the number
    of listed presets, having refused every line before it: [0] keeps
    the current settings ([None]), [i] picks [preset_ids[i - 1]], the
    [i]-th listed preset. *)
Theorem prompt_for_preset_spec st g inp r rest :
  PresetManager.get_available_presets st g <> [] ->
  prompt_for_preset st g inp = (POk r, rest) <->
  exists pre line, inp = pre ++ line :: rest /\
    Forall (fun l => py_strip l <> lit "0" /\ forall n, py_int (py_strip l) = Some n ->
              n < 1 \/ Z.of_nat (length (PresetManager.get_available_presets st g)) < n) pre /\
    ((py_strip line = lit "0" /\ r = None) \/
     (py_strip line <> lit "0" /\ exists n pid, py_int (py_strip line) = Some n /\ 1 <= n /\
        (PresetManager.get_available_presets st g).*1 !! Z.to_nat (n - 1) = Some pid /\ r = Some pid)).
Proof.
  intros Hne. unfold prompt_for_preset. rewrite bool_decide_eq_false_2 by done. rewrite prompt_until_ok.
  split; intros (pre & line & -> & Hpre & Hl); exists pre, line; split_and!; try done;
    [eapply Forall_impl; [exact Hpre |]; intros l; apply accept_preset_listed_None
    | by apply accept_preset_listed_Some
    | eapply Forall_impl; [exact Hpre |]; intros l; apply accept_preset_listed_None
    | by apply accept_preset_listed_Some].
Qed.

Section MainProperties.
Variable pkg : games_pkg.
Variable host : CS2Locate.host.
Variable classes : pystr -> option game_class.

(** [main_game]: [main] past [argparse], [--list] and the game choice,
    for a valid [--game g]. *)
Local Ltac main_game g :=
  match goal with
  | Hg : arg_game ?args = Some g, Hin : g ∈ get_available_games _, Hl : arg_list ?args = false |- _ =>
      unfold main; rewrite Hg, Hl;
      rewrite bool_decide_false by (intros Hn; by apply Hn);
      rewrite bool_decide_false by (intros Hn; rewrite Hn in Hin; by apply not_elem_of_nil in Hin);
      cbn
  end.

(** The stages [main] goes through for a valid [--game] given with
    [--preset]. *)
Lemma main_with_preset args e g p pm :
  arg_game args = Some g -> g ∈ get_available_games pkg -> arg_list args = false ->
  arg_list_presets args = false -> arg_preset args = Some p ->
  PresetManager.get_preset_manager host g = POk pm ->
  main pkg host classes args e =
    '(r, e3) ← main_apply pm g (Some p) e;
    match r with
    | PErr x => Some (PErr x, e3)
    | POk ok =>
        if negb ok then Some (POk 1, e3) else
        '(code, e4) ← main_run pkg classes g args e3;
        Some (POk code, e4)
    end.
Proof. intros Hg Hin Hl Hlp Hp Hpm. main_game g. by rewrite Hpm, Hlp, Hp, set_inp_inp. Qed.

(** C26: when [CS2PresetAdapter()] raises while searching for the config
    (a Steam [userdata] that is a file), the exception escapes [main]
    before anything else is done, [--list-presets] included: it is
    outside the [try]. *)
Theorem main_search_raises args e g x :
  arg_game args = Some g -> g ∈ get_available_games pkg -> arg_list args = false ->
  PresetManager.get_preset_manager host g = PErr x ->
  main pkg host classes args e = Some (PErr x, e).
Proof. intros Hg Hin Hl Hpm. main_game g. by rewrite Hpm, set_inp_inp. Qed.

(** C19: when the preset manager refuses the preset given with
    [--preset], [main] returns 1 without creating the benchmark: the
    machine is untouched, so no game is launched. *)
Theorem main_preset_refused args e g p pm m' :
  arg_game args = Some g -> g ∈ get_available_games pkg -> arg_list args = false ->
  arg_list_presets args = false -> arg_preset args = Some p -> p <> [] ->
  PresetManager.get_preset_manager host g = POk pm ->
  PresetManager.apply_preset pm (store e) g p true
    (stamp (env_world e) (clock (env_world e))) (disk e) (files e) = Some (POk false, m') ->
  exists e', main pkg host classes args e = Some (POk 1, e') /\
             env_world e' = env_world e /\ files e' = m'.
Proof.
  intros Hg Hin Hl Hlp Hp Hne Hpm Happ. rewrite (main_with_preset args e g p pm) by done.
  destruct p as [|c p]; [done |]. cbn. rewrite Happ. cbn. by eexists.
Qed.

(** C20: an exception of the preset step escapes [main]: line 281 is
    outside the [try], so when the manager raises (a preset file whose
    JSON is a number makes the CS2 adapter's [in] check raise
    [TypeError]) [main] raises it before the benchmark is created, the
    machine untouched. *)
Theorem main_preset_raises args e g p pm x m' :
  arg_game args = Some g -> g ∈ get_available_games pkg -> arg_list args = false ->
  arg_list_presets args = false -> arg_preset args = Some p -> p <> [] ->
  PresetManager.get_preset_manager host g = POk pm ->
  PresetManager.apply_preset pm (store e) g p true
    (stamp (env_world e) (clock (env_world e))) (disk e) (files e) = Some (PErr x, m') ->
  exists e', main pkg host classes args e = Some (PErr x, e') /\ env_world e' = env_world e.
Proof.
  intros Hg Hin Hl Hlp Hp Hne Hpm Happ. rewrite (main_with_preset args e g p pm) by done.
  destruct p as [|c p]; [done |]. cbn. rewrite Happ. cbn. by eexists.
Qed.

(** C18: with [--runs] and [--cooldown] given, once the preset step has
    succeeded and [create_benchmark] has built the class, [main] is
    [run_benchmark_series(runs, cooldown)] on the new object: the flag
    values reach it unchecked, and [main] returns 0 exactly when the
    series returns. *)
Theorem main_runs_series args e g p pm e3 cls c r cd :
  arg_game args = Some g -> g ∈ get_available_games pkg -> arg_list args = false ->
  arg_list_presets args = false -> arg_preset args = Some p ->
  PresetManager.get_preset_manager host g = POk pm ->
  main_apply pm g (Some p) e = Some (POk true, e3) ->
  create_benchmark pkg g = POk cls -> classes cls = Some c ->
  arg_runs args = Some r -> arg_cooldown args = Some cd ->
  let '(res, s') := @run_benchmark_series (class_steps c) r cd
                      {| bench := class_bench c; machine := env_world e3 |} in
  main pkg host classes args e =
    Some (POk (match res with POk _ => 0 | PErr _ => 1 end), set_world (machine s') e3).
Proof.
  intros Hg Hin Hl Hlp Hp Hpm Happ Hcb Hc Hr Hcd. rewrite (main_with_preset args e g p pm) by done.
  rewrite Happ. cbn. unfold main_run. rewrite Hcb, Hc. cbn. rewrite Hr, Hcd. cbn.
  destruct (run_benchmark_series r cd _) as [res s']. by rewrite set_inp_inp.
Qed.
End MainProperties.

(** ** Witnesses *)

Definition ex_env : cli_env := {|
  inp := [];
  store := PresetManager.ex_store;
  files := CS2PresetAdapter.ex_fs;
  disk := CS2PresetAdapter.ex_disk;
  env_world := Cs2Benchmark.ex_world [] true
|}.

Definition ex_args (preset : pystr) (runs cooldown : Z) : cli_args := {|
  arg_game := Some (lit "cs2"); arg_runs := Some runs; arg_cooldown := Some cooldown;
  arg_list := false; arg_preset := Some preset; arg_list_presets := false
|}.

Lemma prompt_for_game_spec_witness :
  prompt_for_game [lit "cs2"] [lit "x"; lit "2"; lit " 1"] = (POk (lit "cs2"), []).
Proof.
  apply prompt_for_game_spec. exists [lit "x"; lit "2"], (lit " 1"), 1.
  split_and!; try reflexivity; try lia.
  constructor; [intros m Hm; vm_compute in Hm; discriminate |].
  constructor; [intros m Hm; vm_compute in Hm; injection Hm as <-; cbn; lia |].
  constructor.
Defined.

(** Out of range, not a number, then the second preset listed. *)
Lemma prompt_for_preset_spec_witness :
  prompt_for_preset PresetManager.ex_store (lit "cs2") [lit "7"; lit "x"; lit " 2 "] = (POk (Some (lit "bad")), []).
Proof.
  apply prompt_for_preset_spec; [vm_compute; discriminate |].
  exists [lit "7"; lit "x"], (lit " 2 "). split_and!; [reflexivity | | right; split; [vm_compute; discriminate |]].
  - constructor; [split; [vm_compute; discriminate | intros n Hn; vm_compute in Hn; injection Hn as <-; right; vm_compute; reflexivity] |].
    constructor; [split; [vm_compute; discriminate | intros n Hn; vm_compute in Hn; discriminate] | constructor].
  - exists 2, (lit "bad"). split_and!; [reflexivity | lia | reflexivity | reflexivity].
Defined.

(** [--preset bad] is refused by the CS2 adapter. *)
Lemma main_preset_refused_witness :
  exists e', main repo_pkg CS2Locate.ex_host repo_classes (ex_args (lit "bad") 4 120) ex_env
             = Some (POk 1, e') /\ env_world e' = env_world ex_env.
Proof.
  destruct (main_preset_refused repo_pkg CS2Locate.ex_host repo_classes (ex_args (lit "bad") 4 120) ex_env
              (lit "cs2") (lit "bad") PresetManager.ex_manager PresetManager.ex_fs_bad)
    as (e' & H1 & H2 & _);
    [reflexivity | vm_compute; left | reflexivity | reflexivity | reflexivity | discriminate
    | vm_compute; reflexivity | decide_true |].
  exists e'. exact (conj H1 H2).
Defined.

(** [--preset scale], a preset file holding the number [1]. *)
Lemma main_preset_raises_witness :
  exists e', main repo_pkg CS2Locate.ex_host repo_classes (ex_args (lit "scale") 4 120) ex_env
             = Some (PErr TypeError, e') /\ env_world e' = env_world ex_env.
Proof.
  apply (main_preset_raises repo_pkg CS2Locate.ex_host repo_classes (ex_args (lit "scale") 4 120) ex_env
           (lit "cs2") (lit "scale") PresetManager.ex_manager TypeError CS2PresetAdapter.ex_fs);
    [reflexivity | vm_compute; left | reflexivity | reflexivity | reflexivity | discriminate
    | vm_compute; reflexivity | vm_compute; reflexivity].
Defined.

(** [--preset] empty, four runs, 120 s: the series of [ex_ok]. *)
Lemma main_runs_series_witness :
  main repo_pkg CS2Locate.ex_host repo_classes (ex_args [] 4 120) ex_env =
  Some (POk 0, set_world (machine (@run_benchmark_series Cs2Benchmark.cs2_steps 4 120
                                     {| bench := Cs2Benchmark.init_cs2; machine := env_world ex_env |}).2) ex_env).
Proof.
  pose proof (main_runs_series repo_pkg CS2Locate.ex_host repo_classes (ex_args [] 4 120) ex_env (lit "cs2") []
                PresetManager.ex_manager ex_env (lit "CS2Benchmark")
                {| class_bench := Cs2Benchmark.init_cs2; class_steps := Cs2Benchmark.cs2_steps |} 4 120) as H.
  cbn [class_steps class_bench] in H.
  destruct (@run_benchmark_series Cs2Benchmark.cs2_steps 4 120 _) as [res s'] eqn:E.
  cbn. rewrite H; [| reflexivity | vm_compute; left | reflexivity | reflexivity | reflexivity
                  | vm_compute; reflexivity | reflexivity .. ].
  vm_compute in E. by injection E as <- _.
Defined.

(** A host whose Steam [userdata] is a file: [--list-presets] crashes. *)
Definition ex_userdata_file_host : CS2Locate.host := {|
  CS2Locate.os_is_nt := true; CS2Locate.registry_steam_path := Some CS2Locate.ex_steam;
  CS2Locate.home_dir := Some (lit "C:/Users/u");
  CS2Locate.existing := {[ CS2Locate.path_div CS2Locate.ex_steam (lit "userdata") ]};
  CS2Locate.directories := ∅
|}.

Definition ex_list_presets : cli_args := {|
  arg_game := Some (lit "cs2"); arg_runs := None; arg_cooldown := None;
  arg_list := false; arg_preset := None; arg_list_presets := true
|}.

Lemma main_search_raises_witness :
  main repo_pkg ex_userdata_file_host repo_classes ex_list_presets ex_env = Some (PErr OSError, ex_env).
Proof. apply (main_search_raises _ _ _ _ _ (lit "cs2")); [reflexivity | vm_compute; left | reflexivity | vm_compute; reflexivity]. Defined.

End Main.
